(** * Qvantum heat-pump integration: token handling, access elevation,
      command dispatch and the two polling coordinators

    A shallow embedding of [custom_components/qvantum_hass/api.py]
    (class [QvantumApi]) and of the coordinator's [_update_data] in
    [custom_components/qvantum_hass/__init__.py], with the properties the
    specification states about them.

    Conventions of the embedding.
    - JSON documents and the Python values built from them are the type
      [json]; a Python [dict] is a finite map from strings.  Numbers are
      integers.
    - Text is [string], holding the UTF-8 encoding of a Python [str];
      [code_points] gives its characters.
    - A Python exception is a value of [exn]; a computation that may raise
      returns [res].  Code that talks to the network or reads the clock is a
      function from a world to a result and a new world.
    - Instants are integers counting microseconds, the resolution of
      [datetime]. *)

From Stdlib Require Import ZArith String Ascii List Bool Lia DecimalString.
From stdpp Require Import base option list strings gmap.

#[local] Set Warnings "-register-all".
#[local] Open Scope Z_scope.
#[local] Open Scope string_scope.

(** ** Exceptions and results *)

(** The three exception classes of [api.py] ([AuthenticationError] and
    [ApiConnectionError] derive from [QvantumApiError]), the coordinator's
    [UpdateFailed], and the built-in exceptions the code can meet. *)
Inductive exn : Type :=
  | QvantumApiError (msg : string)
  | AuthenticationError (msg : string)
  | ApiConnectionError (msg : string)
  | UpdateFailed (msg : string)
  | AssertionError
  | KeyError
  | TypeError
  | ValueError
  | AttributeError
  | OverflowError.

(** [isinstance(e, QvantumApiError)]: what [except QvantumApiError] catches. *)
Definition is_api_error (e : exn) : bool :=
  match e with
  | QvantumApiError _ | AuthenticationError _ | ApiConnectionError _ => true
  | _ => false
  end.

(** [isinstance(e, AuthenticationError)]. *)
Definition is_authentication_error (e : exn) : bool :=
  match e with AuthenticationError _ => true | _ => false end.

(** [str(err)] for the exceptions that carry a message. *)
Definition exn_message (e : exn) : string :=
  match e with
  | QvantumApiError m | AuthenticationError m | ApiConnectionError m
  | UpdateFailed m => m
  | _ => ""
  end.

Inductive res (A : Type) : Type :=
  | Ok (a : A)
  | Raise (e : exn).
Arguments Ok {A} a.
Arguments Raise {A} e.

Definition res_bind {A B} (r : res A) (k : A -> res B) : res B :=
  match r with Ok a => k a | Raise e => Raise e end.

Definition is_ok {A} (r : res A) : bool :=
  match r with Ok _ => true | Raise _ => false end.

(** ** JSON values *)

Inductive json : Type :=
  | JNull
  | JBool (b : bool)
  | JNum (n : Z)
  | JStr (s : string)
  | JArr (l : list json)
  | JObj (o : gmap string json).

Definition empty_dict : json := JObj ∅.

(** [{k1: v1, ...}] written as a list of bindings; a repeated key keeps its
    last binding, as in a Python dict display. *)
Definition dict_of (l : list (string * json)) : json :=
  JObj (fold_left (fun m kv => <[kv.1 := kv.2]> m) l ∅).

(** [bool(x)] *)
Definition truthy (j : json) : bool :=
  match j with
  | JNull => false
  | JBool b => b
  | JNum n => negb (Z.eqb n 0)
  | JStr s => negb (String.eqb s "")
  | JArr l => match l with [] => false | _ => true end
  | JObj o => negb (bool_decide (o = ∅))
  end.

(** [x == "text"] for a string literal on the right. *)
Definition eq_str (j : json) (s : string) : bool :=
  match j with JStr t => String.eqb t s | _ => false end.

(** [x.get(k, default)]; only a dict has [get]. *)
Definition py_get (j : json) (k : string) (dflt : json) : res json :=
  match j with
  | JObj o => Ok (default dflt (o !! k))
  | _ => Raise AttributeError
  end.

(** [x[k]] for a string key [k]. *)
Definition py_item (j : json) (k : string) : res json :=
  match j with
  | JObj o => match o !! k with Some v => Ok v | None => Raise KeyError end
  | _ => Raise TypeError
  end.

(** [needle in hay] on text: [needle] occurs as a substring. *)
Fixpoint contains (needle hay : string) : bool :=
  String.prefix needle hay
  || match hay with
     | EmptyString => false
     | String _ rest => contains needle rest
     end.

(** [k in x] for a string key [k]: a key of a dict, an element of a list, a
    substring of a text; other values are not containers. *)
Definition py_in (k : string) (j : json) : res bool :=
  match j with
  | JObj o => Ok (bool_decide (is_Some (o !! k)))
  | JArr l => Ok (existsb (fun x => eq_str x k) l)
  | JStr s => Ok (contains k s)
  | _ => Raise TypeError
  end.

(** [x >= n] and [x < n] for an integer literal [n]; [bool] is a subclass
    of [int]. *)
Definition py_num (j : json) : res Z :=
  match j with
  | JNum n => Ok n
  | JBool b => Ok (if b then 1 else 0)
  | _ => Raise TypeError
  end.

Definition py_ge (j : json) (n : Z) : res bool :=
  res_bind (py_num j) (fun x => Ok (Z.leb n x)).

Definition py_lt (j : json) (n : Z) : res bool :=
  res_bind (py_num j) (fun x => Ok (Z.ltb x n)).

(** ** Text *)

(** A Python [str] is a sequence of code points.  A [string] holds it in
    UTF-8 and [code_points] reads it back, refusing what is not the
    shortest encoding of a code point below [0x110000]; a lone surrogate,
    which a [str] can hold, is written with three bytes like its
    neighbours.  A [string] that [code_points] refuses stands for no
    text. *)

(** The six bits a continuation byte carries. *)
Definition continuation (c : ascii) : option N :=
  let n := N_of_ascii c in
  if ((128 <=? n) && (n <? 192))%N then Some (n - 128)%N else None.

(** A code point read from a sequence of bytes counts when it is in the
    range that needs so many bytes. *)
Definition in_range (lo hi cp : N) (rest : option (list N)) : option (list N) :=
  if ((lo <=? cp) && (cp <? hi))%N then cons cp <$> rest else None.

Fixpoint code_points (s : string) : option (list N) :=
  match s with
  | EmptyString => Some []
  | String a r =>
      let n := N_of_ascii a in
      if (n <? 128)%N then cons n <$> code_points r
      else
        match r with
        | EmptyString => None
        | String b r1 =>
            match continuation b with
            | None => None
            | Some x =>
                if ((192 <=? n) && (n <? 224))%N
                then in_range 128 2048 ((n - 192) * 64 + x) (code_points r1)
                else
                  match r1 with
                  | EmptyString => None
                  | String c r2 =>
                      match continuation c with
                      | None => None
                      | Some y =>
                          if ((224 <=? n) && (n <? 240))%N
                          then in_range 2048 65536
                                 (((n - 224) * 64 + x) * 64 + y) (code_points r2)
                          else
                            match r2 with
                            | EmptyString => None
                            | String d r3 =>
                                match continuation d with
                                | None => None
                                | Some z =>
                                    if ((240 <=? n) && (n <? 248))%N
                                    then in_range 65536 1114112
                                           ((((n - 240) * 64 + x) * 64 + y) * 64 + z)
                                           (code_points r3)
                                    else None
                                end
                            end
                      end
                  end
            end
        end
  end.

(** The encoding of one code point, and of a sequence of them. *)
Definition utf8_char (cp : N) : string :=
  let byte (n : N) := ascii_of_N n in
  let low (n : N) := byte (128 + n mod 64)%N in
  if (cp <? 128)%N then String (byte cp) ""
  else if (cp <? 2048)%N then String (byte (192 + cp / 64)%N) (String (low cp) "")
  else if (cp <? 65536)%N then
    String (byte (224 + cp / 4096)%N) (String (low (cp / 64)%N) (String (low cp) ""))
  else
    String (byte (240 + cp / 262144)%N)
      (String (low (cp / 4096)%N) (String (low (cp / 64)%N) (String (low cp) ""))).

Definition utf8 (t : list N) : string :=
  fold_right (fun cp s => utf8_char cp ++ s) "" t.

(** [len(s)] for a text. *)
Definition text_length (s : string) : nat :=
  match code_points s with Some t => length t | None => 0%nat end.

(** The decimal digits of the character database (general category [Nd];
    Unicode 14.0, the version of CPython 3.11): each entry is the code
    point of a digit zero, and the digits one to nine follow it. *)
Definition decimal_zeros : list N :=
  [48; 1632; 1776; 1984; 2406; 2534; 2662; 2790; 2918; 3046; 3174; 3302;
   3430; 3558; 3664; 3792; 3872; 4160; 4240; 6112; 6160; 6470; 6608; 6784;
   6800; 6992; 7088; 7232; 7248; 42528; 43216; 43264; 43472; 43504; 43600;
   44016; 65296; 66720; 68912; 69734; 69872; 69942; 70096; 70384; 70736;
   70864; 71248; 71360; 71472; 71904; 72016; 72784; 73040; 73120; 92768;
   92864; 93008; 120782; 120792; 120802; 120812; 120822; 123200; 123632;
   125264; 130032]%N.

(** The digit a character stands for when [int] reads it; [None] when it
    is no decimal digit ([str.isdecimal] is false). *)
Definition decimal_digit (cp : N) : option Z :=
  (fun zero => Z.of_N (cp - zero))
    <$> List.find (fun zero => ((zero <=? cp) && (cp <=? zero + 9))%N) decimal_zeros.

Definition is_decimal (cp : N) : bool :=
  match decimal_digit cp with Some _ => true | None => false end.

Definition digit_value (cp : N) : Z :=
  match decimal_digit cp with Some d => d | None => 0 end.

(** The characters that are digits without being decimal digits:
    superscripts and subscripts, circled and parenthesized digits and the
    like (first and last code point of each run). *)
Definition other_digits : list (N * N) :=
  [(178, 179); (185, 185); (4969, 4977); (6618, 6618); (8304, 8304);
   (8308, 8313); (8320, 8329); (9312, 9320); (9332, 9340); (9352, 9360);
   (9450, 9450); (9461, 9469); (9471, 9471); (10102, 10110); (10112, 10120);
   (10122, 10130); (68160, 68163); (69216, 69224); (69714, 69722);
   (127232, 127242)]%N.

(** [str.isdigit] on one character. *)
Definition is_digit (cp : N) : bool :=
  is_decimal cp
  || existsb (fun run => ((run.1 <=? cp) && (cp <=? run.2))%N) other_digits.

(** White space as [int] strips it: tab to carriage return and the space,
    and the white space beyond ASCII (the four separators [0x1c] to [0x1f]
    are not stripped). *)
Definition int_spaces : list N :=
  [9; 10; 11; 12; 13; 32; 133; 160; 5760; 8192; 8193; 8194; 8195; 8196; 8197;
   8198; 8199; 8200; 8201; 8202; 8232; 8233; 8239; 8287; 12288]%N.

Definition is_space (cp : N) : bool := existsb (N.eqb cp) int_spaces.

Fixpoint all_chars (p : ascii -> bool) (s : string) : bool :=
  match s with
  | EmptyString => true
  | String c r => p c && all_chars p r
  end.

(** [s.isdigit()]: at least one character and all of them digits. *)
Definition isdigit (s : string) : bool :=
  match code_points s with
  | Some (c :: t) => forallb is_digit (c :: t)
  | _ => false
  end.

(** [s.lstrip(c)] for a character [c] of ASCII, whose byte is part of no
    other character's encoding. *)
Fixpoint lstrip (c : ascii) (s : string) : string :=
  match s with
  | EmptyString => EmptyString
  | String a r => if Ascii.eqb a c then lstrip c r else s
  end.

Fixpoint lstrip_space (t : list N) : list N :=
  match t with
  | [] => []
  | c :: r => if is_space c then lstrip_space r else t
  end.

Definition strip_space (t : list N) : list N :=
  rev (lstrip_space (rev (lstrip_space t))).

(** The digits of an [int] literal in base ten: decimal digits, with single
    underscores allowed between two digits.  [after_digit] tells whether the
    previous character was a digit. *)
Fixpoint parse_digits (acc : Z) (after_digit : bool) (t : list N) : option Z :=
  match t with
  | [] => if after_digit then Some acc else None
  | c :: r =>
      match decimal_digit c with
      | Some d => parse_digits (10 * acc + d) true r
      | None =>
          if (c =? 95)%N then
            if after_digit then parse_digits acc false r else None
          else None
      end
  end.

(** [sys.get_int_max_str_digits()] as the interpreter starts with it: the
    most digits [int] converts. *)
Definition int_max_str_digits : nat := 4300.

Definition count_digits (t : list N) : nat := length (List.filter is_decimal t).

(** [int(s)] for a text [s]: surrounding white space, one optional sign, the
    digits, of which there may be [int_max_str_digits] at most.  [None] is
    [ValueError]. *)
Definition int_of_text (t : list N) : option Z :=
  let stripped := strip_space t in
  let minus := match stripped with c :: _ => (c =? 45)%N | [] => false end in
  let plus := match stripped with c :: _ => (c =? 43)%N | [] => false end in
  let digits := if minus || plus then tail stripped else stripped in
  if (int_max_str_digits <? count_digits digits)%nat then None
  else (fun n => if minus then - n else n) <$> parse_digits 0 false digits.

Definition int_of_string (s : string) : option Z :=
  match code_points s with Some t => int_of_text t | None => None end.

(** [int(x)] *)
Definition py_int (j : json) : res Z :=
  match j with
  | JNum n => Ok n
  | JBool b => Ok (if b then 1 else 0)
  | JStr s => match int_of_string s with Some n => Ok n | None => Raise ValueError end
  | _ => Raise TypeError
  end.

(** [str(n)] for an integer. *)
Definition string_of_Z (n : Z) : string :=
  NilZero.string_of_int (Z.to_int n).

(** ** [set_setting]: coercion of the value *)

(** The body of the [try] in [set_setting]:
    [if isinstance(value, str) and value.lstrip("-").isdigit(): value = int(value)]. *)
Definition coerce_body (value : json) : res json :=
  match value with
  | JStr s =>
      if isdigit (lstrip "-" s)
      then res_bind (py_int value) (fun n => Ok (JNum n))
      else Ok value
  | _ => Ok value
  end.

(** The [try] with its handler [except (ValueError, AttributeError): pass]:
    the value stays as it was. *)
Definition coerce_value (value : json) : res json :=
  match coerce_body value with
  | Ok v => Ok v
  | Raise ValueError | Raise AttributeError => Ok value
  | Raise e => Raise e
  end.

(** A decimal literal [int] converts: one or more decimal digits, and no
    more of them than [int_max_str_digits]. *)
Definition decimal_text (s : string) : Prop :=
  exists ds : list N,
    code_points s = Some ds /\ ds <> [] /\ forallb is_decimal ds = true
    /\ (length ds <= int_max_str_digits)%nat.

(** Its value in positional notation. *)
Fixpoint positional (ds : list N) : Z :=
  match ds with
  | [] => 0
  | c :: r => digit_value c * 10 ^ Z.of_nat (length r) + positional r
  end.

Definition decimal_value (s : string) : Z :=
  match code_points s with Some ds => positional ds | None => 0 end.

(** A text of [n] times the character [c]. *)
Fixpoint replicate_char (n : nat) (c : ascii) : string :=
  match n with O => "" | S k => String c (replicate_char k c) end.

(** ** The HTTP library as the client sees it *)

(** The body of a response: empty, a JSON document, or other non-empty
    text, which comes with what the JSON decoder says when it is given that
    text. *)
Inductive body : Type :=
  | EmptyBody
  | JsonBody (j : json)
  | TextBody (t : string) (decoder_says : string).

Record response : Type := {
  status_code : Z;
  reason : string;
  resp_body : body;
}.

(** [bool(response)] is [response.ok]: false exactly when
    [raise_for_status] would raise. *)
Definition is_error_status (st : Z) : bool := Z.leb 400 st && Z.ltb st 600.
Definition response_ok (r : response) : bool := negb (is_error_status (status_code r)).

(** [response.text] as a condition. *)
Definition has_text (r : response) : bool :=
  match resp_body r with EmptyBody => false | _ => true end.

(** What one call of [requests.get], [requests.post] or [requests.patch]
    does: it times out, it raises some other [RequestException], or it
    returns a response.  For the exception, [resp] is its [response]
    attribute, of which the handlers read the truth value and the status
    code ([None] when there is none). *)
Inductive reply : Type :=
  | TimedOut (msg : string)
  | Failed (msg : string) (resp : option (bool * Z))
  | Answered (r : response).

(** A caught [requests] exception: is it a [Timeout], its text, its
    [response] attribute. *)
Record request_exception : Type := {
  exc_timeout : bool;
  exc_msg : string;
  exc_response : option (bool * Z);
}.

(** [response.raise_for_status()] *)
Definition raise_for_status (url : string) (r : response) : option request_exception :=
  let st := status_code r in
  if is_error_status st then
    Some {| exc_timeout := false;
            exc_msg := string_of_Z st
                       ++ (if Z.ltb st 500 then " Client Error: " else " Server Error: ")
                       ++ reason r ++ " for url: " ++ url;
            exc_response := Some (response_ok r, st) |}
  else None.

(** [response.json()]; a body that is not JSON raises the library's
    [JSONDecodeError], a [RequestException] without a response, whose text
    is the decoder's. *)
Definition response_json (r : response) : request_exception + json :=
  match resp_body r with
  | JsonBody j => inr j
  | EmptyBody =>
      inl {| exc_timeout := false;
             exc_msg := "Expecting value: line 1 column 1 (char 0)";
             exc_response := None |}
  | TextBody _ decoder_says =>
      inl {| exc_timeout := false; exc_msg := decoder_says; exc_response := None |}
  end.

Definition exception_of_reply (rp : reply) : request_exception + response :=
  match rp with
  | TimedOut m => inl {| exc_timeout := true; exc_msg := m; exc_response := None |}
  | Failed m resp => inl {| exc_timeout := false; exc_msg := m; exc_response := resp |}
  | Answered r => inr r
  end.

(** The statements of a [try] block that reads JSON:
    [response = requests.verb(...); response.raise_for_status(); return response.json()]. *)
Definition read_json (url : string) (rp : reply) : request_exception + json :=
  match exception_of_reply rp with
  | inl x => inl x
  | inr r =>
      match raise_for_status url r with
      | Some x => inl x
      | None => response_json r
      end
  end.

(** The same for [_post_request], which tests [response.text] first and
    returns [{}] for an empty body. *)
Definition read_json_or_empty (url : string) (rp : reply) : request_exception + json :=
  match exception_of_reply rp with
  | inl x => inl x
  | inr r =>
      match raise_for_status url r with
      | Some x => inl x
      | None => if has_text r then response_json r else inr empty_dict
      end
  end.

(** [hasattr(err, "response") and err.response and err.response.status_code ...] *)
Definition response_status_is (p : Z -> bool) (x : request_exception) : bool :=
  match exc_response x with
  | Some (true, st) => p st
  | _ => false
  end.

(** The two [except] clauses every request site has: [Timeout] first, then
    [RequestException] with its three cases.  The sites differ in the
    messages only. *)
Definition translate_exception
    (timeout_msg : string) (auth_msg : string)
    (server_msg : Z -> string -> string) (other_msg : string)
    (x : request_exception) : exn :=
  if exc_timeout x then ApiConnectionError (timeout_msg ++ exc_msg x)
  else if response_status_is (fun st => Z.eqb st 401) x then AuthenticationError auth_msg
  else if response_status_is (fun st => Z.leb 500 st) x then
    ApiConnectionError
      (server_msg (match exc_response x with Some (_, st) => st | None => 0 end) (exc_msg x))
  else QvantumApiError (other_msg ++ exc_msg x).

(** ** The client and its world *)

(** What goes over the wire, by the place in [api.py] that sends it. *)
Inductive event : Type :=
  | SignIn (url : string)
  | Refresh (url : string) (refresh_token : json)
  | ApiGet (url : string)
  | ApiGetInternal (url : string)
  | ApiPatch (url : string) (data : json)
  | ApiPost (url : string) (data : json).

(** Requests of the token endpoints, as opposed to requests to the device
    API. *)
Definition is_token_traffic (ev : event) : bool :=
  match ev with SignIn _ | Refresh _ _ => true | _ => false end.

(** The attributes of a [QvantumApi] object together with its surroundings:
    the clock, the time zone of the host, the network and the requests sent
    so far.  [tokens] is [JNull] for [None].  The [n]-th request is answered
    by [net n], which also tells what the clock reads when the call is
    over. *)
Record world : Type := {
  email : string;
  password : string;
  api_key : string;
  api_endpoint : string;
  internal_api_endpoint : string;
  auth_server : string;
  token_server : string;
  tokens : json;
  token_expiry : option Z;
  utc : Z;
  utc_offset : Z;
  net : nat -> reply * Z;
  trace : list event;
}.

Definition set_tokens (tk : json) (w : world) : world :=
  {| email := email w; password := password w; api_key := api_key w;
     api_endpoint := api_endpoint w;
     internal_api_endpoint := internal_api_endpoint w;
     auth_server := auth_server w; token_server := token_server w;
     tokens := tk; token_expiry := token_expiry w;
     utc := utc w; utc_offset := utc_offset w; net := net w; trace := trace w |}.

Definition set_token_expiry (e : option Z) (w : world) : world :=
  {| email := email w; password := password w; api_key := api_key w;
     api_endpoint := api_endpoint w;
     internal_api_endpoint := internal_api_endpoint w;
     auth_server := auth_server w; token_server := token_server w;
     tokens := tokens w; token_expiry := e;
     utc := utc w; utc_offset := utc_offset w; net := net w; trace := trace w |}.

(** One request: it is recorded, the network answers, time has passed. *)
Definition exchange (ev : event) (w : world) : reply * world :=
  let '(rp, t) := net w (length (trace w)) in
  (rp,
   {| email := email w; password := password w; api_key := api_key w;
      api_endpoint := api_endpoint w;
      internal_api_endpoint := internal_api_endpoint w;
      auth_server := auth_server w; token_server := token_server w;
      tokens := tokens w; token_expiry := token_expiry w;
      utc := t; utc_offset := utc_offset w; net := net w;
      trace := trace w ++ [ev] |}).

(** [datetime.now()]: the wall clock of the host, without time zone. *)
Definition now_naive (w : world) : Z := utc w + utc_offset w.

Definition seconds (n : Z) : Z := n * 1000000.
Definition hours_delta (n : Z) : Z := seconds (n * 3600).

(** [timedelta(...)] for a whole number of microseconds: a [timedelta]
    holds no more than 999999999 days either way. *)
Definition timedelta (microseconds : Z) : res Z :=
  let days := microseconds / seconds 86400 in
  if Z.leb (-999999999) days && Z.leb days 999999999 then Ok microseconds
  else Raise OverflowError.

(** [datetime.min] and [datetime.max], the first microsecond of year 1 and
    the last of year 9999, counted from 1970-01-01T00:00:00. *)
Definition datetime_min : Z := seconds (-719162 * 86400).
Definition datetime_max : Z := seconds (2932897 * 86400) - 1.

(** [t + delta] for a [datetime] [t] and a [timedelta] [delta]. *)
Definition datetime_add (t delta : Z) : res Z :=
  let sum := t + delta in
  if Z.leb datetime_min sum && Z.leb sum datetime_max then Ok sum
  else Raise OverflowError.

(** ** Computations *)

(** A computation over a state [S]: it returns or raises, and leaves a new
    state.  [M] is the client's: its state is the [world]. *)
Definition St (S A : Type) : Type := S -> res A * S.

Definition M (A : Type) : Type := St world A.

Definition ret {S A} (a : A) : St S A := fun w => (Ok a, w).
Definition raise {S A} (e : exn) : St S A := fun w => (Raise e, w).
Definition bind {S A B} (m : St S A) (k : A -> St S B) : St S B :=
  fun w => match m w with
           | (Ok a, w') => k a w'
           | (Raise e, w') => (Raise e, w')
           end.
Definition lift {S A} (r : res A) : St S A := fun w => (r, w).
Definition read {S A} (f : S -> A) : St S A := fun w => (Ok (f w), w).
Definition modify {S} (f : S -> S) : St S unit := fun w => (Ok tt, f w).
Definition request (ev : event) : M reply :=
  fun w => let '(rp, w') := exchange ev w in (Ok rp, w').

(** [try: m except C: h] where [handler e] is [Some h] when the clause
    catches [e]. *)
Definition try_except {S A} (m : St S A) (handler : exn -> option (St S A)) : St S A :=
  fun w => match m w with
           | (Ok a, w') => (Ok a, w')
           | (Raise e, w') =>
               match handler e with
               | Some h => h w'
               | None => (Raise e, w')
               end
           end.

Notation "'let*' x ':=' m 'in' k" := (bind m (fun x => k))
  (at level 10, x pattern, m at level 100, k at level 200).
Notation "m ';;' k" := (bind m (fun _ => k))
  (at level 100, k at level 200, right associativity).

(** ** [QvantumApi]: tokens *)

Definition sign_in_url (w : world) : string :=
  auth_server w ++ "/v1/accounts:signInWithPassword?key=" ++ api_key w.

Definition refresh_url (w : world) : string :=
  token_server w ++ "/v1/token?key=" ++ api_key w.

(** [authenticate] *)
Definition authenticate : M unit :=
  let* url := read sign_in_url in
  let* rp := request (SignIn url) in
  match read_json url rp with
  | inr j => modify (set_tokens j)
  | inl x =>
      raise (translate_exception
               "Authentication timeout: " "Invalid credentials"
               (fun _ m => "Server error during authentication: " ++ m)
               "Authentication error: " x)
  end.

(** [self.tokens.update({"idToken": ..., "refreshToken": ..., "expiresIn": ...})] *)
Definition update_tokens (id_token refresh_token expires_in : json) (tk : json) : json :=
  match tk with
  | JObj o => JObj (<["expiresIn" := expires_in]>
                      (<["refreshToken" := refresh_token]>
                         (<["idToken" := id_token]> o)))
  | _ => tk
  end.

(** [_refresh_access_token] *)
Definition _refresh_access_token : M unit :=
  let* tk := read tokens in
  if negb (truthy tk) then raise (AuthenticationError "No tokens available for refresh")
  else
    let* refresh_token := lift (py_item tk "refreshToken") in
    let* url := read refresh_url in
    let* rp := request (Refresh url refresh_token) in
    match read_json url rp with
    | inr refresh_data =>
        let* id_token := lift (py_get refresh_data "id_token" JNull) in
        let* new_refresh := lift (py_get refresh_data "refresh_token" JNull) in
        let* expires_in := lift (py_get refresh_data "expires_in" JNull) in
        modify (fun w => set_tokens (update_tokens id_token new_refresh expires_in (tokens w)) w)
    | inl x =>
        raise (translate_exception
                 "Token refresh timeout: " "Invalid refresh token"
                 (fun _ m => "Server error during token refresh: " ++ m)
                 "Token refresh error: " x)
    end.

(** The condition of [_ensure_tokens_valid]:
    [not self.tokens or self.token_expiry is None or datetime.now() >= self.token_expiry]. *)
Definition tokens_stale (w : world) : bool :=
  negb (truthy (tokens w))
  || match token_expiry w with
     | None => true
     | Some e => Z.leb e (now_naive w)
     end.

(** [assert self.tokens is not None] *)
Definition assert_tokens : M json :=
  let* tk := read tokens in
  match tk with JNull => raise AssertionError | _ => ret tk end.

(** The end of [_ensure_tokens_valid]: the assertion and
    [self.token_expiry = datetime.now() + timedelta(seconds=int(self.tokens["expiresIn"]) - 60)]. *)
Definition store_expiry : M unit :=
  let* tk := assert_tokens in
  let* now := read now_naive in
  let* expires_in := lift (py_item tk "expiresIn") in
  let* lifetime := lift (py_int expires_in) in
  let* delta := lift (timedelta (seconds (lifetime - 60))) in
  let* expiry := lift (datetime_add now delta) in
  modify (set_token_expiry (Some expiry)).

(** The acquisition in [_ensure_tokens_valid]: a refresh when there are
    tokens, with [except AuthenticationError: self.authenticate()], and a
    sign-in when there are none. *)
Definition acquire_tokens : M unit :=
  let* tk := read tokens in
  if truthy tk then
    try_except _refresh_access_token
      (fun e => if is_authentication_error e then Some authenticate else None)
  else authenticate.

(** [_ensure_tokens_valid] *)
Definition _ensure_tokens_valid : M unit :=
  let* stale := read tokens_stale in
  if stale then acquire_tokens;; store_expiry
  else ret tt.

(** ** [QvantumApi]: the authenticated verbs *)

(** The common beginning of the four request methods: valid tokens, the
    assertion, the URL, and the bearer header built from
    [self.tokens['idToken']]. *)
Definition prepare (base : world -> string) (endpoint : string) : M string :=
  _ensure_tokens_valid;;
  let* tk := assert_tokens in
  let* url := read (fun w => base w ++ "/" ++ endpoint) in
  let* _ := lift (py_item tk "idToken") in
  ret url.

Definition finish (other_msg : string) (server_word : string)
    (r : request_exception + json) : M json :=
  match r with
  | inr j => ret j
  | inl x =>
      raise (translate_exception
               "Request timeout: " "Authentication failed"
               (fun st _ => server_word ++ string_of_Z st)
               other_msg x)
  end.

(** [_get_request] *)
Definition _get_request (endpoint : string) : M json :=
  let* url := prepare api_endpoint endpoint in
  let* rp := request (ApiGet url) in
  finish "API error: " "Server error " (read_json url rp).

(** [_get_internal_request] *)
Definition _get_internal_request (endpoint : string) : M json :=
  let* url := prepare internal_api_endpoint endpoint in
  let* rp := request (ApiGetInternal url) in
  finish "API error: " "Internal server error " (read_json url rp).

(** [_patch_request] *)
Definition _patch_request (endpoint : string) (data : json) : M json :=
  let* url := prepare api_endpoint endpoint in
  let* rp := request (ApiPatch url data) in
  finish "API error: " "Server error " (read_json url rp).

(** [_post_request] *)
Definition _post_request (endpoint : string) (data : json) : M json :=
  let* url := prepare api_endpoint endpoint in
  let* rp := request (ApiPost url data) in
  finish "API error: " "Server error " (read_json_or_empty url rp).

(** ** [QvantumApi]: access level and elevation *)

(** [f"{x}"] for a scalar; the text of a list or dict is not modelled (no
    property below depends on it). *)
Definition py_str (j : json) : string :=
  match j with
  | JNull => "None"
  | JBool b => if b then "True" else "False"
  | JNum n => string_of_Z n
  | JStr s => s
  | JArr _ => "[...]"
  | JObj _ => "{...}"
  end.

Definition access_level_path (device_id : string) : string :=
  "api/internal/v1/auth/device/" ++ device_id ++ "/my-access-level?use_internal_names=true".

Definition generate_code_path (device_id : string) : string :=
  "api/internal/v1/auth/device/" ++ device_id ++ "/generate-access-code?use_internal_names=true".

Definition claim_grant_path (access_code : json) : string :=
  "api/internal/v1/auth/device/claim-grant?access_code=" ++ py_str access_code
  ++ "&use_internal_names=true".

Definition approve_path (device_id : string) (access_code : json) : string :=
  "api/internal/v1/auth/device/" ++ device_id ++ "/access-grants?access_code="
  ++ py_str access_code ++ "&approve=true&use_internal_names=true".

Definition command_path (device_id : string) : string :=
  "api/commands/v1/devices/" ++ device_id ++ "/commands?wait=true&use_internal_names=true".

(** [except QvantumApiError as err: return fallback] *)
Definition on_api_error {A} (fallback : A) (e : exn) : option (M A) :=
  if is_api_error e then Some (ret fallback) else None.

(** [get_access_level] *)
Definition get_access_level (device_id : string) : M json :=
  _get_internal_request (access_level_path device_id).

(** [_generate_access_code]: the response, or [None] on an API error. *)
Definition _generate_access_code (device_id : string) : M json :=
  try_except (_post_request (generate_code_path device_id) empty_dict)
             (on_api_error JNull).

(** [_claim_grant] *)
Definition _claim_grant (device_id : string) (access_code : json) : M bool :=
  try_except (_post_request (claim_grant_path access_code) empty_dict;; ret true)
             (on_api_error false).

(** [_approve_access] *)
Definition _approve_access (device_id : string) (access_code : json) : M bool :=
  try_except (_post_request (approve_path device_id access_code) empty_dict;; ret true)
             (on_api_error false).

(** [elevate_access]: the access level, or [None] ([JNull]) when the
    elevation failed. *)
Definition elevate_access (device_id : string) : M json :=
  let* access_data := get_access_level device_id in
  let* write_level := lift (py_get access_data "writeAccessLevel" (JNum 0)) in
  let* enough := lift (py_ge write_level 20) in
  if enough then ret access_data
  else
    let* code_data := _generate_access_code device_id in
    if negb (truthy code_data) then ret JNull
    else
      let* access_code := lift (py_get code_data "accessCode" JNull) in
      if negb (truthy access_code) then ret JNull
      else
        let* claimed := _claim_grant device_id access_code in
        if negb claimed then ret JNull
        else
          let* approved := _approve_access device_id access_code in
          if negb approved then ret JNull
          else
            let* updated_access := get_access_level device_id in
            let* _ := lift (py_get updated_access "writeAccessLevel" (JNum 0)) in
            ret updated_access.

(** ** [QvantumApi]: commands *)

Definition setting_payload (setting : string) (value : json) : json :=
  dict_of [("command", dict_of [("update_settings", dict_of [(setting, value)])])].

(** [response and "response" in response] as a condition. *)
Definition has_response_member (response : json) : res bool :=
  if truthy response then py_in "response" response else Ok false.

(** [set_setting] *)
Definition set_setting (device_id setting : string) (value : json) : M json :=
  let* value := lift (coerce_value value) in
  let payload := setting_payload setting value in
  let path := command_path device_id in
  let* response := _post_request path payload in
  let* inspect := lift (has_response_member response) in
  if inspect then
    let* per_setting := lift (py_item response "response") in
    let* setting_response := lift (py_get per_setting setting JNull) in
    if eq_str setting_response "permission denied" then
      let* elevated := elevate_access device_id in
      if truthy elevated then _post_request path payload
      else ret response
    else ret response
  else ret response.

(** ** Calendar time *)

(** The civil date of a day number counted from 1970-01-01 (proleptic
    Gregorian calendar, as [datetime] uses it). *)
Definition civil_of_days (days : Z) : Z * Z * Z :=
  let z := days + 719468 in
  let era := z / 146097 in
  let doe := z - era * 146097 in
  let yoe := (doe - doe / 1460 + doe / 36524 - doe / 146096) / 365 in
  let doy := doe - (365 * yoe + yoe / 4 - yoe / 100) in
  let mp := (5 * doy + 2) / 153 in
  let d := doy - (153 * mp + 2) / 5 + 1 in
  let m := if Z.ltb mp 10 then mp + 3 else mp - 9 in
  let y := yoe + era * 400 + (if Z.leb m 2 then 1 else 0) in
  (y, m, d).

Fixpoint zeros (n : nat) : string :=
  match n with O => "" | S k => String "0" (zeros k) end.

(** A number printed with at least [width] digits. *)
Definition pad (width : nat) (n : Z) : string :=
  let s := string_of_Z n in zeros (width - String.length s) ++ s.

(** [t.strftime("%Y-%m-%dT%H:%M:%S.000Z")] for a wall-clock reading [t] in
    microseconds since 1970-01-01T00:00:00.  The year is printed as the C
    library of Linux prints it, without padding. *)
Definition strftime_stop_time (t : Z) : string :=
  let secs := t / 1000000 in
  let '(y, m, d) := civil_of_days (secs / 86400) in
  let sod := secs mod 86400 in
  string_of_Z y ++ "-" ++ pad 2 m ++ "-" ++ pad 2 d ++ "T"
  ++ pad 2 (sod / 3600) ++ ":" ++ pad 2 (sod mod 3600 / 60) ++ ":" ++ pad 2 (sod mod 60)
  ++ ".000Z".

(** ** [QvantumApi]: extra hot water *)

Definition hot_water_shape (stop_time : json) (indefinite cancel : bool) : json :=
  dict_of [("set_additional_hot_water",
            dict_of [("stopTime", stop_time);
                     ("indefinite", JBool indefinite);
                     ("cancel", JBool cancel)])].

(** The [command_payload] of [set_extra_hot_water]; [now] is the reading of
    [datetime.now()], taken for the timed shape, where
    [datetime.now() + timedelta(hours=hours)] raises [OverflowError] when
    the stop time is no [datetime]. *)
Definition extra_hot_water_command (now : Z) (hours : Z) (indefinite : bool) : res json :=
  if Z.eqb hours 0 && negb indefinite then Ok (hot_water_shape JNull false true)
  else if indefinite then Ok (hot_water_shape JNull true false)
  else
    res_bind (timedelta (hours_delta hours)) (fun delta =>
    res_bind (datetime_add now delta) (fun stop_time =>
    Ok (hot_water_shape (JStr (strftime_stop_time stop_time)) false false))).

(** [set_extra_hot_water] *)
Definition set_extra_hot_water (device_id : string) (hours : Z) (indefinite : bool) : M json :=
  let* now := read now_naive in
  let* command_payload := lift (extra_hot_water_command now hours indefinite) in
  let wrapped_payload := dict_of [("command", command_payload)] in
  _post_request (command_path device_id) wrapped_payload.

(** ** Scenarios *)

(** A client that holds a token set [tk] with expiry [expiry], on a host
    whose clock reads [clock] (UTC) in a zone [offset] away from UTC, facing
    a network that behaves as [network]. *)
Definition client_with (tk : json) (expiry : option Z) (clock offset : Z)
    (network : nat -> reply * Z) : world :=
  {| email := "user@example.org"; password := "secret"; api_key := "KEY";
     api_endpoint := "https://api.example.org";
     internal_api_endpoint := "https://internal.example.org";
     auth_server := "https://auth.example.org";
     token_server := "https://token.example.org";
     tokens := tk; token_expiry := expiry;
     utc := clock; utc_offset := offset; net := network; trace := [] |}.

(** A token set as the sign-in endpoint returns it. *)
Definition token_set (id_token refresh_token expires_in : string) : json :=
  dict_of [("idToken", JStr id_token); ("refreshToken", JStr refresh_token);
           ("expiresIn", JStr expires_in)].

Definition ok_response (b : body) : response :=
  {| status_code := 200; reason := "OK"; resp_body := b |}.

(** A network that answers the requests with the replies of a list, in
    order, one second apart, and times out afterwards. *)
Definition scripted (start : Z) (replies : list reply) (n : nat) : reply * Z :=
  (nth n replies (TimedOut "timed out"), start + seconds (Z.of_nat n + 1)).

(** A client with a valid token set whose next request is answered by
    [200 OK] with body [b]. *)
Definition fresh_client (b : body) : world :=
  client_with (token_set "ID" "RT" "3600") (Some (seconds 5000)) (seconds 1000) 0
              (scripted (seconds 1000) [Answered (ok_response b)]).

(** A client whose token set ran out at [seconds 900], at clock
    [seconds 1000], facing the given replies. *)
Definition expired_client (replies : list reply) : world :=
  client_with (token_set "ID" "RT" "3600") (Some (seconds 900)) (seconds 1000) 0
              (scripted (seconds 1000) replies).

(** A client that has not signed in yet. *)
Definition new_client (replies : list reply) : world :=
  client_with JNull None (seconds 1000) 0 (scripted (seconds 1000) replies).

(** The sign-in endpoint's answer. *)
Definition sign_in_answer : reply :=
  Answered (ok_response (JsonBody (token_set "ID2" "RT2" "3600"))).

(** An exception object whose [response] is truthy and has status 401, as a
    test double for the HTTP library provides it. *)
Definition rejected_refresh : reply := Failed "401 Unauthorized" (Some (true, 401)).

(** The requests to the device API among the requests sent. *)
Definition api_requests (tr : list event) : list event :=
  List.filter (fun ev => negb (is_token_traffic ev)) tr.

(** The two base URLs of the device API. *)
Definition endpoints (w : world) : string * string :=
  (api_endpoint w, internal_api_endpoint w).

(** The client right after a successful [authenticate], and right after a
    first [_ensure_tokens_valid], on a network that answers the sign-in. *)
Definition signed_in_client : world := (authenticate (new_client [sign_in_answer])).2.

Definition validated_client : world :=
  (_ensure_tokens_valid (new_client [sign_in_answer])).2.

(** [sends m w evs]: run from [w], the computation [m] leaves the base URLs
    alone and adds the requests [evs] to the requests to the device API
    (whatever token traffic comes along). *)
Definition sends {A : Type} (m : M A) (w : world) (evs : list event) : Prop :=
  endpoints (m w).2 = endpoints w
  /\ api_requests (trace (m w).2) = (api_requests (trace w) ++ evs)%list.

(** A client with a valid token set facing the given replies. *)
Definition client_facing (replies : list reply) : world :=
  client_with (token_set "ID" "RT" "3600") (Some (seconds 5000)) (seconds 1000) 0
              (scripted (seconds 1000) replies).

Definition access_level (write_level : Z) : json :=
  dict_of [("readAccessLevel", JNum 10); ("writeAccessLevel", JNum write_level);
           ("expiresAt", JNull)].

Definition answer (j : json) : reply := Answered (ok_response (JsonBody j)).
Definition empty_answer : reply := Answered (ok_response EmptyBody).

(** The replies of a handshake that goes through: level 10, a code, the
    claim, the approval, level 20. *)
Definition handshake_replies : list reply :=
  [answer (access_level 10); answer (dict_of [("accessCode", JStr "c0de")]);
   empty_answer; empty_answer; answer (access_level 20)].

(** [POST] requests to a given URL among the requests sent. *)
Definition is_post_to (url : string) (ev : event) : bool :=
  match ev with ApiPost u _ => String.eqb u url | _ => false end.

Definition posts_to (url : string) (tr : list event) : nat :=
  List.length (List.filter (is_post_to url) tr).

(** [quiet url m w]: run from [w], the computation [m] leaves the base URLs
    alone and sends no [POST] to [url]. *)
Definition quiet {A : Type} (url : string) (m : M A) (w : world) : Prop :=
  endpoints (m w).2 = endpoints w
  /\ posts_to url (trace (m w).2) = posts_to url (trace w).

(** The command response that denies a setting. *)
Definition denial (setting : string) : json :=
  dict_of [("response", dict_of [(setting, JStr "permission denied")])].

(** Two networks for a denied setting: the client is found elevated and the
    retried command is denied again; the elevation fails at its first
    step. *)
Definition denied_twice_replies : list reply :=
  [answer (denial "dhw_mode"); answer (access_level 20); answer (denial "dhw_mode")].

Definition denied_no_elevation_replies : list reply :=
  [answer (denial "dhw_mode"); answer (access_level 10); TimedOut "read timed out"].

Definition example_command_url : string :=
  "https://api.example.org/api/commands/v1/devices/dev/commands?wait=true&use_internal_names=true".

(** A host one hour east of UTC at 2024-01-01T12:00:00Z, with valid tokens,
    whose command is answered. *)
Definition stockholm_noon : world :=
  client_with (token_set "ID" "RT" "3600") (Some (seconds 1704200000))
              (seconds 1704110400) (hours_delta 1)
              (scripted (seconds 1704110400) [empty_answer]).

(** ** The coordinator ([QvantumDataUpdateCoordinator]) *)

(** The two lists of metric names of [const.py]. *)
Inductive metric_list : Type := METRIC_NAMES | FAST_POLLING_METRICS.

(** The methods of [self.api] that [_update_data] calls, for the device of
    the coordinator. *)
Inductive api_call : Type :=
  | GetAccessLevel
  | ElevateAccess
  | GetStatus
  | GetSettings
  | GetInternalMetrics (names : metric_list)
  | GetSettingsInventory
  | GetMetricsInventory
  | GetAlarms
  | GetAlarmsInventory.

(** A coordinator and its surroundings.  The three inventories are [JNull]
    for [None].  [data] is the dict that [_update_data] fills.  The [n]-th
    call of a method of [self.api] ends as [api n] says -- it returns a JSON
    value or raises -- and [api n] also tells what the clock (UTC) reads
    then.  [zone] is the offset of the host's time zone. *)
Record coordinator : Type := {
  is_fast_coordinator : bool;
  auto_elevate_enabled : bool;
  _settings_inventory : json;
  _metrics_inventory : json;
  _alarms_inventory : json;
  data : gmap string json;
  clock : Z;
  zone : Z;
  api : nat -> res json * Z;
  calls : list api_call;
}.

Definition C (A : Type) : Type := St coordinator A.

Definition set_data (d : gmap string json) (p : coordinator) : coordinator :=
  {| is_fast_coordinator := is_fast_coordinator p;
     auto_elevate_enabled := auto_elevate_enabled p;
     _settings_inventory := _settings_inventory p;
     _metrics_inventory := _metrics_inventory p;
     _alarms_inventory := _alarms_inventory p;
     data := d; clock := clock p; zone := zone p; api := api p; calls := calls p |}.

Definition set_settings_inventory (j : json) (p : coordinator) : coordinator :=
  {| is_fast_coordinator := is_fast_coordinator p;
     auto_elevate_enabled := auto_elevate_enabled p;
     _settings_inventory := j;
     _metrics_inventory := _metrics_inventory p;
     _alarms_inventory := _alarms_inventory p;
     data := data p; clock := clock p; zone := zone p; api := api p; calls := calls p |}.

Definition set_metrics_inventory (j : json) (p : coordinator) : coordinator :=
  {| is_fast_coordinator := is_fast_coordinator p;
     auto_elevate_enabled := auto_elevate_enabled p;
     _settings_inventory := _settings_inventory p;
     _metrics_inventory := j;
     _alarms_inventory := _alarms_inventory p;
     data := data p; clock := clock p; zone := zone p; api := api p; calls := calls p |}.

Definition set_alarms_inventory (j : json) (p : coordinator) : coordinator :=
  {| is_fast_coordinator := is_fast_coordinator p;
     auto_elevate_enabled := auto_elevate_enabled p;
     _settings_inventory := _settings_inventory p;
     _metrics_inventory := _metrics_inventory p;
     _alarms_inventory := j;
     data := data p; clock := clock p; zone := zone p; api := api p; calls := calls p |}.

(** One call of a method of [self.api]. *)
Definition call (c : api_call) : C json :=
  fun p =>
    let '(r, t) := api p (length (calls p)) in
    (r,
     {| is_fast_coordinator := is_fast_coordinator p;
        auto_elevate_enabled := auto_elevate_enabled p;
        _settings_inventory := _settings_inventory p;
        _metrics_inventory := _metrics_inventory p;
        _alarms_inventory := _alarms_inventory p;
        data := data p; clock := t; zone := zone p; api := api p;
        calls := calls p ++ [c] |}).

(** [data[key] = value] *)
Definition store (key : string) (value : json) : C unit :=
  modify (fun p => set_data (<[key := value]> (data p)) p).

(** [except QvantumApiError: h] *)
Definition except_api_error {A} (h : C A) (e : exn) : option (C A) :=
  if is_api_error e then Some h else None.

(** *** Values that are only logged

    The arguments of a logging call are evaluated whatever the log level;
    they matter here where their evaluation can raise. *)

(** What [for item in x] visits, for the values [len(x)] accepts. *)
Definition py_elements (x : json) : res (list json) :=
  match x with
  | JArr l => Ok l
  | JStr s => Ok (map (fun c => JStr (String c "")) (list_ascii_of_string s))
  | JObj o => Ok (map (fun kv => JStr kv.1) (map_to_list o))
  | _ => Raise TypeError
  end.

Fixpoint for_each {A} (f : A -> res unit) (l : list A) : res unit :=
  match l with
  | [] => Ok tt
  | x :: r => res_bind (f x) (fun _ => for_each f r)
  end.

(** [item.get(...)] for the fields logged: any field will do, since [get]
    raises on the receiver alone. *)
Definition log_fields (item : json) : res unit :=
  res_bind (py_get item "name" JNull) (fun _ => Ok tt).

(** [x[:100]] (a dict raises [KeyError] instead from Python 3.12 on). *)
Definition py_slice (x : json) : res unit :=
  match x with
  | JStr _ | JArr _ => Ok tt
  | _ => Raise TypeError
  end.

(** [x and key in x] as a condition. *)
Definition has_member (key : string) (x : json) : res bool :=
  if truthy x then py_in key x else Ok false.

(** The logging of the settings response: the count, then one line per
    setting. *)
Definition log_settings (settings : json) : res unit :=
  res_bind (has_member "settings" settings) (fun listed =>
  if listed then
    res_bind (py_item settings "settings") (fun items =>
    res_bind (py_elements items) (fun l => for_each log_fields l))
  else Ok tt).

(** The same for the settings inventory, whose lines also print
    [setting.get("description", "")[:100]]. *)
Definition log_inventory_setting (item : json) : res unit :=
  res_bind (py_get item "description" (JStr "")) py_slice.

Definition log_settings_inventory (inventory : json) : res unit :=
  res_bind (has_member "settings" inventory) (fun listed =>
  if listed then
    res_bind (py_item inventory "settings") (fun items =>
    res_bind (py_elements items) (fun l => for_each log_inventory_setting l))
  else Ok tt).

(** The metrics inventory: one line per metric. *)
Definition log_metrics_inventory (inventory : json) : res unit :=
  res_bind (has_member "metrics" inventory) (fun listed =>
  if listed then
    res_bind (py_item inventory "metrics") (fun items =>
    res_bind (py_elements items) (fun l => for_each log_fields l))
  else Ok tt).

(** *** Dates *)

(** A [datetime]: its wall-clock reading in microseconds since
    1970-01-01T00:00:00, and the UTC offset of its [tzinfo] when it has
    one. *)
Record pydatetime : Type := {
  wall : Z;
  tzinfo : option Z;
}.

(** [s.replace("Z", "+00:00")] *)
Fixpoint replace_Z (s : string) : string :=
  match s with
  | EmptyString => EmptyString
  | String c r => if Ascii.eqb c "Z" then "+00:00" ++ replace_Z r else String c (replace_Z r)
  end.

(** [datetime.now(tz)] *)
Definition datetime_now (tz : option Z) (p : coordinator) : pydatetime :=
  match tz with
  | None => {| wall := clock p + zone p; tzinfo := None |}
  | Some offset => {| wall := clock p + offset; tzinfo := Some offset |}
  end.

(** *** The steps of [_update_data] *)

(** The test on the message of a failed metrics fetch. *)
Definition is_transient (error_msg : string) : bool :=
  contains "Server error" error_msg
  || contains "502" error_msg
  || contains "503" error_msg
  || contains "500" error_msg.

(** [metrics["values"] if isinstance(metrics, dict) and "values" in metrics else metrics] *)
Definition metric_values (metrics : json) : json :=
  match metrics with
  | JObj o => default metrics (o !! "values")
  | _ => metrics
  end.

(** The metrics fetch with its handler, the same in both coordinators but
    for the list of names. *)
Definition fetch_internal_metrics (names : metric_list) : C unit :=
  try_except
    (let* metrics := call (GetInternalMetrics names) in
     store "internal_metrics" (metric_values metrics))
    (fun err =>
       if is_api_error err then
         Some (if is_transient (exn_message err)
               then raise (UpdateFailed ("Transient server error: " ++ exn_message err))
               else ret tt)
       else None).

(** The elevation before the fetches, when auto-elevate is on. *)
Definition elevate_beforehand : C unit :=
  let* enabled := read auto_elevate_enabled in
  if enabled then
    try_except
      (let* current_access := call GetAccessLevel in
       let* level := lift (py_get current_access "writeAccessLevel" (JNum 0)) in
       let* low := lift (py_lt level 20) in
       if low then call ElevateAccess;; ret tt else ret tt)
      (except_api_error (ret tt))
  else ret tt.

Definition fetch_status : C unit :=
  try_except (let* status := call GetStatus in store "status" status)
             (except_api_error (ret tt)).

Definition fetch_settings : C unit :=
  try_except
    (let* settings := call GetSettings in
     store "settings" settings;;
     lift (log_settings settings))
    (except_api_error (ret tt)).

(** An inventory: fetched when the cache is [None], cached, logged; the
    cache, whatever it is then, goes into [data]. *)
Definition fetch_inventory (key : string) (c : api_call)
    (cache : coordinator -> json) (set_cache : json -> coordinator -> coordinator)
    (log : json -> res unit) : C unit :=
  let* cached := read cache in
  match cached with
  | JNull =>
      try_except
        (let* inventory := call c in
         modify (set_cache inventory);;
         lift (log inventory))
        (except_api_error (modify (set_cache JNull)))
  | _ => ret tt
  end;;
  let* inventory := read cache in
  store key inventory.

Definition fetch_alarms : C unit :=
  try_except (let* alarms := call GetAlarms in store "alarms" alarms)
             (except_api_error (store "alarms" (dict_of [("alarms", JArr [])]))).

(** The access level put into [data] when the fetch fails. *)
Definition default_access_level : json :=
  dict_of [("writeAccessLevel", JNum 10); ("readAccessLevel", JNum 10);
           ("expiresAt", JNull)].

Section AccessLevelStep.

(** [datetime.fromisoformat]; [None] is [ValueError]. *)
Variable fromisoformat : string -> option pydatetime.

(** [(expires_at - now).total_seconds()], in microseconds, as the renewal
    computes it from the text of [expiresAt]. *)
Definition time_until_expiry (expires : json) : C Z :=
  match expires with
  | JStr s =>
      match fromisoformat (replace_Z s) with
      | Some expires_at =>
          let* now := read (datetime_now (tzinfo expires_at)) in
          ret (wall expires_at - wall now)
      | None => raise ValueError
      end
  | _ => raise AttributeError
  end.

(** The innermost [try]: the elevation, and its result put into [data]
    when it is truthy. *)
Definition re_elevate : C unit :=
  try_except
    (let* new_access := call ElevateAccess in
     if truthy new_access then
       store "access_level" new_access;;
       let* _ := lift (py_get new_access "expiresAt" JNull) in
       ret tt
     else ret tt)
    (except_api_error (ret tt)).

(** The renewal: the [try] with [except (ValueError, AttributeError)]. *)
Definition renew_if_expiring (access_level : json) : C unit :=
  try_except
    (let* expires := lift (py_item access_level "expiresAt") in
     let* remaining := time_until_expiry expires in
     let* level := lift (py_get access_level "writeAccessLevel" (JNum 0)) in
     let* elevated := lift (py_ge level 20) in
     if elevated && Z.ltb 0 remaining && Z.ltb remaining (seconds 300)
     then re_elevate
     else ret tt)
    (fun e => match e with
              | ValueError | AttributeError => Some (ret tt)
              | _ => None
              end).

(** [if access_level.get("expiresAt") and self.auto_elevate_enabled:] the
    renewal. *)
Definition maybe_renew (access_level : json) : C unit :=
  let* expires := lift (py_get access_level "expiresAt" JNull) in
  let* enabled := read auto_elevate_enabled in
  if truthy expires && enabled then renew_if_expiring access_level
  else ret tt.

(** The last step: the access level, and the renewal when auto-elevate is
    on and [expiresAt] is set. *)
Definition fetch_access_level : C unit :=
  try_except
    (let* access_level := call GetAccessLevel in
     store "access_level" access_level;;
     maybe_renew access_level)
    (except_api_error (store "access_level" default_access_level)).

(** The part of a normal cycle that comes after the metrics. *)
Definition after_metrics : C (gmap string json) :=
  fetch_inventory "settings_inventory" GetSettingsInventory
    _settings_inventory set_settings_inventory log_settings_inventory;;
  fetch_inventory "metrics_inventory" GetMetricsInventory
    _metrics_inventory set_metrics_inventory log_metrics_inventory;;
  fetch_alarms;;
  fetch_inventory "alarms_inventory" GetAlarmsInventory
    _alarms_inventory set_alarms_inventory (fun _ => Ok tt);;
  fetch_access_level;;
  read data.

(** The part that comes before. *)
Definition before_metrics : C unit :=
  elevate_beforehand;;
  fetch_status;;
  fetch_settings.

(** [_update_data] *)
Definition _update_data : C (gmap string json) :=
  modify (set_data ∅);;
  let* fast := read is_fast_coordinator in
  if fast then
    fetch_internal_metrics FAST_POLLING_METRICS;;
    read data
  else
    before_metrics;;
    fetch_internal_metrics METRIC_NAMES;;
    after_metrics.

End AccessLevelStep.

(** [mentions needle msg]: [needle] occurs in [msg]. *)
Definition mentions (needle msg : string) : Prop :=
  exists before after : string, msg = before ++ needle ++ after.

(** The messages the coordinator takes for a transient server condition. *)
Definition transient_message (msg : string) : Prop :=
  mentions "Server error" msg \/ mentions "500" msg
  \/ mentions "502" msg \/ mentions "503" msg.

(** [preserves m]: the computation [m] removes no key from [data] and
    leaves [data["internal_metrics"]] as it is. *)
Definition preserves {A : Type} (m : C A) : Prop :=
  forall p : coordinator,
    (forall k, is_Some (data p !! k) -> is_Some (data (m p).2 !! k))
    /\ data (m p).2 !! "internal_metrics" = data p !! "internal_metrics".

(** *** Coordinator scenarios *)

(** An API whose calls end as the list says, in order, one second apart;
    calls beyond the list raise a generic API error. *)
Definition scripted_api (start : Z) (outcomes : list (res json)) (n : nat) : res json * Z :=
  (nth n outcomes (Raise (QvantumApiError "API error: 404 Client Error: Not Found")),
   start + seconds (Z.of_nat n + 1)).

(** A coordinator at the start of its life, at 2024-01-01T12:00:00Z on a
    host in UTC. *)
Definition new_coordinator (fast auto_elevate : bool) (outcomes : list (res json))
  : coordinator :=
  {| is_fast_coordinator := fast;
     auto_elevate_enabled := auto_elevate;
     _settings_inventory := JNull;
     _metrics_inventory := JNull;
     _alarms_inventory := JNull;
     data := ∅;
     clock := seconds 1704110400;
     zone := 0;
     api := scripted_api (seconds 1704110400) outcomes;
     calls := [] |}.

Definition server_error_503 : res json := Raise (ApiConnectionError "Server error 503").
Definition not_found : res json := Raise (QvantumApiError "API error: not found").

(** A parser that reads two timestamps, 12:04:00 and 11:00:00 UTC on
    2024-01-01, and rejects every other text. *)
Definition two_timestamps (s : string) : option pydatetime :=
  if String.eqb s "2024-01-01T12:04:00+00:00"
  then Some {| wall := seconds (1704110400 + 240); tzinfo := Some 0 |}
  else if String.eqb s "2024-01-01T11:00:00+00:00"
  then Some {| wall := seconds (1704110400 - 3600); tzinfo := Some 0 |}
  else None.

(** A normal cycle whose status and settings are answered and whose metrics
    fetch is not: every later call raises the generic API error. *)
Definition metrics_not_found : list (res json) :=
  [Ok (dict_of [("connectivity", JStr "online")]);
   Ok (dict_of [("settings", JArr [dict_of [("name", JStr "dhw_mode"); ("value", JNum 1)]])]);
   not_found].

(** The snapshot of a normal cycle all of whose fetches raise an API
    error. *)
Definition all_failed_snapshot : gmap string json :=
  <["access_level" := default_access_level]>
    (<["alarms_inventory" := JNull]>
       (<["alarms" := dict_of [("alarms", JArr [])]]>
          (<["metrics_inventory" := JNull]>
             (<["settings_inventory" := JNull]> ∅)))).

(** The normal cycle up to its last step, the access level. *)
Definition before_access_level : C unit :=
  before_metrics;;
  fetch_internal_metrics METRIC_NAMES;;
  fetch_inventory "settings_inventory" GetSettingsInventory
    _settings_inventory set_settings_inventory log_settings_inventory;;
  fetch_inventory "metrics_inventory" GetMetricsInventory
    _metrics_inventory set_metrics_inventory log_metrics_inventory;;
  fetch_alarms;;
  fetch_inventory "alarms_inventory" GetAlarmsInventory
    _alarms_inventory set_alarms_inventory (fun _ => Ok tt).

Section Expiry.

Variable fromisoformat : string -> option pydatetime.

(** An access level [access_level], seen by the coordinator in state [q],
    whose [expiresAt] is the text of the date [expires_at] and whose
    [writeAccessLevel] is the number [level]. *)
Definition access_level_reads (access_level : json) (expires_at : pydatetime) (level : Z)
  : Prop :=
  exists (s : string) (lv : json),
    py_get access_level "expiresAt" JNull = Ok (JStr s)
    /\ s <> EmptyString
    /\ fromisoformat (replace_Z s) = Some expires_at
    /\ py_get access_level "writeAccessLevel" (JNum 0) = Ok lv
    /\ py_num lv = Ok level.

(** The time until [expires_at], in microseconds, by the clock of [q]. *)
Definition remaining (expires_at : pydatetime) (q : coordinator) : Z :=
  wall expires_at - wall (datetime_now (tzinfo expires_at) q).

(** The renewal is due: a grant at level 20 or more that runs out in less
    than 300 seconds and has not run out yet. *)
Definition renewal_due (access_level : json) (q : coordinator) : Prop :=
  exists (expires_at : pydatetime) (level : Z),
    access_level_reads access_level expires_at level
    /\ 20 <= level
    /\ 0 < remaining expires_at q < seconds 300.

End Expiry.

(** An elevated access level that expires at the given time. *)
Definition elevated_until (expires_at : string) : json :=
  dict_of [("readAccessLevel", JNum 20); ("writeAccessLevel", JNum 20);
           ("expiresAt", JStr expires_at)].

(** A normal cycle with auto-elevate on: the level is found elevated at the
    start, every fetch in between raises an API error, and the last step
    fetches [access_level]. *)
Definition cycle_ending_with (access_level : json) : list (res json) :=
  [Ok access_level; not_found; not_found; not_found; not_found; not_found;
   not_found; not_found; Ok access_level].

(** The coordinator about to fetch an access level that runs out in four
    minutes; the elevation that follows returns level 20. *)
Definition about_to_expire : coordinator :=
  new_coordinator false true
    [Ok (elevated_until "2024-01-01T12:04:00Z"); Ok (access_level 20)].

(** A normal cycle that ends by fetching an access level that ran out an
    hour ago. *)
Definition expired_cycle : coordinator :=
  new_coordinator false true (cycle_ending_with (elevated_until "2024-01-01T11:00:00Z")).

(** The token endpoint rejects the refresh token with HTTP 401. *)
Definition unauthorized : reply :=
  Answered {| status_code := 401; reason := "Unauthorized"; resp_body := EmptyBody |}.

(** ** [QvantumApi]: the remaining methods *)

(** [len(x)] *)
Definition py_len (x : json) : res Z :=
  match x with
  | JArr l => Ok (Z.of_nat (length l))
  | JStr s => Ok (Z.of_nat (text_length s))
  | JObj o => Ok (Z.of_nat (size o))
  | _ => Raise TypeError
  end.

Definition devices_path : string := "api/inventory/v1/users/me/devices".

(** [get_devices]; the number of devices is computed for the log line. *)
Definition get_devices : M json :=
  let* response := _get_request devices_path in
  let* devices := lift (py_get response "devices" (JArr [])) in
  let* _ := lift (py_len devices) in
  ret devices.

(** ["&".join([f"names={name}" for name in metric_names])] *)
Definition names_query (metric_names : list string) : string :=
  String.concat "&" (map (fun name => "names=" ++ name) metric_names).

Definition internal_metrics_path (device_id : string) (metric_names : list string) : string :=
  "api/internal/v1/devices/" ++ device_id
  ++ "/values?use_internal_names=true&timeout=12&" ++ names_query metric_names.

(** [get_internal_metrics] *)
Definition get_internal_metrics (device_id : string) (metric_names : list string) : M json :=
  _get_internal_request (internal_metrics_path device_id metric_names).

(** [x.items()]; only a dict has [items]. *)
Definition py_items (x : json) : res (list (string * json)) :=
  match x with
  | JObj o => Ok (map_to_list o)
  | _ => Raise AttributeError
  end.

(** The [settings] of [set_smartcontrol]. *)
Definition smartcontrol_settings (sh dhw : Z) : json :=
  let use_adaptive := negb (Z.eqb sh (-1)) && negb (Z.eqb dhw (-1)) in
  if negb use_adaptive then dict_of [("use_adaptive", JBool false)]
  else dict_of [("use_adaptive", JBool true);
                ("smart_sh_mode", JNum sh);
                ("smart_dhw_mode", JNum dhw)].

Definition smartcontrol_payload (sh dhw : Z) : json :=
  dict_of [("command", dict_of [("update_settings", smartcontrol_settings sh dhw)])].

(** The loop over [response["response"].items()] that sets
    [has_permission_denied]. *)
Definition has_permission_denied (entries : list (string * json)) : bool :=
  fold_left (fun denied entry =>
               if eq_str entry.2 "permission denied" then true else denied)
            entries false.

(** [set_smartcontrol] *)
Definition set_smartcontrol (device_id : string) (sh dhw : Z) : M json :=
  let payload := smartcontrol_payload sh dhw in
  let path := command_path device_id in
  let* response := _post_request path payload in
  let* inspect := lift (has_response_member response) in
  if inspect then
    let* per_setting := lift (py_item response "response") in
    let* entries := lift (py_items per_setting) in
    if has_permission_denied entries then
      let* elevated := elevate_access device_id in
      if truthy elevated then _post_request path payload
      else ret response
    else ret response
  else ret response.

(** ** Start-up: sign-in and device discovery

    The beginning of [async_setup_entry] in [__init__.py], up to the test on
    the list of devices. *)

(** How that part ends when no exception escapes it: it raises
    [ConfigEntryNotReady], it returns [False] for want of devices, or it
    goes on with the devices found. *)
Inductive discovery : Type :=
  | NotReady
  | NoDevices
  | Discovered (devices : json).

Definition discover_devices : M discovery :=
  let* signed_in :=
    try_except (authenticate;; ret true)
      (fun err => if is_authentication_error err then Some (ret false) else None) in
  if negb signed_in then ret NotReady
  else
    let* found :=
      try_except (let* devices := get_devices in ret (Some devices))
        (fun err => if is_api_error err then Some (ret None) else None) in
    match found with
    | None => ret NotReady
    | Some devices => if truthy devices then ret (Discovered devices) else ret NoDevices
    end.

(** *** More scenarios for the client *)

(** A token set as a sign-in returns it, with the account's id besides. *)
Definition token_set_of_account (local_id : string) : json :=
  dict_of [("idToken", JStr "ID"); ("refreshToken", JStr "RT");
           ("expiresIn", JStr "3600"); ("localId", JStr local_id)].

(** A client whose tokens ran out, facing the given replies. *)
Definition stale_account (replies : list reply) : world :=
  client_with (token_set_of_account "user-1") (Some (seconds 900)) (seconds 1000) 0
              (scripted (seconds 1000) replies).

Definition refresh_answer : reply :=
  answer (dict_of [("id_token", JStr "ID2"); ("refresh_token", JStr "RT2");
                   ("expires_in", JStr "3600")]).

(** A refresh answer that carries the new id token only. *)
Definition refresh_answer_without_lifetime : reply :=
  answer (dict_of [("id_token", JStr "ID2")]).

Definition error_response (status : Z) (why : string) : response :=
  {| status_code := status; reason := why; resp_body := EmptyBody |}.

(** The command response that denies one setting and accepts another. *)
Definition mixed_response : json :=
  dict_of [("response", dict_of [("use_adaptive", JStr "ok");
                                 ("smart_dhw_mode", JStr "permission denied")])].

Definition accepted_response (setting : string) : json :=
  dict_of [("response", dict_of [(setting, JStr "ok")])].

(** ** The coordinator: calls and keys of a cycle *)

(** [x is None] *)
Definition is_none (j : json) : bool :=
  match j with JNull => true | _ => false end.

(** [confined I P m]: run from a state in which [I] holds, the computation
    [m] ends in a state in which [I] holds, and every call it makes of a
    method of [self.api] satisfies [P]. *)
Definition confined {A : Type} (I : coordinator -> Prop) (P : api_call -> Prop)
    (m : C A) : Prop :=
  forall p : coordinator,
    I p ->
    I (m p).2 /\ exists l : list api_call, calls (m p).2 = (calls p ++ l)%list /\ Forall P l.

(** [untouched key m]: the computation [m] leaves [data[key]] as it is,
    present or absent. *)
Definition untouched {A : Type} (key : string) (m : C A) : Prop :=
  forall p : coordinator, data (m p).2 !! key = data p !! key.

(** The calls of a normal cycle that runs to its end without elevation:
    an inventory is fetched when its cache is [None]. *)
Definition normal_cycle_calls (p : coordinator) : list api_call :=
  ([GetStatus; GetSettings; GetInternalMetrics METRIC_NAMES]
   ++ (if is_none (_settings_inventory p) then [GetSettingsInventory] else [])
   ++ (if is_none (_metrics_inventory p) then [GetMetricsInventory] else [])
   ++ [GetAlarms]
   ++ (if is_none (_alarms_inventory p) then [GetAlarmsInventory] else [])
   ++ [GetAccessLevel])%list.

(** ** [QvantumEntity.available] ([entity.py]) *)

(** The property [available] of an entity, for a coordinator whose
    [last_update_success] and [data] are as given ([data] is [None] before
    the first update).  The value returned is what [connectivity.get]
    returns, [True] or [False]. *)
Definition available (last_update_success : bool)
    (coordinator_data : option (gmap string json)) : res json :=
  if negb last_update_success then Ok (JBool false)
  else
    match coordinator_data with
    | None => Ok (JBool true)
    | Some d =>
        if truthy (JObj d) then
          match d !! "status" with
          | None => Ok (JBool true)
          | Some status =>
              res_bind (py_in "connectivity" status) (fun listed =>
              if listed then
                res_bind (py_item status "connectivity") (fun connectivity =>
                py_get connectivity "connected" (JBool false))
              else Ok (JBool true))
          end
        else Ok (JBool true)
    end.

(** ** The stored auto-elevate flag *)

(** The attribute [auto_elevate_enabled] of a coordinator and the content
    of the [Store] it shares with the other coordinators of the config
    entry: what [async_load] returns, [None] when nothing was saved. *)
Record flag_store : Type := {
  flag : json;
  saved : json;
}.

(** [async_load_auto_elevate_state] of the coordinator of [device_id]. *)
Definition async_load_auto_elevate_state (device_id : string) : St flag_store unit :=
  let* loaded := read saved in
  let* listed := lift (if truthy loaded then py_in device_id loaded else Ok false) in
  if listed then
    let* value := lift (py_item loaded device_id) in
    modify (fun s => {| flag := value; saved := saved s |})
  else modify (fun s => {| flag := JBool false; saved := saved s |}).

(** [data[key] = value] on what was loaded. *)
Definition py_setitem (x : json) (key : string) (value : json) : res json :=
  match x with
  | JObj o => Ok (JObj (<[key := value]> o))
  | _ => Raise TypeError
  end.

(** [async_set_auto_elevate] *)
Definition async_set_auto_elevate (device_id : string) (enabled : bool)
  : St flag_store unit :=
  modify (fun s => {| flag := JBool enabled; saved := saved s |});;
  let* loaded := read saved in
  let current := if truthy loaded then loaded else empty_dict in
  let* updated := lift (py_setitem current device_id (JBool enabled)) in
  modify (fun s => {| flag := flag s; saved := updated |}).

(** *** More coordinator scenarios *)

(** A coordinator that has the three inventories cached. *)
Definition with_inventories (settings metrics alarms : json) (p : coordinator)
  : coordinator :=
  set_alarms_inventory alarms (set_metrics_inventory metrics (set_settings_inventory settings p)).

Definition some_inventory (key : string) : json := dict_of [(key, JArr [])].

Definition cached_coordinator (auto_elevate : bool) (outcomes : list (res json))
  : coordinator :=
  with_inventories (some_inventory "settings") (some_inventory "metrics")
    (some_inventory "alarms") (new_coordinator false auto_elevate outcomes).

(** A status that reports the device as not connected. *)
Definition offline_status : json :=
  dict_of [("connectivity", dict_of [("connected", JBool false)])].

(** A settings inventory whose [settings] member is not a list. *)
Definition odd_inventory : json := dict_of [("settings", JNum 3)].

(** * Properties *)

(** ** Concatenation of texts *)

Lemma string_app_cons c (a b : string) :
  (String c a ++ b)%string = String c (a ++ b)%string.
Proof. reflexivity. Qed.

Lemma string_app_nil (b : string) : ("" ++ b)%string = b.
Proof. reflexivity. Qed.

Lemma string_app_assoc (a b c : string) :
  ((a ++ b) ++ c)%string = (a ++ (b ++ c))%string.
Proof.
  induction a as [|x a IH]; [done|].
  by rewrite !string_app_cons, IH.
Qed.

(** ** Value coercion in [set_setting] *)

Section Coercion.

(** Characters a text can hold once [lstrip("-").isdigit()] accepted it. *)
Definition guard_char (cp : N) : bool := (cp =? 45)%N || is_digit cp.

Lemma decimal_char_is_digit cp : is_decimal cp = true -> is_digit cp = true.
Proof. intros H. unfold is_digit. by rewrite H. Qed.

Lemma decimal_char_guard cp : is_decimal cp = true -> guard_char cp = true.
Proof.
  intros H. unfold guard_char. rewrite (decimal_char_is_digit cp H). apply orb_true_r.
Qed.

Lemma decimal_digit_value cp :
  is_decimal cp = true -> decimal_digit cp = Some (digit_value cp).
Proof. unfold is_decimal, digit_value. by destruct (decimal_digit cp). Qed.

Lemma decimal_char_not_sign cp :
  is_decimal cp = true -> (cp =? 45)%N = false /\ (cp =? 43)%N = false.
Proof.
  intros H. split; apply N.eqb_neq; intros ->; vm_compute in H; discriminate.
Qed.

Lemma guard_char_not_plus cp : guard_char cp = true -> (cp =? 43)%N = false.
Proof. intros H. apply N.eqb_neq. intros ->. vm_compute in H. discriminate. Qed.

Lemma space_char_not_guard cp : is_space cp = true -> guard_char cp = false.
Proof.
  unfold is_space. intros (c & Hin & ->%N.eqb_eq)%existsb_exists.
  unfold int_spaces in Hin.
  repeat (destruct Hin as [<- | Hin]; [vm_compute; reflexivity|]).
  destruct Hin.
Qed.

Lemma guard_char_not_space cp : guard_char cp = true -> is_space cp = false.
Proof.
  intros H. destruct (is_space cp) eqn:E; [|done].
  by rewrite (space_char_not_guard cp E) in H.
Qed.

Lemma guard_decimal_or_underscore cp :
  guard_char cp = true ->
  (is_decimal cp || (cp =? 95)%N) = true ->
  is_decimal cp = true.
Proof.
  intros Hg [H | H%N.eqb_eq]%orb_true_iff; [exact H|].
  subst. vm_compute in Hg. discriminate.
Qed.

(** *** Reading the code points *)

Lemma code_points_ascii a r :
  (N_of_ascii a <? 128)%N = true ->
  code_points (String a r) = cons (N_of_ascii a) <$> code_points r.
Proof. intros H. cbn [code_points]. by rewrite H. Qed.

Lemma code_points_minus r :
  code_points (String "-" r) = cons 45%N <$> code_points r.
Proof. by rewrite code_points_ascii. Qed.

Lemma in_range_inv lo hi cp rest c t :
  in_range lo hi cp rest = Some (c :: t) -> (lo <= c)%N /\ rest = Some t.
Proof.
  unfold in_range. destruct ((lo <=? cp) && (cp <? hi))%N eqn:E; [|discriminate].
  apply andb_true_iff in E as [E%N.leb_le _].
  destruct rest as [l|]; simpl; [|discriminate]. intros [= <- <-]. done.
Qed.

(** A character of ASCII at the head of a text is the first byte of its
    encoding. *)
Lemma code_points_head_ascii a r c t :
  code_points (String a r) = Some (c :: t) ->
  (c < 128)%N ->
  N_of_ascii a = c /\ code_points r = Some t.
Proof.
  cbn [code_points]. destruct (N_of_ascii a <? 128)%N eqn:Ea.
  - destruct (code_points r) as [l|]; simpl; [|discriminate].
    intros [= <- <-]. done.
  - intros H Hc. exfalso.
    destruct r as [|b r1]; [discriminate|].
    destruct (continuation b); [|discriminate].
    destruct (_ && _) in H.
    { apply in_range_inv in H as [H _]. lia. }
    destruct r1 as [|c1 r2]; [discriminate|].
    destruct (continuation c1); [|discriminate].
    destruct (_ && _) in H.
    { apply in_range_inv in H as [H _]. lia. }
    destruct r2 as [|d r3]; [discriminate|].
    destruct (continuation d); [|discriminate].
    destruct (_ && _) in H; [|discriminate].
    apply in_range_inv in H as [H _]. lia.
Qed.

Lemma code_points_head_minus s t :
  code_points s = Some (45%N :: t) ->
  exists r, s = String "-" r /\ code_points r = Some t.
Proof.
  destruct s as [|a r]; [discriminate|]. intros H.
  destruct (code_points_head_ascii a r _ _ H) as [Ha Hr]; [lia|].
  exists r. split; [|exact Hr]. f_equal.
  rewrite <- (ascii_N_embedding a), Ha. reflexivity.
Qed.

Lemma lstrip_guard s :
  isdigit (lstrip "-" s) = true ->
  exists t, code_points s = Some t /\ t <> [] /\ forallb guard_char t = true.
Proof.
  induction s as [|a r IH]; [discriminate|].
  cbn [lstrip]. destruct (Ascii.eqb a "-") eqn:E.
  - apply Ascii.eqb_eq in E as ->. intros H.
    destruct (IH H) as (t & Ht & _ & Hg).
    exists (45%N :: t). rewrite code_points_minus, Ht. by split; [|split].
  - unfold isdigit. destruct (code_points (String a r)) as [[|c t]|]; try discriminate.
    intros H. exists (c :: t). split; [done|]. split; [done|].
    apply forallb_forall. intros x Hx. unfold guard_char.
    rewrite (proj1 (forallb_forall _ _) H x Hx). apply orb_true_r.
Qed.

(** *** Stripping white space from a text that has none *)

Lemma lstrip_space_none t :
  forallb (fun c => negb (is_space c)) t = true -> lstrip_space t = t.
Proof.
  destruct t as [|c r]; simpl; [done|].
  intros [Hc _]%andb_true_iff. apply negb_true_iff in Hc. by rewrite Hc.
Qed.

Lemma forallb_rev_list (p : N -> bool) t : forallb p (rev t) = forallb p t.
Proof.
  apply eq_true_iff_eq. rewrite !forallb_forall.
  split; intros H x Hx; apply H; [by apply in_rev in Hx | by apply in_rev].
Qed.

Lemma strip_space_none t :
  forallb (fun c => negb (is_space c)) t = true -> strip_space t = t.
Proof.
  intros H. unfold strip_space. rewrite (lstrip_space_none t H).
  rewrite lstrip_space_none by (by rewrite forallb_rev_list).
  apply rev_involutive.
Qed.

Lemma strip_space_guard t : forallb guard_char t = true -> strip_space t = t.
Proof.
  intros H. apply strip_space_none. apply forallb_forall. intros c Hc.
  by rewrite (guard_char_not_space c (proj1 (forallb_forall _ _) H c Hc)).
Qed.

(** *** Reading the digits *)

Lemma parse_digits_decimal t : forall acc b,
  forallb is_decimal t = true ->
  (t <> [] \/ b = true) ->
  parse_digits acc b t = Some (acc * 10 ^ Z.of_nat (length t) + positional t).
Proof.
  induction t as [|c r IH]; intros acc b Hall Hne; simpl.
  - destruct Hne as [Hne | ->]; [done|]. f_equal. lia.
  - simpl in Hall. apply andb_true_iff in Hall as [Hc Hr].
    rewrite (decimal_digit_value c Hc).
    rewrite (IH _ true Hr) by (by right). f_equal.
    rewrite Nat2Z.inj_succ, Z.pow_succ_r by lia. lia.
Qed.

Lemma parse_digits_chars t : forall acc b n,
  parse_digits acc b t = Some n ->
  forallb (fun c => is_decimal c || (c =? 95)%N) t = true
  /\ (b = false -> t <> []).
Proof.
  induction t as [|c r IH]; intros acc b n; simpl.
  - destruct b; [|discriminate]. intros _. split; [done | discriminate].
  - unfold is_decimal at 1. destruct (decimal_digit c) as [d|]; simpl.
    + intros H. destruct (IH _ _ _ H) as [H1 _]. split; [exact H1 | discriminate].
    + destruct (c =? 95)%N; [|discriminate].
      destruct b; [|discriminate].
      intros H. destruct (IH _ _ _ H) as [H1 _]. split; [exact H1 | discriminate].
Qed.

Lemma parse_digits_guard t n :
  forallb guard_char t = true ->
  parse_digits 0 false t = Some n ->
  t <> [] /\ forallb is_decimal t = true.
Proof.
  intros Hg Hp. destruct (parse_digits_chars _ _ _ _ Hp) as [Hc Hne].
  split; [by apply Hne|].
  clear Hp Hne. induction t as [|c r IH]; simpl in *; [done|].
  apply andb_true_iff in Hg as [Hg1 Hg2].
  apply andb_true_iff in Hc as [Hc1 Hc2].
  rewrite (guard_decimal_or_underscore c Hg1 Hc1), (IH Hg2 Hc2). done.
Qed.

Lemma count_digits_decimal t :
  forallb is_decimal t = true -> count_digits t = length t.
Proof.
  unfold count_digits. induction t as [|c r IH]; simpl; [done|].
  intros [Hc Hr]%andb_true_iff. rewrite Hc. simpl. by rewrite (IH Hr).
Qed.

Lemma int_of_text_decimal ds :
  ds <> [] -> forallb is_decimal ds = true ->
  (length ds <= int_max_str_digits)%nat ->
  int_of_text ds = Some (positional ds)
  /\ int_of_text (45%N :: ds) = Some (- positional ds).
Proof.
  intros Hne Hall Hcap.
  assert (forallb guard_char ds = true) as Hg.
  { apply forallb_forall. intros c Hc.
    apply decimal_char_guard, (proj1 (forallb_forall _ _) Hall c Hc). }
  assert ((int_max_str_digits <? count_digits ds)%nat = false) as Hfew.
  { apply Nat.ltb_ge. by rewrite count_digits_decimal. }
  assert (parse_digits 0 false ds = Some (positional ds)) as Hp.
  { rewrite (parse_digits_decimal _ 0 false Hall) by (by left). f_equal. }
  split; unfold int_of_text.
  - rewrite (strip_space_guard ds Hg).
    destruct ds as [|c r]; [done|].
    simpl in Hall. apply andb_true_iff in Hall as [Hc _].
    destruct (decimal_char_not_sign c Hc) as [-> ->]. cbn [orb].
    by rewrite Hfew, Hp.
  - rewrite (strip_space_guard (45%N :: ds)) by (by cbn [forallb]; rewrite Hg).
    cbn [N.eqb Pos.eqb orb tail]. by rewrite Hfew, Hp.
Qed.

Lemma int_of_text_guard t n :
  forallb guard_char t = true ->
  int_of_text t = Some n ->
  exists ds,
    (ds <> [] /\ forallb is_decimal ds = true /\ (length ds <= int_max_str_digits)%nat)
    /\ (t = ds \/ t = 45%N :: ds).
Proof.
  intros Hg. unfold int_of_text. rewrite (strip_space_guard t Hg).
  destruct t as [|c r]; [discriminate|].
  cbn [forallb] in Hg. apply andb_true_iff in Hg as [Hc Hr].
  destruct (c =? 45)%N eqn:Em.
  - apply N.eqb_eq in Em as ->. cbn [orb tail].
    destruct (int_max_str_digits <? count_digits r)%nat eqn:Hcap; [discriminate|].
    destruct (parse_digits 0 false r) as [m|] eqn:Hp; [|discriminate].
    intros _. exists r. split; [|by right].
    destruct (parse_digits_guard r m Hr Hp) as [Hne Hall].
    split; [exact Hne|]. split; [exact Hall|].
    apply Nat.ltb_ge in Hcap. by rewrite count_digits_decimal in Hcap.
  - rewrite (guard_char_not_plus c Hc). cbn [orb].
    destruct (int_max_str_digits <? count_digits (c :: r))%nat eqn:Hcap; [discriminate|].
    destruct (parse_digits 0 false (c :: r)) as [m|] eqn:Hp; [|discriminate].
    intros _. exists (c :: r). split; [|by left].
    assert (forallb guard_char (c :: r) = true) as Hg by (by cbn [forallb]; rewrite Hc, Hr).
    destruct (parse_digits_guard _ m Hg Hp) as [Hne Hall].
    split; [exact Hne|]. split; [exact Hall|].
    apply Nat.ltb_ge in Hcap. by rewrite count_digits_decimal in Hcap.
Qed.

(** A decimal text does not begin with a minus sign. *)
Lemma decimal_text_lstrip ds : decimal_text ds -> lstrip "-" ds = ds.
Proof.
  intros (t & Ht & Hne & Hall & _). destruct ds as [|a r]; [done|].
  cbn [lstrip]. destruct (Ascii.eqb a "-") eqn:E; [|done].
  apply Ascii.eqb_eq in E as ->. rewrite code_points_minus in Ht.
  destruct (code_points r) as [l|]; simpl in Ht; [|discriminate].
  injection Ht as <-. simpl in Hall. discriminate.
Qed.

Lemma decimal_text_isdigit ds : decimal_text ds -> isdigit ds = true.
Proof.
  intros (t & Ht & Hne & Hall & _). unfold isdigit. rewrite Ht.
  destruct t as [|c l]; [done|].
  apply forallb_forall. intros x Hx.
  apply decimal_char_is_digit, (proj1 (forallb_forall _ _) Hall x Hx).
Qed.

End Coercion.

(** ** The encoding read back *)

#[local] Ltac Zify.zify_post_hook ::= Z.to_euclidean_division_equations.

Lemma byte_embedding (n : N) : (n < 256)%N -> N_of_ascii (ascii_of_N n) = n.
Proof. apply N_ascii_embedding. Qed.

Lemma continuation_low (x : N) :
  continuation (ascii_of_N (128 + x mod 64)) = Some (x mod 64)%N.
Proof.
  unfold continuation. rewrite byte_embedding by lia.
  assert ((128 <=? 128 + x mod 64)%N = true) as -> by (apply N.leb_le; lia).
  assert ((128 + x mod 64 <? 192)%N = true) as -> by (apply N.ltb_lt; lia).
  cbn [andb]. f_equal. lia.
Qed.

Lemma code_points_utf8_char (cp : N) (s : string) :
  (cp < 1114112)%N ->
  code_points (utf8_char cp ++ s) = cons cp <$> code_points s.
Proof.
  intros Hcp. unfold utf8_char.
  destruct (cp <? 128)%N eqn:E1.
  { apply N.ltb_lt in E1. rewrite string_app_cons, string_app_nil.
    rewrite code_points_ascii; rewrite byte_embedding by lia; [done|].
    by apply N.ltb_lt. }
  apply N.ltb_ge in E1.
  destruct (cp <? 2048)%N eqn:E2.
  { apply N.ltb_lt in E2. rewrite !string_app_cons, string_app_nil.
    cbn [code_points]. rewrite byte_embedding by lia.
    assert ((192 + cp / 64 <? 128)%N = false) as -> by (apply N.ltb_ge; lia).
    rewrite continuation_low.
    assert (((192 <=? 192 + cp / 64) && (192 + cp / 64 <? 224))%N = true) as ->.
    { apply andb_true_iff. split; [apply N.leb_le | apply N.ltb_lt]; lia. }
    unfold in_range.
    assert (((192 + cp / 64 - 192) * 64 + cp mod 64 = cp)%N) as -> by lia.
    assert (((128 <=? cp) && (cp <? 2048))%N = true) as ->; [|done].
    apply andb_true_iff. split; [apply N.leb_le | apply N.ltb_lt]; lia. }
  apply N.ltb_ge in E2.
  assert ((cp / 4096 = cp / 64 / 64)%N) as D2 by lia.
  destruct (cp <? 65536)%N eqn:E3.
  { apply N.ltb_lt in E3. rewrite !string_app_cons, string_app_nil.
    cbn [code_points]. rewrite D2, byte_embedding by lia.
    assert ((224 + cp / 64 / 64 <? 128)%N = false) as -> by (apply N.ltb_ge; lia).
    rewrite !continuation_low.
    assert (((192 <=? 224 + cp / 64 / 64) && (224 + cp / 64 / 64 <? 224))%N = false) as ->.
    { apply andb_false_iff. right. apply N.ltb_ge. lia. }
    assert (((224 <=? 224 + cp / 64 / 64) && (224 + cp / 64 / 64 <? 240))%N = true) as ->.
    { apply andb_true_iff. split; [apply N.leb_le | apply N.ltb_lt]; lia. }
    unfold in_range.
    assert ((((224 + cp / 64 / 64 - 224) * 64 + (cp / 64) mod 64) * 64 + cp mod 64 = cp)%N)
      as -> by lia.
    assert (((2048 <=? cp) && (cp <? 65536))%N = true) as ->; [|done].
    apply andb_true_iff. split; [apply N.leb_le | apply N.ltb_lt]; lia. }
  apply N.ltb_ge in E3.
  assert ((cp / 262144 = cp / 64 / 64 / 64)%N) as D3 by lia.
  rewrite !string_app_cons, string_app_nil.
  cbn [code_points]. rewrite D3, D2, byte_embedding by lia.
  assert ((240 + cp / 64 / 64 / 64 <? 128)%N = false) as -> by (apply N.ltb_ge; lia).
  rewrite !continuation_low.
  assert (((192 <=? 240 + cp / 64 / 64 / 64) && (240 + cp / 64 / 64 / 64 <? 224))%N = false)
    as ->.
  { apply andb_false_iff. right. apply N.ltb_ge. lia. }
  assert (((224 <=? 240 + cp / 64 / 64 / 64) && (240 + cp / 64 / 64 / 64 <? 240))%N = false)
    as ->.
  { apply andb_false_iff. right. apply N.ltb_ge. lia. }
  assert (((240 <=? 240 + cp / 64 / 64 / 64) && (240 + cp / 64 / 64 / 64 <? 248))%N = true)
    as ->.
  { apply andb_true_iff. split; [apply N.leb_le | apply N.ltb_lt]; lia. }
  unfold in_range.
  assert (((((240 + cp / 64 / 64 / 64 - 240) * 64 + (cp / 64 / 64) mod 64) * 64
            + (cp / 64) mod 64) * 64 + cp mod 64 = cp)%N) as -> by lia.
  assert (((65536 <=? cp) && (cp <? 1114112))%N = true) as ->; [|done].
  apply andb_true_iff. split; [apply N.leb_le | apply N.ltb_lt]; lia.
Qed.

(** Every text has its [string]: the encoding of a sequence of code points
    reads back as that sequence. *)
Lemma code_points_utf8 (t : list N) :
  Forall (fun cp => (cp < 1114112)%N) t -> code_points (utf8 t) = Some t.
Proof.
  induction 1 as [|cp t Hcp _ IH]; [done|].
  cbn [utf8 fold_right]. rewrite (code_points_utf8_char cp _ Hcp).
  fold (utf8 t). by rewrite IH.
Qed.

#[local] Ltac Zify.zify_post_hook ::= idtac.

(** C10. The value coercion of [set_setting] never raises.  A text made of
    one or more decimal digits, no more than [int] converts (4300 of them),
    with or without one leading minus sign, is replaced by the integer it
    denotes; every other value -- a text such as [--5] or [2.5], a text of
    more digits, or any value that is not a text -- is passed on as it
    is. *)
Theorem coerce_value_total_and_exact :
  (forall v, exists v', coerce_value v = Ok v')
  /\ (forall ds, decimal_text ds ->
        coerce_value (JStr ds) = Ok (JNum (decimal_value ds))
        /\ coerce_value (JStr (String "-" ds)) = Ok (JNum (- decimal_value ds)))
  /\ (forall v,
        ~ (exists ds, decimal_text ds /\ (v = JStr ds \/ v = JStr (String "-" ds))) ->
        coerce_value v = Ok v)
  /\ coerce_value (JStr "--5") = Ok (JStr "--5")
  /\ coerce_value (JStr "2.5") = Ok (JStr "2.5").
Proof.
  assert (forall s, coerce_value (JStr s) = Ok (JStr s)
                    \/ exists n, coerce_value (JStr s) = Ok (JNum n)
                         /\ isdigit (lstrip "-" s) = true
                         /\ int_of_string s = Some n) as Hcases.
  { intros s. unfold coerce_value, coerce_body.
    destruct (isdigit (lstrip "-" s)) eqn:Hd; [|by left]. simpl.
    destruct (int_of_string s) as [n|] eqn:Hi; simpl; [|by left].
    right. by exists n. }
  split; [|split; [|split; [|split]]].
  - intros [| | |s| |]; try (eexists; reflexivity).
    destruct (Hcases s) as [H | (n & H & _)]; eauto.
  - intros ds Hds.
    pose proof (decimal_text_lstrip ds Hds) as Hstrip.
    pose proof (decimal_text_isdigit ds Hds) as Hdigit.
    destruct Hds as (t & Ht & Hne & Hall & Hcap).
    destruct (int_of_text_decimal t Hne Hall Hcap) as [Hplain Hminus].
    unfold coerce_value, coerce_body, decimal_value. rewrite Ht. split.
    + rewrite Hstrip, Hdigit. cbn [py_int]. unfold int_of_string.
      by rewrite Ht, Hplain.
    + cbn [lstrip Ascii.eqb Bool.eqb]. rewrite Hstrip, Hdigit.
      cbn [py_int]. unfold int_of_string.
      rewrite code_points_minus, Ht. cbn [fmap option_fmap option_map].
      by rewrite Hminus.
  - intros v Hv. destruct v as [| | |s| |]; try reflexivity.
    destruct (Hcases s) as [H | (n & _ & Hd & Hi)]; [exact H|].
    exfalso. apply Hv.
    destruct (lstrip_guard s Hd) as (t & Ht & _ & Hg).
    unfold int_of_string in Hi. rewrite Ht in Hi.
    destruct (int_of_text_guard t n Hg Hi) as (ds & Hds & [-> | ->]).
    + exists s. split; [by exists ds | by left].
    + destruct (code_points_head_minus s ds Ht) as (r & -> & Hr).
      exists r. split; [by exists ds | by right].
  - reflexivity.
  - reflexivity.
Qed.

(** The hypothesis of the first two equations is met, for instance by
    [42], by [007] and by the Arabic-Indic digits three and one. *)
Lemma coerce_value_total_and_exact_witness :
  decimal_text "42"
  /\ coerce_value (JStr "42") = Ok (JNum 42)
  /\ coerce_value (JStr "-007") = Ok (JNum (-7))
  /\ coerce_value (JStr (utf8 [1635; 1633]%N)) = Ok (JNum 31)
  /\ coerce_value (JStr "-") = Ok (JStr "-")
  /\ coerce_value (JBool true) = Ok (JBool true).
Proof.
  assert (forall s t, code_points s = Some t -> t <> [] ->
            forallb is_decimal t = true -> (length t <=? 4300)%nat = true ->
            decimal_text s) as Hdec.
  { intros s t Ht Hne Hall Hcap. exists t. repeat split; try done.
    by apply Nat.leb_le. }
  assert (decimal_text "42") as H42
    by (by apply (Hdec _ [52; 50]%N); vm_compute).
  assert (decimal_text "007") as H7
    by (by apply (Hdec _ [48; 48; 55]%N); vm_compute).
  assert (decimal_text (utf8 [1635; 1633]%N)) as H31
    by (by apply (Hdec _ [1635; 1633]%N); vm_compute).
  destruct coerce_value_total_and_exact as (_ & Hdec' & Hother & _).
  split; [exact H42|].
  split; [exact (proj1 (Hdec' "42" H42))|].
  split; [exact (proj2 (Hdec' "007" H7))|].
  split; [exact (proj1 (Hdec' _ H31))|].
  split; apply Hother; intros (ds & (t & Ht & Hne & Hall & _) & [E | E]);
    try discriminate; injection E as <-; vm_compute in Ht; injection Ht as <-;
    [discriminate | done].
Defined.

(** The claim's [digits] cannot mean every run of them: a text of 4301
    digits [1] is more than [int] converts, the [try] swallows the
    [ValueError], and the text is sent as it is; one digit less and it is
    sent as an integer. *)
Lemma long_decimal_text_sent_unchanged :
  all_chars (fun c => Ascii.leb "0" c && Ascii.leb c "9") (replicate_char 4301 "1") = true
  /\ coerce_value (JStr (replicate_char 4301 "1")) = Ok (JStr (replicate_char 4301 "1"))
  /\ is_ok (py_num (match coerce_value (JStr (replicate_char 4300 "1")) with
                    | Ok v => v | Raise _ => JNull end)) = true.
Proof. vm_compute. repeat split. Qed.

(** Nor are the digits those of ASCII alone: the Arabic-Indic digit three
    is sent as the integer 3, while the superscript two, a digit for
    [isdigit] that [int] refuses, is sent as it is. *)
Lemma other_scripts_digits_coerced :
  coerce_value (JStr (utf8 [1635]%N)) = Ok (JNum 3)
  /\ coerce_value (JStr (utf8 [178]%N)) = Ok (JStr (utf8 [178]%N)).
Proof. vm_compute. split; reflexivity. Qed.

(** ** The authenticated verbs *)

(** Unfolding of the monad's operations. *)
Ltac run := repeat (progress (unfold bind, ret, raise, lift, read, modify; cbv beta iota)).

(** A run is determined by its result and its final world. *)
Lemma run_result {S A} (m : St S A) (w : S) (r : res A) :
  (m w).1 = r -> m w = (r, (m w).2).
Proof. destruct (m w); simpl; congruence. Qed.

(** With tokens that are still valid, the prologue of a request method does
    nothing but build the URL. *)
Lemma prepare_fresh base endpoint w tok :
  tokens_stale w = false ->
  py_item (tokens w) "idToken" = Ok tok ->
  prepare base endpoint w = (Ok (base w ++ "/" ++ endpoint), w).
Proof.
  intros Hfresh Htok.
  unfold prepare, _ensure_tokens_valid, bind, read. rewrite Hfresh.
  unfold ret, assert_tokens, bind, read, lift.
  destruct (tokens w) eqn:Etk; try discriminate.
  run. rewrite Htok. reflexivity.
Qed.

Lemma ensure_valid_fresh w :
  tokens_stale w = false -> _ensure_tokens_valid w = (Ok tt, w).
Proof.
  intros Hfresh. unfold _ensure_tokens_valid, bind, read. by rewrite Hfresh.
Qed.

(** C7, as the code has it.  With valid tokens and a 2xx response, the four
    request methods return the parsed JSON body.  When the body is empty,
    only [_post_request] returns an empty result; [_get_request],
    [_get_internal_request] and [_patch_request] parse the body all the
    same and raise the generic API error. *)
Theorem verbs_on_success :
  forall (w : world) (endpoint : string) (data : json) (tok : json) (r : response) (t : Z),
    tokens_stale w = false ->
    py_item (tokens w) "idToken" = Ok tok ->
    net w (length (trace w)) = (Answered r, t) ->
    200 <= status_code r < 300 ->
    (forall j, resp_body r = JsonBody j ->
       (_get_request endpoint w).1 = Ok j
       /\ (_get_internal_request endpoint w).1 = Ok j
       /\ (_patch_request endpoint data w).1 = Ok j
       /\ (_post_request endpoint data w).1 = Ok j)
    /\ (resp_body r = EmptyBody ->
          (_post_request endpoint data w).1 = Ok empty_dict
          /\ (exists m, (_get_request endpoint w).1 = Raise (QvantumApiError m))
          /\ (exists m, (_get_internal_request endpoint w).1 = Raise (QvantumApiError m))
          /\ (exists m, (_patch_request endpoint data w).1 = Raise (QvantumApiError m))).
Proof.
  intros w endpoint data tok r t Hfresh Htok Hnet Hst.
  assert (is_error_status (status_code r) = false) as Hok.
  { unfold is_error_status. apply andb_false_iff. left. apply Z.leb_gt. lia. }
  assert (forall url, raise_for_status url r = None) as Hrs.
  { intros url. unfold raise_for_status. by rewrite Hok. }
  split.
  - intros j Hj.
    unfold _get_request, _get_internal_request, _patch_request, _post_request, bind.
    rewrite !(prepare_fresh _ _ _ _ Hfresh Htok).
    unfold request, exchange. rewrite Hnet. run.
    unfold finish, read_json, read_json_or_empty, has_text, response_json, exception_of_reply.
    rewrite !Hrs, Hj. done.
  - intros He.
    unfold _get_request, _get_internal_request, _patch_request, _post_request, bind.
    rewrite !(prepare_fresh _ _ _ _ Hfresh Htok).
    unfold request, exchange. rewrite Hnet. run.
    unfold finish, read_json, read_json_or_empty, has_text, response_json, exception_of_reply.
    rewrite !Hrs, He. unfold translate_exception, response_status_is. cbn.
    repeat split; eauto.
Qed.

Lemma verbs_on_success_witness :
  (_get_request "devices" (fresh_client (JsonBody (JNum 7)))).1 = Ok (JNum 7)
  /\ (_post_request "devices" JNull (fresh_client EmptyBody)).1 = Ok empty_dict.
Proof.
  split.
  - refine (proj1 (proj1 (verbs_on_success (fresh_client (JsonBody (JNum 7))) "devices" JNull
             (JStr "ID") (ok_response (JsonBody (JNum 7))) _ _ _ _ _) (JNum 7) _)).
    + vm_compute; reflexivity.
    + vm_compute; reflexivity.
    + vm_compute; reflexivity.
    + simpl; lia.
    + reflexivity.
  - refine (proj1 (proj2 (verbs_on_success (fresh_client EmptyBody) "devices" JNull
             (JStr "ID") (ok_response EmptyBody) _ _ _ _ _) _)).
    + vm_compute; reflexivity.
    + vm_compute; reflexivity.
    + vm_compute; reflexivity.
    + simpl; lia.
    + reflexivity.
Defined.

(** C7 as stated fails for GET and PATCH: a [200] with an empty body makes
    [_get_request] and [_patch_request] raise. *)
Lemma empty_body_get_patch_raise :
  ~ (forall (w : world) (endpoint : string) (data : json) (r : response) (t : Z),
       tokens_stale w = false ->
       net w (length (trace w)) = (Answered r, t) ->
       200 <= status_code r < 300 ->
       resp_body r = EmptyBody ->
       is_ok (_get_request endpoint w).1 = true
       /\ is_ok (_patch_request endpoint data w).1 = true).
Proof.
  intros H.
  destruct (H (fresh_client EmptyBody) "devices" JNull (ok_response EmptyBody)
              (seconds 1001)) as [Hget _].
  - vm_compute; reflexivity.
  - vm_compute; reflexivity.
  - simpl; lia.
  - reflexivity.
  - vm_compute in Hget. discriminate.
Qed.

(** ** Token handling *)

Lemma authenticate_trace w :
  trace (authenticate w).2 = (trace w ++ [SignIn (sign_in_url w)])%list.
Proof.
  unfold authenticate. run. unfold request, exchange.
  destruct (net w (length (trace w))) as [rp t]. run.
  destruct (read_json _ rp); reflexivity.
Qed.

Lemma refresh_trace w rt :
  truthy (tokens w) = true ->
  py_item (tokens w) "refreshToken" = Ok rt ->
  trace (_refresh_access_token w).2 = (trace w ++ [Refresh (refresh_url w) rt])%list
  /\ sign_in_url (_refresh_access_token w).2 = sign_in_url w.
Proof.
  intros Htk Hrt. unfold _refresh_access_token. run. rewrite Htk. cbn [negb].
  run. rewrite Hrt. run. unfold request, exchange.
  destruct (net w (length (trace w))) as [rp t]. run.
  destruct (read_json _ rp) as [x|j]; [by split|]. run.
  destruct (py_get j "id_token" JNull); [|by split]. run.
  destruct (py_get j "refresh_token" JNull); [|by split]. run.
  destruct (py_get j "expires_in" JNull); by split.
Qed.

(** What the two operations on time return when they return. *)
Lemma timedelta_ok (d x : Z) : timedelta d = Ok x -> x = d.
Proof. unfold timedelta. destruct (_ && _); [|discriminate]. by intros [= <-]. Qed.

Lemma datetime_add_ok (t d x : Z) : datetime_add t d = Ok x -> x = t + d.
Proof. unfold datetime_add. destruct (_ && _); [|discriminate]. by intros [= <-]. Qed.

Lemma store_expiry_trace w : trace (store_expiry w).2 = trace w.
Proof.
  unfold store_expiry, assert_tokens. run.
  destruct (tokens w) eqn:E; run; try reflexivity;
    (destruct (py_item _ "expiresIn"); run; [|reflexivity];
     destruct (py_int _); run; [|reflexivity];
     destruct (timedelta _); run; [|reflexivity];
     destruct (datetime_add _ _); reflexivity).
Qed.

Lemma ensure_valid_stale w :
  tokens_stale w = true ->
  _ensure_tokens_valid w = bind acquire_tokens (fun _ => store_expiry) w.
Proof.
  intros H. unfold _ensure_tokens_valid. unfold bind at 1, read at 1.
  by rewrite H.
Qed.

(** C1, as the code has it.  With a token set past its expiry,
    [_ensure_tokens_valid] sends exactly one refresh request.  It signs in
    afterwards, exactly once, when the refresh raised
    [AuthenticationError]; any other failure of the refresh is raised to
    the caller and nothing more is sent. *)
Theorem ensure_valid_refresh_then_sign_in :
  forall (w : world) (rt : json),
    truthy (tokens w) = true ->
    tokens_stale w = true ->
    py_item (tokens w) "refreshToken" = Ok rt ->
    trace (_ensure_tokens_valid w).2 =
      (trace w ++ Refresh (refresh_url w) rt ::
         match (_refresh_access_token w).1 with
         | Raise (AuthenticationError _) => [SignIn (sign_in_url w)]
         | _ => []
         end)%list
    /\ (forall e, (_refresh_access_token w).1 = Raise e ->
          is_authentication_error e = false ->
          _ensure_tokens_valid w = (Raise e, (_refresh_access_token w).2)).
Proof.
  intros w rt Htk Hstale Hrt.
  destruct (refresh_trace w rt Htk Hrt) as [Htr Hurl].
  rewrite (ensure_valid_stale w Hstale).
  unfold acquire_tokens, bind, read. rewrite Htk. unfold try_except.
  destruct (_refresh_access_token w) as [[[]|e] w1]; cbn [fst snd] in *.
  - split; [|intros e; discriminate].
    by rewrite store_expiry_trace, Htr.
  - destruct (is_authentication_error e) eqn:Ea.
    + destruct e; try discriminate. split.
      * pose proof (authenticate_trace w1) as Ha.
        destruct (authenticate w1) as [[[]|e2] w2]; cbn [fst snd] in *.
        -- by rewrite store_expiry_trace, Ha, Htr, Hurl, <- app_assoc.
        -- by rewrite Ha, Htr, Hurl, <- app_assoc.
      * intros e' [= He'] Hne. subst. discriminate.
    + split.
      * cbn [fst snd]. rewrite Htr. by destruct e.
      * intros e' [= He'] _. by subst.
Qed.

(** The hypotheses hold for a client whose refresh is rejected with an
    [AuthenticationError] (one refresh, then one sign-in) and for one whose
    refresh times out (one refresh, nothing else). *)
Lemma ensure_valid_refresh_then_sign_in_witness :
  trace (_ensure_tokens_valid (expired_client [rejected_refresh; sign_in_answer])).2 =
    [Refresh "https://token.example.org/v1/token?key=KEY" (JStr "RT");
     SignIn "https://auth.example.org/v1/accounts:signInWithPassword?key=KEY"]
  /\ (_ensure_tokens_valid (expired_client [TimedOut "read timed out"])).1 =
       Raise (ApiConnectionError "Token refresh timeout: read timed out").
Proof.
  split.
  - refine (proj1 (ensure_valid_refresh_then_sign_in
                     (expired_client [rejected_refresh; sign_in_answer]) (JStr "RT") _ _ _));
      vm_compute; reflexivity.
  - refine (f_equal fst (proj2 (ensure_valid_refresh_then_sign_in
                     (expired_client [TimedOut "read timed out"]) (JStr "RT") _ _ _)
                     (ApiConnectionError "Token refresh timeout: read timed out") _ _));
      vm_compute; reflexivity.
Defined.

(** C1 as stated fails: a refresh that times out is a failed refresh, and
    no sign-in follows it. *)
Lemma refresh_timeout_no_sign_in :
  ~ (forall (w : world),
       truthy (tokens w) = true ->
       tokens_stale w = true ->
       is_ok (_refresh_access_token w).1 = false ->
       exists url, In (SignIn url) (trace (_ensure_tokens_valid w).2)).
Proof.
  intros H.
  destruct (H (expired_client [TimedOut "read timed out"])) as [url Hin];
    try (vm_compute; reflexivity).
  vm_compute in Hin. destruct Hin as [Hin | []]. discriminate.
Qed.

Lemma nonempty_dict_truthy (o : gmap string json) k v :
  o !! k = Some v -> truthy (JObj o) = true.
Proof.
  intros H. simpl. apply negb_true_iff, bool_decide_eq_false.
  intros ->. by rewrite lookup_empty in H.
Qed.

(** C5, as the code has it.  When [_ensure_tokens_valid] has acquired
    tokens (by refresh or by sign-in) and returns, the stored expiry is the
    clock reading at that moment plus the lifetime [L] the token set
    reports, less 60 seconds; and as long as the clock reads less than
    that, a call of [_ensure_tokens_valid] returns at once: it sends
    nothing and changes nothing. *)
Theorem ensure_valid_stores_expiry :
  forall (w w' : world),
    tokens_stale w = true ->
    _ensure_tokens_valid w = (Ok tt, w') ->
    exists (expires_in : json) (L : Z),
      py_item (tokens w') "expiresIn" = Ok expires_in
      /\ py_int expires_in = Ok L
      /\ token_expiry w' = Some (now_naive w' + seconds (L - 60))
      /\ forall w'' : world,
           tokens w'' = tokens w' ->
           token_expiry w'' = token_expiry w' ->
           now_naive w'' < now_naive w' + seconds (L - 60) ->
           _ensure_tokens_valid w'' = (Ok tt, w'').
Proof.
  intros w w' Hstale. rewrite (ensure_valid_stale w Hstale). unfold bind.
  destruct (acquire_tokens w) as [[[]|e] w1]; [|discriminate].
  unfold store_expiry, assert_tokens. run.
  destruct (tokens w1) as [| | | | |o] eqn:Etk; run; try discriminate;
    try (intros [=]; fail).
  all: try (simpl; discriminate).
  unfold py_item at 1.
  destruct (o !! "expiresIn") as [ei|] eqn:Eei; run; [|discriminate].
  destruct (py_int ei) as [L|] eqn:EL; run; [|discriminate].
  destruct (timedelta _) as [delta|] eqn:Ed; run; [|discriminate].
  apply timedelta_ok in Ed as ->.
  destruct (datetime_add _ _) as [expiry|] eqn:Ea; run; [|discriminate].
  apply datetime_add_ok in Ea as ->.
  intros [= <-]. exists ei, L. cbn [tokens token_expiry set_token_expiry].
  rewrite Etk. simpl py_item. rewrite Eei.
  split; [reflexivity|]. split; [exact EL|]. split; [reflexivity|].
  intros w'' Htk Hexp Hnow. apply ensure_valid_fresh.
  unfold tokens_stale. rewrite Htk, Hexp.
  rewrite (nonempty_dict_truthy o _ _ Eei). cbn [negb orb].
  apply Z.leb_gt. exact Hnow.
Qed.

Lemma ensure_valid_stores_expiry_witness :
  _ensure_tokens_valid (new_client [sign_in_answer]) = (Ok tt, validated_client)
  /\ token_expiry validated_client = Some (seconds 1001 + seconds (3600 - 60)).
Proof.
  assert (_ensure_tokens_valid (new_client [sign_in_answer]) = (Ok tt, validated_client))
    as Hrun by (apply run_result; vm_compute; reflexivity).
  split; [exact Hrun|].
  destruct (ensure_valid_stores_expiry (new_client [sign_in_answer]) validated_client
              eq_refl Hrun) as (ei & L & Hei & HL & Hexp & _).
  vm_compute in Hei. injection Hei as <-.
  vm_compute in HL. injection HL as <-.
  rewrite Hexp. vm_compute. reflexivity.
Defined.

(** C5 as stated fails for a token set acquired by calling [authenticate]
    itself, as the integration does at start-up: no expiry is stored, so the
    next [_ensure_tokens_valid] sends a refresh request although the token
    has only just been issued. *)
Lemma sign_in_leaves_expiry_unset :
  ~ (forall (w w1 : world) (expires_in : json) (L : Z),
       authenticate w = (Ok tt, w1) ->
       py_item (tokens w1) "expiresIn" = Ok expires_in ->
       py_int expires_in = Ok L ->
       60 < L ->
       token_expiry w1 = Some (now_naive w1 + seconds (L - 60))
       /\ trace (_ensure_tokens_valid w1).2 = trace w1).
Proof.
  intros H.
  destruct (H (new_client [sign_in_answer]) signed_in_client (JStr "3600") 3600)
    as [Hexp _];
    [apply run_result; vm_compute; reflexivity
    | vm_compute; reflexivity | vm_compute; reflexivity | lia |].
  vm_compute in Hexp. discriminate.
Qed.

(** The request that start-up sequence sends: sign-in, then a refresh. *)
Lemma refresh_right_after_sign_in :
  (authenticate (new_client [sign_in_answer])).1 = Ok tt
  /\ token_expiry signed_in_client = None
  /\ trace (_ensure_tokens_valid signed_in_client).2 =
       [SignIn "https://auth.example.org/v1/accounts:signInWithPassword?key=KEY";
        Refresh "https://token.example.org/v1/token?key=KEY" (JStr "RT2")].
Proof. vm_compute. repeat split; reflexivity. Qed.

(** ** Requests sent by the client's methods *)

Lemma sends_nothing_intro {A} (m : M A) w :
  endpoints (m w).2 = endpoints w ->
  api_requests (trace (m w).2) = api_requests (trace w) ->
  sends m w [].
Proof. intros H1 H2. split; [done|]. by rewrite app_nil_r. Qed.

Lemma api_requests_snoc tr ev :
  api_requests (tr ++ [ev]) =
    (api_requests tr ++ if is_token_traffic ev then [] else [ev])%list.
Proof.
  unfold api_requests. rewrite List.filter_app. simpl.
  by destruct (is_token_traffic ev).
Qed.

Lemma authenticate_sends w : sends authenticate w [].
Proof.
  apply sends_nothing_intro; unfold authenticate; run; unfold request, exchange;
    destruct (net w (length (trace w))) as [rp t]; run;
    destruct (read_json _ rp); try reflexivity;
    cbn [fst snd trace set_tokens]; by rewrite api_requests_snoc, app_nil_r.
Qed.

Lemma refresh_sends w : sends _refresh_access_token w [].
Proof.
  apply sends_nothing_intro; unfold _refresh_access_token; run;
    (destruct (truthy (tokens w)); cbn [negb]; run; [|reflexivity]);
    (destruct (py_item (tokens w) "refreshToken"); run; [|reflexivity]);
    unfold request, exchange; destruct (net w (length (trace w))) as [rp t]; run;
    (destruct (read_json _ rp) as [x|j]; run;
     [cbn [fst snd trace]; try reflexivity; by rewrite api_requests_snoc, app_nil_r|]);
    (destruct (py_get j "id_token" JNull); run;
     [|cbn [fst snd trace]; try reflexivity; by rewrite api_requests_snoc, app_nil_r]);
    (destruct (py_get j "refresh_token" JNull); run;
     [|cbn [fst snd trace]; try reflexivity; by rewrite api_requests_snoc, app_nil_r]);
    (destruct (py_get j "expires_in" JNull); run;
     cbn [fst snd trace set_tokens]; try reflexivity;
     by rewrite api_requests_snoc, app_nil_r).
Qed.

Lemma store_expiry_sends w : sends store_expiry w [].
Proof.
  apply sends_nothing_intro; unfold store_expiry, assert_tokens; run;
    destruct (tokens w) eqn:E; run; try reflexivity;
    (destruct (py_item _ "expiresIn"); run; [|reflexivity];
     destruct (py_int _); run; [|reflexivity];
     destruct (timedelta _); run; [|reflexivity];
     destruct (datetime_add _ _); reflexivity).
Qed.

(** Sequencing adds up what is sent. *)
Lemma sends_bind {A B} (m : M A) (k : A -> M B) w evs1 evs2 :
  sends m w evs1 ->
  (forall a, (m w).1 = Ok a -> sends (k a) (m w).2 evs2) ->
  ((forall e, (m w).1 = Raise e -> evs2 = []) ) ->
  sends (bind m k) w (evs1 ++ evs2).
Proof.
  intros [Hc Ht] Hk Hr. unfold sends, bind in *.
  destruct (m w) as [[a|e] w1]; cbn [fst snd] in *.
  - destruct (Hk a eq_refl) as [Hc2 Ht2]. split; [congruence|].
    by rewrite Ht2, Ht, app_assoc.
  - rewrite (Hr e eq_refl), app_nil_r. by split.
Qed.

Lemma acquire_sends w : sends acquire_tokens w [].
Proof.
  unfold sends, acquire_tokens, bind, read. cbv beta iota.
  destruct (truthy (tokens w)); [|apply authenticate_sends].
  pose proof (refresh_sends w) as [Hc Ht]. unfold try_except.
  destruct (_refresh_access_token w) as [[[]|e] w1]; cbn [fst snd] in *; [done|].
  destruct (is_authentication_error e); [|done].
  destruct (authenticate_sends w1) as [Hc2 Ht2]. split; [congruence|].
  by rewrite Ht2, app_nil_r, Ht.
Qed.

Lemma ensure_valid_sends w : sends _ensure_tokens_valid w [].
Proof.
  assert (_ensure_tokens_valid w =
          if tokens_stale w then bind acquire_tokens (fun _ => store_expiry) w
          else (Ok tt, w)) as E.
  { unfold _ensure_tokens_valid. unfold bind at 1, read. cbv beta iota.
    by destruct (tokens_stale w). }
  unfold sends. rewrite E.
  destruct (tokens_stale w); [|by rewrite app_nil_r].
  apply (sends_bind acquire_tokens (fun _ => store_expiry) w [] []).
  - apply acquire_sends.
  - intros _ _. apply store_expiry_sends.
  - done.
Qed.

Lemma prepare_sends base endpoint w : sends (prepare base endpoint) w [].
Proof.
  pose proof (ensure_valid_sends w) as [Hc Ht]. unfold sends, prepare, bind in *.
  destruct (_ensure_tokens_valid w) as [[[]|e] w1]; cbn [fst snd] in *; [|done].
  unfold assert_tokens. run.
  destruct (tokens w1); run; try done; destruct (py_item _ "idToken"); run; done.
Qed.

Lemma prepare_url base endpoint w url w1 :
  prepare base endpoint w = (Ok url, w1) -> url = base w1 ++ "/" ++ endpoint.
Proof.
  unfold prepare. unfold bind at 1.
  destruct (_ensure_tokens_valid w) as [[[]|e] w0]; [|discriminate].
  unfold assert_tokens. run.
  destruct (tokens w0); run; try discriminate;
    destruct (py_item _ "idToken"); try discriminate; by intros [= <- <-].
Qed.

Lemma endpoints_eq w w' :
  endpoints w' = endpoints w ->
  api_endpoint w' = api_endpoint w /\ internal_api_endpoint w' = internal_api_endpoint w.
Proof. unfold endpoints. by intros [= -> ->]. Qed.

Ltac verb_ok base ep :=
  let Hs := fresh in let Hu := fresh in
  match goal with
  | |- ?verb ?w = _ -> _ =>
      unfold bind at 1;
      pose proof (prepare_sends base ep w) as Hs; unfold sends in Hs;
      pose proof (prepare_url base ep w) as Hu;
      destruct (prepare base ep w) as [[url|e] w1]; [|discriminate];
      specialize (Hu url w1 eq_refl); destruct Hs as [Hc Ht]; cbn [fst snd] in *;
      rewrite app_nil_r in Ht; destruct (endpoints_eq _ _ Hc) as [Ha Hi];
      unfold bind, request, exchange;
      destruct (net w1 (length (trace w1))) as [rp t]; run;
      match goal with |- context [finish _ _ ?r] => destruct r as [x|j'] end;
      unfold finish; run; [discriminate|];
      intros [= <- <-]; cbn [trace endpoints api_endpoint internal_api_endpoint];
      split; [exact Hc|];
      rewrite api_requests_snoc; cbn [is_token_traffic]; rewrite Ht, Hu;
      first [by rewrite Ha | by rewrite Hi]
  end.

Lemma get_internal_ok endpoint w j w' :
  _get_internal_request endpoint w = (Ok j, w') ->
  endpoints w' = endpoints w
  /\ api_requests (trace w') =
       (api_requests (trace w)
          ++ [ApiGetInternal (internal_api_endpoint w ++ "/" ++ endpoint)])%list.
Proof. unfold _get_internal_request. verb_ok internal_api_endpoint endpoint. Qed.

Lemma post_ok endpoint data w j w' :
  _post_request endpoint data w = (Ok j, w') ->
  endpoints w' = endpoints w
  /\ api_requests (trace w') =
       (api_requests (trace w) ++ [ApiPost (api_endpoint w ++ "/" ++ endpoint) data])%list.
Proof. unfold _post_request. verb_ok api_endpoint endpoint. Qed.

(** A handshake step that reports success has sent its request. *)
Lemma generate_ok device_id w code_data w' :
  _generate_access_code device_id w = (Ok code_data, w') ->
  truthy code_data = true ->
  _post_request (generate_code_path device_id) empty_dict w = (Ok code_data, w').
Proof.
  unfold _generate_access_code, try_except.
  destruct (_post_request _ _ w) as [[j|e] w1]; [by intros [= <- <-]|].
  unfold on_api_error. destruct (is_api_error e); [|discriminate].
  intros [= <- <-]. discriminate.
Qed.

Lemma claim_ok device_id code w w' :
  _claim_grant device_id code w = (Ok true, w') ->
  exists j, _post_request (claim_grant_path code) empty_dict w = (Ok j, w').
Proof.
  unfold _claim_grant, try_except, bind.
  destruct (_post_request _ _ w) as [[j|e] w1]; [intros [= <-]; by exists j|].
  unfold on_api_error. destruct (is_api_error e); discriminate.
Qed.

Lemma approve_ok device_id code w w' :
  _approve_access device_id code w = (Ok true, w') ->
  exists j, _post_request (approve_path device_id code) empty_dict w = (Ok j, w').
Proof.
  unfold _approve_access, try_except, bind.
  destruct (_post_request _ _ w) as [[j|e] w1]; [intros [= <-]; by exists j|].
  unfold on_api_error. destruct (is_api_error e); discriminate.
Qed.

(** ** Access elevation *)

(** C4.  [elevate_access] first fetches the access level.  When the level
    fetched is 20 or more, that fetch is the only request to the device API
    and its result is returned as it is.  When it is below 20, the code is
    generated, the grant claimed and approved, and the level fetched again:
    five requests in this order, the last result being returned.  When a
    step fails -- no code data, no code in it, the claim or the approval
    refused -- [None] is returned from the world that step left: nothing
    more is sent. *)
Theorem elevate_access_handshake :
  forall (device_id : string) (w w1 : world) (access_data write_level : json),
    get_access_level device_id w = (Ok access_data, w1) ->
    py_get access_data "writeAccessLevel" (JNum 0) = Ok write_level ->
    let level_fetch :=
      ApiGetInternal (internal_api_endpoint w ++ "/" ++ access_level_path device_id) in
    let post path := ApiPost (api_endpoint w ++ "/" ++ path) empty_dict in
    (py_ge write_level 20 = Ok true ->
       elevate_access device_id w = (Ok access_data, w1)
       /\ api_requests (trace w1) = (api_requests (trace w) ++ [level_fetch])%list)
    /\ (py_ge write_level 20 = Ok false ->
        forall (code_data : json) (w2 : world),
          _generate_access_code device_id w1 = (Ok code_data, w2) ->
          (truthy code_data = false -> elevate_access device_id w = (Ok JNull, w2))
          /\ forall access_code : json,
               truthy code_data = true ->
               py_get code_data "accessCode" JNull = Ok access_code ->
               (truthy access_code = false -> elevate_access device_id w = (Ok JNull, w2))
               /\ (truthy access_code = true ->
                   forall (claimed : bool) (w3 : world),
                     _claim_grant device_id access_code w2 = (Ok claimed, w3) ->
                     (claimed = false -> elevate_access device_id w = (Ok JNull, w3))
                     /\ (claimed = true ->
                         forall (approved : bool) (w4 : world),
                           _approve_access device_id access_code w3 = (Ok approved, w4) ->
                           (approved = false ->
                              elevate_access device_id w = (Ok JNull, w4))
                           /\ (approved = true ->
                               forall (updated new_level : json) (w5 : world),
                                 get_access_level device_id w4 = (Ok updated, w5) ->
                                 py_get updated "writeAccessLevel" (JNum 0) = Ok new_level ->
                                 elevate_access device_id w = (Ok updated, w5)
                                 /\ api_requests (trace w5) =
                                      (api_requests (trace w)
                                         ++ [level_fetch;
                                             post (generate_code_path device_id);
                                             post (claim_grant_path access_code);
                                             post (approve_path device_id access_code);
                                             level_fetch])%list)))).
Proof.
  intros device_id w w1 access_data write_level Hget Hlvl level_fetch post.
  destruct (get_internal_ok _ _ _ _ Hget) as [Hc1 Ht1].
  assert (forall k : json -> M json,
            bind (get_access_level device_id) k w = k access_data w1) as Hstart.
  { intros k. unfold bind. by rewrite Hget. }
  split.
  - intros Hge. split; [|exact Ht1].
    unfold elevate_access. rewrite Hstart. run. by rewrite Hlvl, Hge.
  - intros Hge code_data w2 Hgen.
    assert (elevate_access device_id w =
              (if negb (truthy code_data) then ret JNull
               else
                 let* access_code := lift (py_get code_data "accessCode" JNull) in
                 if negb (truthy access_code) then ret JNull
                 else
                   let* claimed := _claim_grant device_id access_code in
                   if negb claimed then ret JNull
                   else
                     let* approved := _approve_access device_id access_code in
                     if negb approved then ret JNull
                     else
                       let* updated_access := get_access_level device_id in
                       let* _ := lift (py_get updated_access "writeAccessLevel" (JNum 0)) in
                       ret updated_access) w2) as Hrest.
    { unfold elevate_access. rewrite Hstart. run. rewrite Hlvl, Hge. run.
      by rewrite Hgen. }
    split.
    + intros Hcd. rewrite Hrest, Hcd. reflexivity.
    + intros access_code Hcd Hcode. rewrite Hcd in Hrest. cbn [negb] in Hrest.
      unfold bind at 1, lift at 1 in Hrest. rewrite Hcode in Hrest.
      split; [intros Hac; by rewrite Hrest, Hac|].
      intros Hac claimed w3 Hclaim. rewrite Hac in Hrest. cbn [negb] in Hrest.
      unfold bind at 1 in Hrest. rewrite Hclaim in Hrest.
      split; [intros ->; exact Hrest|].
      intros -> approved w4 Happrove. cbn [negb] in Hrest.
      unfold bind at 1 in Hrest. rewrite Happrove in Hrest.
      split; [intros ->; exact Hrest|].
      intros -> updated new_level w5 Hget2 Hlvl2. cbn [negb] in Hrest.
      unfold bind at 1 in Hrest. rewrite Hget2 in Hrest.
      unfold bind, lift, ret in Hrest. rewrite Hlvl2 in Hrest.
      split; [exact Hrest|].
      pose proof (generate_ok _ _ _ _ Hgen Hcd) as Hpost.
      destruct (post_ok _ _ _ _ _ Hpost) as [Hc2 Ht2].
      destruct (claim_ok _ _ _ _ Hclaim) as [j3 Hpost3].
      destruct (post_ok _ _ _ _ _ Hpost3) as [Hc3 Ht3].
      destruct (approve_ok _ _ _ _ Happrove) as [j4 Hpost4].
      destruct (post_ok _ _ _ _ _ Hpost4) as [Hc4 Ht4].
      destruct (get_internal_ok _ _ _ _ Hget2) as [Hc5 Ht5].
      destruct (endpoints_eq _ _ Hc1) as [Ha1 Hi1].
      destruct (endpoints_eq _ _ Hc2) as [Ha2 Hi2].
      destruct (endpoints_eq _ _ Hc3) as [Ha3 Hi3].
      destruct (endpoints_eq _ _ Hc4) as [Ha4 Hi4].
      rewrite Ht5, Ht4, Ht3, Ht2, Ht1.
      rewrite Hi4, Hi3, Hi2, Hi1, Ha3, Ha2, Ha1.
      subst level_fetch post. cbv beta. by rewrite <- !app_assoc.
Qed.

(** The three courses of the handshake on concrete networks: the level is
    already 20; the handshake goes through; the claim times out. *)
Lemma elevate_access_handshake_witness :
  (elevate_access "dev" (client_facing [answer (access_level 20)])).1
    = Ok (access_level 20)
  /\ (elevate_access "dev" (client_facing handshake_replies)).1 = Ok (access_level 20)
  /\ List.length (api_requests (trace (elevate_access "dev" (client_facing handshake_replies)).2))
      = 5%nat
  /\ (elevate_access "dev"
        (client_facing [answer (access_level 10);
                        answer (dict_of [("accessCode", JStr "c0de")]);
                        TimedOut "read timed out"])).1 = Ok JNull.
Proof.
  assert (forall (A : Type) (m : M A) (w : world) (r : res A),
            (m w).1 = r -> m w = (r, (m w).2)) as Hrun
    by (intros A m w r; apply run_result).
  split; [|split; [|split]].
  - set (w := client_facing [answer (access_level 20)]).
    destruct (elevate_access_handshake "dev" w (get_access_level "dev" w).2
                (access_level 20) (JNum 20)) as [Hhigh _].
    + apply Hrun. vm_compute. reflexivity.
    + vm_compute. reflexivity.
    + destruct (Hhigh eq_refl) as [E _]. rewrite E. reflexivity.
  - set (w := client_facing handshake_replies).
    set (w1 := (get_access_level "dev" w).2).
    set (w2 := (_generate_access_code "dev" w1).2).
    set (w3 := (_claim_grant "dev" (JStr "c0de") w2).2).
    set (w4 := (_approve_access "dev" (JStr "c0de") w3).2).
    set (w5 := (get_access_level "dev" w4).2).
    destruct (elevate_access_handshake "dev" w w1 (access_level 10) (JNum 10)) as [_ Hlow].
    { apply Hrun. vm_compute. reflexivity. }
    { vm_compute. reflexivity. }
    destruct (Hlow eq_refl (dict_of [("accessCode", JStr "c0de")]) w2) as [_ Hcode].
    { apply Hrun. vm_compute. reflexivity. }
    destruct (Hcode (JStr "c0de")) as [_ Hclaim]; [vm_compute; reflexivity ..|].
    destruct (Hclaim eq_refl true w3) as [_ Happrove].
    { apply Hrun. vm_compute. reflexivity. }
    destruct (Happrove eq_refl true w4) as [_ Hfetch].
    { apply Hrun. vm_compute. reflexivity. }
    destruct (Hfetch eq_refl (access_level 20) (JNum 20) w5) as [E _].
    { apply Hrun. vm_compute. reflexivity. }
    { vm_compute. reflexivity. }
    rewrite E. reflexivity.
  - set (w := client_facing handshake_replies).
    set (w1 := (get_access_level "dev" w).2).
    set (w2 := (_generate_access_code "dev" w1).2).
    set (w3 := (_claim_grant "dev" (JStr "c0de") w2).2).
    set (w4 := (_approve_access "dev" (JStr "c0de") w3).2).
    set (w5 := (get_access_level "dev" w4).2).
    destruct (elevate_access_handshake "dev" w w1 (access_level 10) (JNum 10)) as [_ Hlow].
    { apply Hrun. vm_compute. reflexivity. }
    { vm_compute. reflexivity. }
    destruct (Hlow eq_refl (dict_of [("accessCode", JStr "c0de")]) w2) as [_ Hcode].
    { apply Hrun. vm_compute. reflexivity. }
    destruct (Hcode (JStr "c0de")) as [_ Hclaim]; [vm_compute; reflexivity ..|].
    destruct (Hclaim eq_refl true w3) as [_ Happrove].
    { apply Hrun. vm_compute. reflexivity. }
    destruct (Happrove eq_refl true w4) as [_ Hfetch].
    { apply Hrun. vm_compute. reflexivity. }
    destruct (Hfetch eq_refl (access_level 20) (JNum 20) w5) as [E Htrace].
    { apply Hrun. vm_compute. reflexivity. }
    { vm_compute. reflexivity. }
    rewrite E. cbn [snd]. rewrite Htrace. reflexivity.
  - set (w := client_facing [answer (access_level 10);
                             answer (dict_of [("accessCode", JStr "c0de")]);
                             TimedOut "read timed out"]).
    set (w1 := (get_access_level "dev" w).2).
    set (w2 := (_generate_access_code "dev" w1).2).
    set (w3 := (_claim_grant "dev" (JStr "c0de") w2).2).
    destruct (elevate_access_handshake "dev" w w1 (access_level 10) (JNum 10)) as [_ Hlow].
    { apply Hrun. vm_compute. reflexivity. }
    { vm_compute. reflexivity. }
    destruct (Hlow eq_refl (dict_of [("accessCode", JStr "c0de")]) w2) as [_ Hcode].
    { apply Hrun. vm_compute. reflexivity. }
    destruct (Hcode (JStr "c0de")) as [_ Hclaim]; [vm_compute; reflexivity ..|].
    destruct (Hclaim eq_refl false w3) as [Hfail _].
    { apply Hrun. vm_compute. reflexivity. }
    rewrite (Hfail eq_refl). reflexivity.
Defined.

(** ** Command posts *)

Lemma posts_to_api_requests url tr :
  posts_to url (api_requests tr) = posts_to url tr.
Proof.
  unfold posts_to, api_requests. induction tr as [|ev tr IH]; [done|].
  destruct ev; simpl; try exact IH; destruct (String.eqb _ _); simpl; by rewrite ?IH.
Qed.

Lemma posts_to_app url tr1 tr2 :
  posts_to url (tr1 ++ tr2) = (posts_to url tr1 + posts_to url tr2)%nat.
Proof. unfold posts_to. by rewrite List.filter_app, List.length_app. Qed.

Lemma posts_to_single url u d :
  posts_to url [ApiPost u d] = if String.eqb u url then 1%nat else 0%nat.
Proof. unfold posts_to. simpl. by destruct (String.eqb u url). Qed.

Lemma sends_quiet {A} (m : M A) w url : sends m w [] -> quiet url m w.
Proof.
  intros [Hc Ht]. split; [exact Hc|].
  rewrite <- (posts_to_api_requests url (trace (m w).2)), Ht, app_nil_r.
  apply posts_to_api_requests.
Qed.

Lemma quiet_bind {A B} url (m : M A) (k : A -> M B) w :
  quiet url m w ->
  (forall a, (m w).1 = Ok a -> quiet url (k a) (m w).2) ->
  quiet url (bind m k) w.
Proof.
  intros [Hc Ht] Hk. unfold quiet, bind in *.
  destruct (m w) as [[a|e] w1]; cbn [fst snd] in *; [|done].
  destruct (Hk a eq_refl) as [Hc2 Ht2]. split; congruence.
Qed.

Lemma quiet_try {A} url (m : M A) (handler : exn -> option (M A)) w :
  quiet url m w ->
  (forall e h, (m w).1 = Raise e -> handler e = Some h -> quiet url h (m w).2) ->
  quiet url (try_except m handler) w.
Proof.
  intros [Hc Ht] Hh. unfold quiet, try_except in *.
  destruct (m w) as [[a|e] w1]; cbn [fst snd] in *; [done|].
  destruct (handler e) as [h|] eqn:E; [|done].
  destruct (Hh e h eq_refl E) as [Hc2 Ht2]. split; congruence.
Qed.

Lemma quiet_pure {A} url (r : res A) w : quiet url (lift r) w.
Proof. by split. Qed.

Lemma quiet_ret {A} url (a : A) w : quiet url (ret a) w.
Proof. by split. Qed.

Lemma quiet_if {A} url (b : bool) (m1 m2 : M A) w :
  quiet url m1 w -> quiet url m2 w -> quiet url (if b then m1 else m2) w.
Proof. by destruct b. Qed.

Lemma finish_quiet url a b r w : quiet url (finish a b r) w.
Proof. unfold finish. destruct r; by split. Qed.

(** A request method is quiet for every URL but its own, and sends at most
    one request to its own. *)
Lemma get_internal_quiet url endpoint w : quiet url (_get_internal_request endpoint) w.
Proof.
  unfold _get_internal_request. apply quiet_bind.
  - apply sends_quiet, prepare_sends.
  - intros u _. apply quiet_bind; [|intros; apply finish_quiet].
    split; unfold request, exchange; destruct (net _ _); cbn [fst snd trace]; [done|].
    rewrite posts_to_app. change (posts_to url [ApiGetInternal u]) with 0%nat. apply Nat.add_0_r.
Qed.

Lemma post_counts url endpoint data w :
  endpoints (_post_request endpoint data w).2 = endpoints w
  /\ (posts_to url (trace (_post_request endpoint data w).2) <= posts_to url (trace w) + 1)%nat
  /\ (url <> api_endpoint w ++ "/" ++ endpoint ->
      posts_to url (trace (_post_request endpoint data w).2) = posts_to url (trace w))
  /\ (forall j, (_post_request endpoint data w).1 = Ok j ->
      url = api_endpoint w ++ "/" ++ endpoint ->
      posts_to url (trace (_post_request endpoint data w).2) = S (posts_to url (trace w))).
Proof.
  unfold _post_request, bind, request, exchange.
  pose proof (sends_quiet _ w url (prepare_sends api_endpoint endpoint w)) as [Hc Ht].
  pose proof (prepare_url api_endpoint endpoint w) as Hu.
  destruct (prepare api_endpoint endpoint w) as [[u|e] w1]; cbn [fst snd] in *.
  2:{ rewrite Ht. repeat split; try done. lia. }
  specialize (Hu u w1 eq_refl). destruct (endpoints_eq _ _ Hc) as [Ha _].
  rewrite Ha in Hu. subst u.
  destruct (net w1 _) as [rp t].
  set (w2 := {| email := email w1; trace := _ |}).
  assert (endpoints w2 = endpoints w) as Hc2 by exact Hc.
  assert (trace w2 = (trace w1 ++ [ApiPost (api_endpoint w ++ "/" ++ endpoint) data])%list)
    as Ht2 by reflexivity.
  assert (forall r, (finish "API error: " "Server error " r w2).2 = w2) as Hfin.
  { intros [x|j]; reflexivity. }
  destruct (finish "API error: " "Server error " (read_json_or_empty _ rp) w2)
    as [r w3] eqn:E.
  pose proof (Hfin (read_json_or_empty (api_endpoint w ++ "/" ++ endpoint) rp)) as H3.
  rewrite E in H3. cbn [fst snd] in *. subst w3.
  rewrite Ht2, posts_to_app, Ht, posts_to_single.
  destruct (String.eqb_spec (api_endpoint w ++ "/" ++ endpoint) url) as [Heq|Hne];
    (split; [exact Hc2|]); (split; [lia|]); split.
  - intros Hne. by subst.
  - intros j _ _. lia.
  - intros _. lia.
  - intros j _ ->. done.
Qed.

Lemma post_quiet url endpoint data w :
  url <> api_endpoint w ++ "/" ++ endpoint -> quiet url (_post_request endpoint data) w.
Proof.
  intros Hne. destruct (post_counts url endpoint data w) as (Hc & _ & Hq & _).
  split; [exact Hc | by apply Hq].
Qed.

Lemma string_app_inv_head (a p q : string) : (a ++ p)%string = (a ++ q)%string -> p = q.
Proof.
  induction a as [|c a IH]; [done|].
  rewrite !string_app_cons. intros [= H]. by apply IH.
Qed.

(** The command URL is none of the URLs of the handshake. *)
Lemma command_url_distinct base device_id path :
  String.get 4 path = Some "i"%char ->
  base ++ "/" ++ command_path device_id <> base ++ "/" ++ path.
Proof.
  intros Hget Heq. apply string_app_inv_head, (string_app_inv_head "/") in Heq.
  rewrite <- Heq in Hget. vm_compute in Hget. discriminate.
Qed.

Lemma quiet_bind_endpoints {A B} url (m : M A) (k : A -> M B) w :
  quiet url m w ->
  (forall a, (m w).1 = Ok a -> endpoints (m w).2 = endpoints w -> quiet url (k a) (m w).2) ->
  quiet url (bind m k) w.
Proof. intros Hq Hk. apply quiet_bind; [exact Hq|]. intros a Ha. apply Hk; [done|apply Hq]. Qed.

Lemma guarded_quiet {A} url (m : M A) (fallback : A) w :
  quiet url m w -> quiet url (try_except m (on_api_error fallback)) w.
Proof.
  intros Hq. apply quiet_try; [exact Hq|].
  intros e h _. unfold on_api_error. destruct (is_api_error e); [|discriminate].
  intros [= <-]. apply quiet_ret.
Qed.

(** [elevate_access] sends no command. *)
Lemma elevate_access_quiet device_id device_id' w :
  quiet (api_endpoint w ++ "/" ++ command_path device_id') (elevate_access device_id) w.
Proof.
  set (base := api_endpoint w).
  assert (forall w', endpoints w' = endpoints w -> api_endpoint w' = base) as Hbase.
  { intros w' H. by destruct (endpoints_eq _ _ H). }
  assert (forall path w', endpoints w' = endpoints w ->
            String.get 4 path = Some "i"%char ->
            base ++ "/" ++ command_path device_id' <> api_endpoint w' ++ "/" ++ path)
    as Hne.
  { intros path w' H Hg. rewrite (Hbase w' H). by apply command_url_distinct. }
  unfold elevate_access.
  apply quiet_bind_endpoints; [apply get_internal_quiet|]. intros access_data _ E1.
  apply quiet_bind; [apply quiet_pure|]. intros write_level _.
  apply quiet_bind; [apply quiet_pure|]. intros enough _. cbn [snd lift].
  apply quiet_if; [apply quiet_ret|].
  set (w1 := (get_access_level device_id w).2) in *.
  apply quiet_bind_endpoints.
  { apply guarded_quiet, post_quiet, Hne; [done|]. vm_compute. reflexivity. }
  intros code_data _ E2. rewrite E1 in E2.
  apply quiet_if; [apply quiet_ret|].
  apply quiet_bind; [apply quiet_pure|]. intros access_code _. cbn [snd lift].
  apply quiet_if; [apply quiet_ret|].
  set (w2 := (_generate_access_code device_id w1).2) in *.
  apply quiet_bind_endpoints.
  { apply guarded_quiet, quiet_bind; [|intros; apply quiet_ret].
    apply post_quiet, Hne; [done|]. vm_compute. reflexivity. }
  intros claimed _ E3. rewrite E2 in E3.
  apply quiet_if; [apply quiet_ret|].
  set (w3 := (_claim_grant device_id access_code w2).2) in *.
  apply quiet_bind_endpoints.
  { apply guarded_quiet, quiet_bind; [|intros; apply quiet_ret].
    apply post_quiet, Hne; [done|]. vm_compute. reflexivity. }
  intros approved _ E4. rewrite E3 in E4.
  apply quiet_if; [apply quiet_ret|].
  apply quiet_bind; [apply get_internal_quiet|]. intros updated _.
  apply quiet_bind; [apply quiet_pure|]. intros; apply quiet_ret.
Qed.

(** ** [set_setting] and the denied permission *)

Lemma has_response_member_item response per_setting :
  py_item response "response" = Ok per_setting ->
  has_response_member response = Ok true.
Proof.
  destruct response as [| | | | |o]; try discriminate. simpl.
  destruct (o !! "response") as [v|] eqn:E; [|discriminate]. intros _.
  unfold has_response_member. rewrite (nonempty_dict_truthy o _ _ E). simpl.
  rewrite E. reflexivity.
Qed.

(** C2.  When the command response denies the setting, [set_setting] calls
    [elevate_access] once.  If the elevation returns a truthy result the
    same command is posted once more and the outcome of that second post is
    the outcome of [set_setting], whatever it is: at most two command posts
    in all, and exactly two when the second one is answered.  If the
    elevation returns a falsy result, the denial is returned and the command
    has been posted exactly once.  (An exception of the elevation is raised
    to the caller.) *)
Theorem set_setting_permission_denied :
  forall (device_id setting : string) (value v response per_setting : json) (w w1 : world),
    coerce_value value = Ok v ->
    let path := command_path device_id in
    let payload := setting_payload setting v in
    let command_url := api_endpoint w ++ "/" ++ path in
    _post_request path payload w = (Ok response, w1) ->
    py_item response "response" = Ok per_setting ->
    py_get per_setting setting JNull = Ok (JStr "permission denied") ->
    (forall (elevated : json) (w2 : world),
       elevate_access device_id w1 = (Ok elevated, w2) ->
       (truthy elevated = true ->
          set_setting device_id setting value w = _post_request path payload w2
          /\ (posts_to command_url (trace (set_setting device_id setting value w).2)
              <= posts_to command_url (trace w) + 2)%nat
          /\ (forall r, (set_setting device_id setting value w).1 = Ok r ->
                posts_to command_url (trace (set_setting device_id setting value w).2)
                = (posts_to command_url (trace w) + 2)%nat))
       /\ (truthy elevated = false ->
             set_setting device_id setting value w = (Ok response, w2)
             /\ posts_to command_url (trace w2)
                = (posts_to command_url (trace w) + 1)%nat))
    /\ (forall (e : exn) (w2 : world),
          elevate_access device_id w1 = (Raise e, w2) ->
          set_setting device_id setting value w = (Raise e, w2)).
Proof.
  intros device_id setting value v response per_setting w w1 Hv path payload
    command_url Hpost Hitem Hdenied.
  assert (set_setting device_id setting value w =
            (let* elevated := elevate_access device_id in
             if truthy elevated then _post_request path payload else ret response) w1)
    as Hset.
  { unfold set_setting. unfold bind at 1, lift at 1. rewrite Hv.
    unfold bind at 1. fold path payload. rewrite Hpost.
    unfold bind at 1, lift at 1. rewrite (has_response_member_item _ _ Hitem).
    unfold bind at 1, lift at 1. rewrite Hitem.
    unfold bind at 1, lift at 1. rewrite Hdenied. reflexivity. }
  destruct (post_counts command_url path payload w) as (Hc1 & _ & _ & Hone).
  rewrite Hpost in Hc1, Hone. cbn [fst snd] in Hc1, Hone.
  specialize (Hone response eq_refl eq_refl).
  destruct (endpoints_eq _ _ Hc1) as [Ha1 _].
  pose proof (elevate_access_quiet device_id device_id w1) as [Hc2 Hq2].
  rewrite Ha1 in Hq2. fold path command_url in Hq2.
  split.
  - intros elevated w2 Helev. rewrite Helev in Hc2, Hq2. cbn [fst snd] in Hc2, Hq2.
    split.
    + intros Htruthy.
      assert (set_setting device_id setting value w = _post_request path payload w2) as E.
      { rewrite Hset. unfold bind. by rewrite Helev, Htruthy. }
      split; [exact E|]. rewrite E.
      destruct (post_counts command_url path payload w2) as (_ & Hle & _ & Hok).
      destruct (endpoints_eq _ _ Hc2) as [Ha2 _].
      split; [lia|].
      intros r Hr. rewrite (Hok r Hr); [lia|].
      subst command_url. by rewrite Ha2, Ha1.
    + intros Hfalsy. split; [|lia].
      rewrite Hset. unfold bind. by rewrite Helev, Hfalsy.
  - intros e w2 Helev. rewrite Hset. unfold bind. by rewrite Helev.
Qed.

Lemma set_setting_permission_denied_witness :
  ((set_setting "dev" "dhw_mode" (JStr "2") (client_facing denied_twice_replies)).1
     = Ok (denial "dhw_mode")
   /\ posts_to example_command_url
        (trace (set_setting "dev" "dhw_mode" (JStr "2")
                  (client_facing denied_twice_replies)).2) = 2%nat)
  /\ ((set_setting "dev" "dhw_mode" (JStr "2") (client_facing denied_no_elevation_replies)).1
        = Ok (denial "dhw_mode")
      /\ posts_to example_command_url
           (trace (set_setting "dev" "dhw_mode" (JStr "2")
                     (client_facing denied_no_elevation_replies)).2) = 1%nat).
Proof.
  split.
  - set (w := client_facing denied_twice_replies).
    set (w1 := (_post_request (command_path "dev") (setting_payload "dhw_mode" (JNum 2)) w).2).
    set (w2 := (elevate_access "dev" w1).2).
    destruct (set_setting_permission_denied "dev" "dhw_mode" (JStr "2") (JNum 2)
                (denial "dhw_mode") (dict_of [("dhw_mode", JStr "permission denied")])
                w w1) as [Helev _].
    { vm_compute. reflexivity. }
    { apply run_result. vm_compute. reflexivity. }
    { vm_compute. reflexivity. }
    { vm_compute. reflexivity. }
    destruct (Helev (access_level 20) w2) as [Hretry _].
    { apply run_result. vm_compute. reflexivity. }
    destruct (Hretry eq_refl) as (E & _ & Htwo).
    assert ((set_setting "dev" "dhw_mode" (JStr "2") w).1 = Ok (denial "dhw_mode")) as Hres.
    { rewrite E. vm_compute. reflexivity. }
    split; [exact Hres|].
    change example_command_url with (api_endpoint w ++ "/" ++ command_path "dev").
    rewrite (Htwo _ Hres). reflexivity.
  - set (w := client_facing denied_no_elevation_replies).
    set (w1 := (_post_request (command_path "dev") (setting_payload "dhw_mode" (JNum 2)) w).2).
    set (w2 := (elevate_access "dev" w1).2).
    destruct (set_setting_permission_denied "dev" "dhw_mode" (JStr "2") (JNum 2)
                (denial "dhw_mode") (dict_of [("dhw_mode", JStr "permission denied")])
                w w1) as [Helev _].
    { vm_compute. reflexivity. }
    { apply run_result. vm_compute. reflexivity. }
    { vm_compute. reflexivity. }
    { vm_compute. reflexivity. }
    destruct (Helev JNull w2) as [_ Hgive_up].
    { apply run_result. vm_compute. reflexivity. }
    destruct (Hgive_up eq_refl) as (E & Hone).
    rewrite E. cbn [fst snd]. split; [reflexivity|].
    change example_command_url with (api_endpoint w ++ "/" ++ command_path "dev").
    rewrite Hone. reflexivity.
Defined.

(** ** Extra hot water *)





(** The bounds of [datetime] as [strftime_stop_time] prints them. *)
Lemma datetime_bounds_printed :
  strftime_stop_time datetime_min = "1-01-01T00:00:00.000Z"
  /\ strftime_stop_time datetime_max = "9999-12-31T23:59:59.000Z".
Proof. vm_compute. by split. Qed.

(** On a host whose zone is UTC the stop time is the UTC instant. *)
Lemma stop_time_on_utc_host (w : world) (hours : Z) :
  utc_offset w = 0 ->
  strftime_stop_time (now_naive w + hours_delta hours)
  = strftime_stop_time (utc w + hours_delta hours).
Proof. intros H. unfold now_naive. rewrite H. f_equal. lia. Qed.

(** C6, at a failing input.  On a host one hour east of UTC, at
    2024-01-01T12:00:00Z, [set_extra_hot_water(hours=2)] posts the stop time
    [2024-01-01T15:00:00.000Z]: the local wall clock plus two hours, marked
    as UTC.  The instant two hours from now is [2024-01-01T14:00:00.000Z]. *)
Theorem extra_hot_water_stop_time_is_local :
  trace (set_extra_hot_water "dev" 2 false stockholm_noon).2 =
    [ApiPost example_command_url
       (dict_of [("command",
                  hot_water_shape (JStr "2024-01-01T15:00:00.000Z") false false)])]
  /\ strftime_stop_time (utc stockholm_noon + hours_delta 2) = "2024-01-01T14:00:00.000Z".
Proof. split; vm_compute; reflexivity. Qed.

(** ** The coordinator: substrings *)

Lemma prefix_spec (n h : string) :
  String.prefix n h = true <-> exists after, h = (n ++ after)%string.
Proof.
  revert h. induction n as [|c n IH]; intros h.
  - destruct h; (split; [intros _; eexists; reflexivity | done]).
  - destruct h as [|d h].
    + split; [done|]. intros [a Ha]. rewrite string_app_cons in Ha. discriminate.
    + change (String.prefix (String c n) (String d h))
        with (if ascii_dec c d then String.prefix n h else false).
      destruct (ascii_dec c d) as [->|Hne].
      * rewrite IH. split; intros [a Ha]; exists a.
        -- by rewrite string_app_cons, <- Ha.
        -- rewrite string_app_cons in Ha. by injection Ha.
      * split; [done|]. intros [a Ha]. rewrite string_app_cons in Ha.
        injection Ha as Hc _. by subst.
Qed.

Lemma contains_spec (needle msg : string) :
  contains needle msg = true <-> mentions needle msg.
Proof.
  unfold mentions. induction msg as [|c msg IH].
  - change (contains needle "") with (String.prefix needle "" || false).
    rewrite orb_false_r, prefix_spec. split.
    + intros [a Ha]. exists EmptyString, a. exact Ha.
    + intros (b & a & Hm). destruct b as [|x b]; [exists a; exact Hm|].
      rewrite string_app_cons in Hm. discriminate.
  - change (contains needle (String c msg))
      with (String.prefix needle (String c msg) || contains needle msg).
    rewrite orb_true_iff, prefix_spec, IH. split.
    + intros [[a Ha] | (b & a & Hm)].
      * exists EmptyString, a. exact Ha.
      * exists (String c b), a. by rewrite string_app_cons, Hm.
    + intros (b & a & Hm). destruct b as [|x b].
      * left. exists a. exact Hm.
      * right. rewrite string_app_cons in Hm. injection Hm as _ Hm. by exists b, a.
Qed.

Lemma is_transient_spec (msg : string) :
  is_transient msg = true <-> transient_message msg.
Proof.
  unfold is_transient, transient_message.
  rewrite !orb_true_iff, !contains_spec. tauto.
Qed.

Lemma is_transient_false (msg : string) :
  is_transient msg = false <-> ~ transient_message msg.
Proof.
  rewrite <- is_transient_spec. by destruct (is_transient msg).
Qed.

(** ** The coordinator: what the steps do to [data] *)

Lemma preserves_ret {A} (a : A) : preserves (ret a).
Proof. by split. Qed.

Lemma preserves_raise {A} (e : exn) : preserves (@raise coordinator A e).
Proof. by split. Qed.

Lemma preserves_lift {A} (r : res A) : preserves (lift r).
Proof. by split. Qed.

Lemma preserves_read {A} (f : coordinator -> A) : preserves (read f).
Proof. by split. Qed.

Lemma preserves_call (c : api_call) : preserves (call c).
Proof. intros p. unfold call. by destruct (api p _). Qed.

Lemma preserves_store (key : string) (value : json) :
  key <> "internal_metrics" -> preserves (store key value).
Proof.
  intros Hne p. unfold store, modify. cbn [snd data set_data]. split.
  - intros k Hk. destruct (decide (key = k)) as [->|Hk'].
    + rewrite lookup_insert_eq. by eexists.
    + by rewrite lookup_insert_ne.
  - by rewrite lookup_insert_ne.
Qed.

Lemma preserves_modify (f : coordinator -> coordinator) :
  (forall p, data (f p) = data p) -> preserves (modify f).
Proof. intros Hf p. unfold modify. cbn [snd]. by rewrite Hf. Qed.

Lemma preserves_bind {A B} (m : C A) (k : A -> C B) :
  preserves m -> (forall a, preserves (k a)) -> preserves (bind m k).
Proof.
  intros Hm Hk p. destruct (Hm p) as [H1 H2]. unfold bind.
  destruct (m p) as [[a|e] p1]; [|done].
  destruct (Hk a p1) as [H3 H4]. cbn [snd] in *. split; [auto | congruence].
Qed.

Lemma preserves_try {A} (m : C A) (handler : exn -> option (C A)) :
  preserves m -> (forall e h, handler e = Some h -> preserves h) ->
  preserves (try_except m handler).
Proof.
  intros Hm Hh p. destruct (Hm p) as [H1 H2]. unfold try_except.
  destruct (m p) as [[a|e] p1]; [done|].
  destruct (handler e) as [h|] eqn:E; [|done].
  destruct (Hh e h E p1) as [H3 H4]. cbn [snd] in *. split; [auto | congruence].
Qed.

Lemma preserves_except {A} (h : C A) e h' :
  preserves h -> except_api_error h e = Some h' -> preserves h'.
Proof. unfold except_api_error. destruct (is_api_error e); [|done]. by intros ? [= <-]. Qed.

Lemma preserves_if {A} (b : bool) (m1 m2 : C A) :
  preserves m1 -> preserves m2 -> preserves (if b then m1 else m2).
Proof. by destruct b. Qed.

Ltac preserves_auto :=
  repeat first
    [ apply preserves_ret | apply preserves_raise | apply preserves_lift
    | apply preserves_read | apply preserves_call
    | apply preserves_store; discriminate
    | apply preserves_modify; reflexivity
    | apply preserves_if
    | apply preserves_bind; [|intros]
    | apply preserves_try; [|intros ? ? ?; eapply preserves_except; [|eassumption]] ].

Lemma elevate_beforehand_preserves : preserves elevate_beforehand.
Proof. unfold elevate_beforehand. preserves_auto. Qed.

Lemma fetch_status_preserves : preserves fetch_status.
Proof. unfold fetch_status. preserves_auto. Qed.

Lemma fetch_settings_preserves : preserves fetch_settings.
Proof. unfold fetch_settings. preserves_auto. Qed.

Lemma fetch_inventory_preserves key c cache set_cache log :
  key <> "internal_metrics" ->
  (forall j p, data (set_cache j p) = data p) ->
  preserves (fetch_inventory key c cache set_cache log).
Proof.
  intros Hk Hset. unfold fetch_inventory.
  apply preserves_bind; [apply preserves_read|]. intros cached.
  apply preserves_bind.
  - destruct cached; try apply preserves_ret.
    apply preserves_try.
    + apply preserves_bind; [apply preserves_call|]. intros.
      apply preserves_bind; [apply preserves_modify, Hset|]. intros.
      apply preserves_lift.
    + intros e h. apply preserves_except, preserves_modify, Hset.
  - intros _. apply preserves_bind; [apply preserves_read|]. intros.
    by apply preserves_store.
Qed.

Lemma fetch_alarms_preserves : preserves fetch_alarms.
Proof. unfold fetch_alarms. preserves_auto. Qed.

Section AccessLevelPreserves.

Variable fromisoformat : string -> option pydatetime.

Lemma maybe_renew_preserves access_level :
  preserves (maybe_renew fromisoformat access_level).
Proof.
  unfold maybe_renew, renew_if_expiring, re_elevate, time_until_expiry.
  apply preserves_bind; [apply preserves_lift|]. intros expires.
  apply preserves_bind; [apply preserves_read|]. intros enabled.
  apply preserves_if; [|apply preserves_ret].
  apply preserves_try.
  - apply preserves_bind; [apply preserves_lift|]. intros ex.
    apply preserves_bind.
    { destruct ex; try apply preserves_raise.
      destruct (fromisoformat _); [|apply preserves_raise]. preserves_auto. }
    intros remaining. preserves_auto.
  - intros e h. destruct e; try discriminate; intros [= <-]; apply preserves_ret.
Qed.

Lemma fetch_access_level_preserves : preserves (fetch_access_level fromisoformat).
Proof.
  unfold fetch_access_level.
  apply preserves_try; [|intros ? ? ?; eapply preserves_except; [|eassumption];
                         apply preserves_store; discriminate].
  apply preserves_bind; [apply preserves_call|]. intros access_level.
  apply preserves_bind; [apply preserves_store; discriminate|]. intros _.
  apply maybe_renew_preserves.
Qed.

Lemma after_metrics_preserves : preserves (after_metrics fromisoformat).
Proof.
  unfold after_metrics.
  apply preserves_bind; [by apply fetch_inventory_preserves|]. intros _.
  apply preserves_bind; [by apply fetch_inventory_preserves|]. intros _.
  apply preserves_bind; [apply fetch_alarms_preserves|]. intros _.
  apply preserves_bind; [by apply fetch_inventory_preserves|]. intros _.
  apply preserves_bind; [apply fetch_access_level_preserves|]. intros _.
  apply preserves_read.
Qed.

Lemma before_metrics_preserves : preserves before_metrics.
Proof.
  unfold before_metrics.
  apply preserves_bind; [apply elevate_beforehand_preserves|]. intros _.
  apply preserves_bind; [apply fetch_status_preserves|]. intros _.
  apply fetch_settings_preserves.
Qed.

End AccessLevelPreserves.

(** ** The coordinator: a failed metrics fetch *)

Lemma fetch_internal_metrics_failed names p e t :
  api p (length (calls p)) = (Raise e, t) ->
  is_api_error e = true ->
  fetch_internal_metrics names p =
    ((if is_transient (exn_message e)
      then Raise (UpdateFailed ("Transient server error: " ++ exn_message e))
      else Ok tt),
     (call (GetInternalMetrics names) p).2).
Proof.
  intros Hapi Herr. unfold fetch_internal_metrics, try_except, bind, call.
  rewrite Hapi, Herr. by destruct (is_transient (exn_message e)).
Qed.

(** A computation that ends by returning [data]. *)
Lemma returns_data_read p snapshot p' :
  read data p = (Ok snapshot, p') -> snapshot = data p'.
Proof. by intros [= <- <-]. Qed.

Lemma returns_data_bind {A} (m : C A) (k : C (gmap string json)) :
  (forall p snapshot p', k p = (Ok snapshot, p') -> snapshot = data p') ->
  forall p snapshot p', bind m (fun _ => k) p = (Ok snapshot, p') -> snapshot = data p'.
Proof.
  intros Hk p snapshot p'. unfold bind.
  destruct (m p) as [[a|e] p1]; [apply Hk | discriminate].
Qed.

Section MetricsFailure.

Variable fromisoformat : string -> option pydatetime.

Lemma update_data_fast p :
  is_fast_coordinator p = true ->
  _update_data fromisoformat p =
    (let* _ := fetch_internal_metrics FAST_POLLING_METRICS in read data) (set_data ∅ p).
Proof. intros H. unfold _update_data, bind at 1 2, modify, read at 1. cbn. by rewrite H. Qed.

Lemma update_data_normal p :
  is_fast_coordinator p = false ->
  _update_data fromisoformat p =
    (let* _ := before_metrics in
     let* _ := fetch_internal_metrics METRIC_NAMES in
     after_metrics fromisoformat) (set_data ∅ p).
Proof. intros H. unfold _update_data, bind at 1 2, modify, read at 1. cbn. by rewrite H. Qed.

(** C3.  In a cycle of either coordinator, let the metrics fetch raise an
    API error.  If its message mentions [Server error], [500], [502] or
    [503], the cycle raises [UpdateFailed] and returns no snapshot.  If
    not, the fast cycle returns the empty snapshot, and the normal cycle
    goes on with the fetches that follow the metrics: what they return is
    what the cycle returns, and a snapshot it returns has no
    [internal_metrics] key. *)
Theorem metrics_failure_transient_or_absent :
  forall (p : coordinator) (e : exn) (t : Z),
    is_api_error e = true ->
    (is_fast_coordinator p = true ->
     api p (length (calls p)) = (Raise e, t) ->
     (transient_message (exn_message e) ->
        (_update_data fromisoformat p).1
        = Raise (UpdateFailed ("Transient server error: " ++ exn_message e)))
     /\ (~ transient_message (exn_message e) ->
           (_update_data fromisoformat p).1 = Ok ∅))
    /\ (is_fast_coordinator p = false ->
        forall p1 : coordinator,
          before_metrics (set_data ∅ p) = (Ok tt, p1) ->
          api p1 (length (calls p1)) = (Raise e, t) ->
          (transient_message (exn_message e) ->
             (_update_data fromisoformat p).1
             = Raise (UpdateFailed ("Transient server error: " ++ exn_message e)))
          /\ (~ transient_message (exn_message e) ->
                _update_data fromisoformat p
                = after_metrics fromisoformat (call (GetInternalMetrics METRIC_NAMES) p1).2
                /\ forall snapshot p',
                     _update_data fromisoformat p = (Ok snapshot, p') ->
                     snapshot !! "internal_metrics" = None)).
Proof.
  intros p e t Herr. split.
  - intros Hfast Hapi. rewrite (update_data_fast p Hfast). unfold bind.
    rewrite (fetch_internal_metrics_failed _ (set_data ∅ p) e t Hapi Herr).
    split.
    + intros Ht. apply is_transient_spec in Ht.
      destruct (is_transient (exn_message e)); [reflexivity | discriminate].
    + intros Ht. apply is_transient_false in Ht.
      destruct (is_transient (exn_message e)); [discriminate|]. unfold read, call.
      cbn [calls api set_data]. rewrite Hapi. reflexivity.
  - intros Hnormal p1 Hbefore Hapi.
    assert (_update_data fromisoformat p =
              match (if is_transient (exn_message e)
                     then Raise (UpdateFailed ("Transient server error: "
                                               ++ exn_message e))
                     else Ok tt) with
              | Ok _ => after_metrics fromisoformat
                          (call (GetInternalMetrics METRIC_NAMES) p1).2
              | Raise x => (Raise x, (call (GetInternalMetrics METRIC_NAMES) p1).2)
              end) as Hrun.
    { rewrite (update_data_normal p Hnormal).
      unfold bind at 1. rewrite Hbefore. unfold bind at 1.
      by rewrite (fetch_internal_metrics_failed _ p1 e t Hapi Herr). }
    rewrite Hrun. clear Hrun.
    split.
    + intros Ht. apply is_transient_spec in Ht.
      destruct (is_transient (exn_message e)); [reflexivity | discriminate].
    + intros Ht. apply is_transient_false in Ht.
      destruct (is_transient (exn_message e)); [discriminate|]. split; [reflexivity|].
      set (p2 := (call (GetInternalMetrics METRIC_NAMES) p1).2).
      intros snapshot p' Hrun.
      destruct (after_metrics_preserves fromisoformat p2) as [_ Hkeep].
      assert (snapshot = data p') as ->.
      { revert Hrun. unfold after_metrics.
        do 5 apply returns_data_bind. apply returns_data_read. }
      rewrite Hrun in Hkeep. cbn [snd] in Hkeep. rewrite Hkeep.
      subst p2. unfold call. destruct (api p1 _) as [r t']. cbn [snd data].
      destruct (before_metrics_preserves (set_data ∅ p)) as [_ Hb].
      rewrite Hbefore in Hb. cbn [snd] in Hb. rewrite Hb. apply lookup_empty.
Qed.

End MetricsFailure.

Lemma metrics_failure_transient_or_absent_witness :
  (_update_data two_timestamps (new_coordinator true false [server_error_503])).1
    = Raise (UpdateFailed "Transient server error: Server error 503")
  /\ (_update_data two_timestamps (new_coordinator true false [not_found])).1 = Ok ∅
  /\ exists snapshot,
       (_update_data two_timestamps (new_coordinator false false metrics_not_found)).1
         = Ok snapshot
       /\ snapshot !! "internal_metrics" = None.
Proof.
  assert (transient_message "Server error 503") as H503
    by (apply is_transient_spec; vm_compute; reflexivity).
  assert (~ transient_message "API error: not found") as H404
    by (apply is_transient_false; vm_compute; reflexivity).
  split; [|split].
  - destruct (metrics_failure_transient_or_absent two_timestamps
                (new_coordinator true false [server_error_503])
                (ApiConnectionError "Server error 503") (seconds 1704110401) eq_refl)
      as [Hfast _].
    destruct (Hfast eq_refl eq_refl) as [Hraise _]. exact (Hraise H503).
  - destruct (metrics_failure_transient_or_absent two_timestamps
                (new_coordinator true false [not_found])
                (QvantumApiError "API error: not found") (seconds 1704110401) eq_refl)
      as [Hfast _].
    destruct (Hfast eq_refl eq_refl) as [_ Hempty]. exact (Hempty H404).
  - set (p := new_coordinator false false metrics_not_found).
    set (p1 := (before_metrics (set_data ∅ p)).2).
    destruct (metrics_failure_transient_or_absent two_timestamps p
                (QvantumApiError "API error: not found") (seconds 1704110403) eq_refl)
      as [_ Hnormal].
    destruct (Hnormal eq_refl p1) as [_ Habsent].
    { apply run_result. vm_compute. reflexivity. }
    { vm_compute. reflexivity. }
    destruct (Habsent H404) as [_ Hkey].
    destruct (_update_data two_timestamps p) as [[snapshot|e] p'] eqn:E.
    + exists snapshot. split; [reflexivity|]. by apply (Hkey snapshot p').
    + exfalso. assert (is_ok (_update_data two_timestamps p).1 = true) as Hok
        by (vm_compute; reflexivity).
      rewrite E in Hok. discriminate.
Defined.

(** ** The coordinator: the keys of a normal snapshot *)

Lemma bind_ok_inv {S A B} (m : St S A) (k : A -> St S B) (p p' : S) (b : B) :
  bind m k p = (Ok b, p') -> exists a q, m p = (Ok a, q) /\ k a q = (Ok b, p').
Proof. unfold bind. destruct (m p) as [[a|e] q]; [by exists a, q | discriminate]. Qed.

Lemma store_key key value q : is_Some (data (store key value q).2 !! key).
Proof. unfold store, modify. cbn [snd data set_data]. rewrite lookup_insert_eq. by eexists. Qed.

Lemma fetch_inventory_key key c cache set_cache log q q' :
  fetch_inventory key c cache set_cache log q = (Ok tt, q') ->
  is_Some (data q' !! key).
Proof.
  unfold fetch_inventory. intros H.
  apply bind_ok_inv in H as (cached & q1 & _ & H).
  apply bind_ok_inv in H as (u & q2 & _ & H).
  apply bind_ok_inv in H as (inventory & q3 & Hread & H).
  injection Hread as <- <-.
  pose proof (store_key key (cache q2) q2) as Hk. by rewrite H in Hk.
Qed.

Lemma fetch_alarms_key q q' :
  fetch_alarms q = (Ok tt, q') -> is_Some (data q' !! "alarms").
Proof.
  unfold fetch_alarms, try_except, bind.
  destruct (call GetAlarms q) as [[alarms|e] q1].
  - unfold store, modify. intros [= <-]. cbn [data set_data].
    rewrite lookup_insert_eq. by eexists.
  - unfold except_api_error. destruct (is_api_error e); [|discriminate].
    unfold store, modify. intros [= <-]. cbn [data set_data].
    rewrite lookup_insert_eq. by eexists.
Qed.

Section SnapshotKeys.

Variable fromisoformat : string -> option pydatetime.

Lemma fetch_access_level_key q q' :
  fetch_access_level fromisoformat q = (Ok tt, q') ->
  is_Some (data q' !! "access_level").
Proof.
  unfold fetch_access_level, try_except.
  destruct (bind (call GetAccessLevel) _ q) as [[[]|e] q1] eqn:E.
  - intros [= <-].
    apply bind_ok_inv in E as (access_level & q2 & _ & E).
    apply bind_ok_inv in E as ([] & q3 & Hstore & E).
    pose proof (store_key "access_level" access_level q2) as Hk.
    rewrite Hstore in Hk. cbn [snd] in Hk.
    destruct (maybe_renew_preserves fromisoformat access_level q3) as [Hmono _].
    rewrite E in Hmono. by apply Hmono.
  - unfold except_api_error. destruct (is_api_error e); [|discriminate].
    unfold store, modify. intros [= <-]. cbn [data set_data].
    rewrite lookup_insert_eq. by eexists.
Qed.

(** A step that has run leaves the keys of [data] in place. *)
Lemma kept {A} (m : C A) q a q' k :
  preserves m -> m q = (Ok a, q') -> is_Some (data q !! k) -> is_Some (data q' !! k).
Proof. intros Hm Hrun. destruct (Hm q) as [Hmono _]. rewrite Hrun in Hmono. apply Hmono. Qed.

Lemma fetch_inventory_failed key c cache set_cache log q e t :
  (forall j p, cache (set_cache j p) = j) ->
  (forall j p, data (set_cache j p) = data p) ->
  cache q = JNull ->
  api q (length (calls q)) = (Raise e, t) ->
  is_api_error e = true ->
  (fetch_inventory key c cache set_cache log q).1 = Ok tt
  /\ data (fetch_inventory key c cache set_cache log q).2 !! key = Some JNull.
Proof.
  intros Hcache Hdata Hnull Hapi Herr.
  unfold fetch_inventory, bind, read, try_except, call. rewrite Hnull, Hapi.
  unfold except_api_error. rewrite Herr. unfold modify, store, modify.
  cbn [fst snd]. rewrite Hcache, Hdata. cbn [data set_data].
  by rewrite lookup_insert_eq.
Qed.

(** C9.  A normal cycle that returns a snapshot returns one with the keys
    [settings_inventory], [metrics_inventory], [alarms_inventory],
    [alarms] and [access_level].  A step whose fetch raises an API error
    puts in [None] for an inventory that is not cached, [{"alarms": []}]
    for the alarms, and the default access level (write and read level
    10, no expiry).  The keys [status], [settings] and [internal_metrics]
    can all be absent. *)
Theorem normal_snapshot_keys :
  (forall (p p' : coordinator) (snapshot : gmap string json),
     is_fast_coordinator p = false ->
     _update_data fromisoformat p = (Ok snapshot, p') ->
     is_Some (snapshot !! "settings_inventory")
     /\ is_Some (snapshot !! "metrics_inventory")
     /\ is_Some (snapshot !! "alarms_inventory")
     /\ is_Some (snapshot !! "alarms")
     /\ is_Some (snapshot !! "access_level"))
  /\ (forall (q : coordinator) (e : exn) (t : Z),
        api q (length (calls q)) = (Raise e, t) ->
        is_api_error e = true ->
        (_settings_inventory q = JNull ->
           let step := fetch_inventory "settings_inventory" GetSettingsInventory
                         _settings_inventory set_settings_inventory
                         log_settings_inventory in
           (step q).1 = Ok tt /\ data (step q).2 !! "settings_inventory" = Some JNull)
        /\ (_metrics_inventory q = JNull ->
              let step := fetch_inventory "metrics_inventory" GetMetricsInventory
                            _metrics_inventory set_metrics_inventory
                            log_metrics_inventory in
              (step q).1 = Ok tt /\ data (step q).2 !! "metrics_inventory" = Some JNull)
        /\ (_alarms_inventory q = JNull ->
              let step := fetch_inventory "alarms_inventory" GetAlarmsInventory
                            _alarms_inventory set_alarms_inventory (fun _ => Ok tt) in
              (step q).1 = Ok tt /\ data (step q).2 !! "alarms_inventory" = Some JNull)
        /\ ((fetch_alarms q).1 = Ok tt
            /\ data (fetch_alarms q).2 !! "alarms" = Some (dict_of [("alarms", JArr [])]))
        /\ ((fetch_access_level fromisoformat q).1 = Ok tt
            /\ data (fetch_access_level fromisoformat q).2 !! "access_level"
               = Some default_access_level))
  /\ (exists (p : coordinator) (snapshot : gmap string json),
        is_fast_coordinator p = false
        /\ (_update_data fromisoformat p).1 = Ok snapshot
        /\ snapshot !! "status" = None
        /\ snapshot !! "settings" = None
        /\ snapshot !! "internal_metrics" = None).
Proof.
  split; [|split].
  - intros p p' snapshot Hnormal Hrun.
    rewrite (update_data_normal fromisoformat p Hnormal) in Hrun.
    apply bind_ok_inv in Hrun as (u0 & q0 & _ & Hrun).
    apply bind_ok_inv in Hrun as (u1 & q1 & _ & Hrun).
    unfold after_metrics in Hrun.
    apply bind_ok_inv in Hrun as ([] & q2 & H2 & Hrun).
    apply bind_ok_inv in Hrun as ([] & q3 & H3 & Hrun).
    apply bind_ok_inv in Hrun as ([] & q4 & H4 & Hrun).
    apply bind_ok_inv in Hrun as ([] & q5 & H5 & Hrun).
    apply bind_ok_inv in Hrun as ([] & q6 & H6 & Hrun).
    injection Hrun as <- <-.
    pose proof (fetch_inventory_key _ _ _ _ _ _ _ H2) as K2.
    pose proof (fetch_inventory_key _ _ _ _ _ _ _ H3) as K3.
    pose proof (fetch_alarms_key _ _ H4) as K4.
    pose proof (fetch_inventory_key _ _ _ _ _ _ _ H5) as K5.
    pose proof (fetch_access_level_key _ _ H6) as K6.
    assert (preserves (fetch_inventory "metrics_inventory" GetMetricsInventory
              _metrics_inventory set_metrics_inventory log_metrics_inventory)) as P3
      by (by apply fetch_inventory_preserves).
    assert (preserves (fetch_inventory "alarms_inventory" GetAlarmsInventory
              _alarms_inventory set_alarms_inventory (fun _ => Ok tt))) as P5
      by (by apply fetch_inventory_preserves).
    pose proof fetch_alarms_preserves as P4.
    pose proof (fetch_access_level_preserves fromisoformat) as P6.
    repeat split.
    + eapply (kept _ _ _ _ _ P6 H6), (kept _ _ _ _ _ P5 H5),
        (kept _ _ _ _ _ P4 H4), (kept _ _ _ _ _ P3 H3), K2.
    + eapply (kept _ _ _ _ _ P6 H6), (kept _ _ _ _ _ P5 H5), (kept _ _ _ _ _ P4 H4), K3.
    + eapply (kept _ _ _ _ _ P6 H6), K5.
    + eapply (kept _ _ _ _ _ P6 H6), (kept _ _ _ _ _ P5 H5), K4.
    + exact K6.
  - intros q e t Hapi Herr.
    split; [|split; [|split; [|split]]].
    + intros Hnull. by apply (fetch_inventory_failed _ _ _ _ _ q e t).
    + intros Hnull. by apply (fetch_inventory_failed _ _ _ _ _ q e t).
    + intros Hnull. by apply (fetch_inventory_failed _ _ _ _ _ q e t).
    + unfold fetch_alarms, try_except, bind, call. rewrite Hapi.
      unfold except_api_error. rewrite Herr. unfold store, modify.
      cbn [fst snd data set_data]. by rewrite lookup_insert_eq.
    + unfold fetch_access_level, try_except, bind, call. rewrite Hapi.
      unfold except_api_error. rewrite Herr. unfold store, modify.
      cbn [fst snd data set_data]. by rewrite lookup_insert_eq.
  - exists (new_coordinator false false []), all_failed_snapshot.
    split; [reflexivity|]. split; [vm_compute; reflexivity|].
    repeat split; vm_compute; reflexivity.
Qed.

End SnapshotKeys.

Lemma normal_snapshot_keys_witness :
  (exists snapshot,
     (_update_data two_timestamps (new_coordinator false false metrics_not_found)).1
       = Ok snapshot
     /\ is_Some (snapshot !! "alarms")
     /\ is_Some (snapshot !! "access_level"))
  /\ data (fetch_alarms (new_coordinator false false [])).2 !! "alarms"
     = Some (dict_of [("alarms", JArr [])]).
Proof.
  destruct (normal_snapshot_keys two_timestamps) as (Hkeys & Hfailed & _).
  split.
  - set (p := new_coordinator false false metrics_not_found).
    assert (is_ok (_update_data two_timestamps p).1 = true) as Hok
      by (vm_compute; reflexivity).
    destruct (_update_data two_timestamps p) as [[snapshot|e] p'] eqn:E;
      [|discriminate].
    exists snapshot. split; [reflexivity|].
    destruct (Hkeys p p' snapshot eq_refl E) as (_ & _ & _ & Ha & Hl). by split.
  - destruct (Hfailed (new_coordinator false false [])
                (QvantumApiError "API error: 404 Client Error: Not Found")
                (seconds 1704110401) eq_refl eq_refl) as (_ & _ & _ & [_ Halarms] & _).
    exact Halarms.
Defined.

(** ** The coordinator: renewal of the elevated access *)

Lemma calls_try {A} (m : C A) (handler : exn -> option (C A)) q :
  (forall e h p, handler e = Some h -> calls (h p).2 = calls p) ->
  calls (try_except m handler q).2 = calls (m q).2.
Proof.
  intros Hh. unfold try_except. destruct (m q) as [[a|e] q1]; [done|].
  destruct (handler e) as [h|] eqn:E; [|done]. by apply (Hh e).
Qed.

Lemma except_api_error_calls {A} (h : C A) :
  (forall p, calls (h p).2 = calls p) ->
  forall e h' p, except_api_error h e = Some h' -> calls (h' p).2 = calls p.
Proof.
  intros Hh e h' p. unfold except_api_error.
  destruct (is_api_error e); [|done]. by intros [= <-].
Qed.

Lemma py_item_get j k v d : py_item j k = Ok v -> py_get j k d = Ok v.
Proof.
  destruct j; try discriminate. simpl. by destruct (_ !! k); [intros [= ->]|].
Qed.

Lemma py_get_item j k v : py_get j k JNull = Ok v -> truthy v = true -> py_item j k = Ok v.
Proof.
  destruct j; try discriminate. simpl. destruct (_ !! k); simpl.
  - by intros [= ->].
  - by intros [= <-].
Qed.

Lemma re_elevate_calls q : calls (re_elevate q).2 = (calls q ++ [ElevateAccess])%list.
Proof.
  unfold re_elevate. rewrite calls_try.
  - unfold bind, call. destruct (api q _) as [[new_access|e] t]; [|done].
    destruct (truthy new_access); [|done].
    unfold store, modify, bind, lift. cbn [fst snd].
    by destruct (py_get new_access "expiresAt" JNull).
  - by apply except_api_error_calls.
Qed.

Section Renewal.

Variable fromisoformat : string -> option pydatetime.

Lemma update_data_last_step p :
  is_fast_coordinator p = false ->
  _update_data fromisoformat p =
    (before_access_level;; fetch_access_level fromisoformat;; read data) (set_data ∅ p).
Proof.
  intros H. rewrite (update_data_normal fromisoformat p H).
  unfold before_access_level, after_metrics, bind.
  repeat match goal with
         | |- context [match ?m ?q with _ => _ end] =>
             lazymatch m with
             | fetch_access_level _ => fail
             | read _ => fail
             | _ => destruct (m q) as [[[]|?] ?]; try reflexivity
             end
         end.
Qed.

(** Where the renewal makes a call, it is the one elevation, and the
    renewal was due. *)
Lemma maybe_renew_calls access_level q :
  exists l : list api_call,
    calls (maybe_renew fromisoformat access_level q).2 = (calls q ++ l)%list
    /\ (l = [] \/ (l = [ElevateAccess] /\ renewal_due fromisoformat access_level q)).
Proof.
  assert (forall q' : coordinator, calls q' = calls q ->
            exists l : list api_call,
              calls q' = (calls q ++ l)%list
              /\ (l = [] \/ (l = [ElevateAccess]
                             /\ renewal_due fromisoformat access_level q))) as Hnone.
  { intros q' Hq'. exists []. rewrite app_nil_r. by split; [|left]. }
  unfold maybe_renew. unfold bind at 1, lift at 1.
  destruct (py_get access_level "expiresAt" JNull) as [expires|] eqn:Eexp;
    [|by apply Hnone].
  unfold bind at 1, read at 1.
  destruct (truthy expires && auto_elevate_enabled q) eqn:Ec; [|by apply Hnone].
  apply andb_true_iff in Ec as [Htruthy _].
  pose proof (py_get_item _ _ _ Eexp Htruthy) as Eitem.
  unfold renew_if_expiring. rewrite calls_try.
  2:{ intros e h p. destruct e; try discriminate; by intros [= <-]. }
  unfold bind at 1, lift at 1. rewrite Eitem.
  unfold time_until_expiry.
  destruct expires as [| | |s| |]; try by apply Hnone.
  destruct (fromisoformat (replace_Z s)) as [expires_at|] eqn:Eparse;
    [|by apply Hnone].
  unfold bind at 1 2, read at 1, ret at 1.
  unfold bind at 1, lift at 1.
  destruct (py_get access_level "writeAccessLevel" (JNum 0)) as [lv|] eqn:Elv;
    [|by apply Hnone].
  unfold bind at 1, lift at 1, py_ge, res_bind.
  destruct (py_num lv) as [level|] eqn:Enum; [|by apply Hnone].
  fold (remaining expires_at q).
  destruct (Z.leb 20 level && Z.ltb 0 (remaining expires_at q)
            && Z.ltb (remaining expires_at q) (seconds 300)) eqn:Ew;
    [|by apply Hnone].
  exists [ElevateAccess]. split; [apply re_elevate_calls|]. right. split; [done|].
  apply andb_true_iff in Ew as [Ew H300]. apply andb_true_iff in Ew as [H20 H0].
  exists expires_at, level. split; [|split; [lia|lia]].
  exists s, lv. repeat split; try done.
  intros ->. discriminate.
Qed.

(** C8.  In the last step of a normal cycle with auto-elevate on, let the
    access level be fetched.  Then at most one more call is made, the
    elevation, and it is made only when the renewal is due: [expiresAt] is
    set, [writeAccessLevel] is 20 or more, and the time until expiry is
    more than 0 and less than 300 seconds.  When the grant has run out
    already, no elevation is attempted, the step ends with the fetched
    access level in [data], and the cycle returns it. *)
Theorem renewal_only_when_due :
  forall (q : coordinator) (access_level : json) (t : Z),
    auto_elevate_enabled q = true ->
    api q (length (calls q)) = (Ok access_level, t) ->
    let fetched := (call GetAccessLevel q).2 in
    (calls (fetch_access_level fromisoformat q).2 = (calls q ++ [GetAccessLevel])%list
     \/ (calls (fetch_access_level fromisoformat q).2
           = (calls q ++ [GetAccessLevel; ElevateAccess])%list
         /\ renewal_due fromisoformat access_level fetched))
    /\ (forall (expires_at : pydatetime) (level : Z),
          access_level_reads fromisoformat access_level expires_at level ->
          remaining expires_at fetched <= 0 ->
          (fetch_access_level fromisoformat q).1 = Ok tt
          /\ calls (fetch_access_level fromisoformat q).2
               = (calls q ++ [GetAccessLevel])%list
          /\ data (fetch_access_level fromisoformat q).2
               = <["access_level" := access_level]> (data q)
          /\ forall p : coordinator,
               is_fast_coordinator p = false ->
               before_access_level (set_data ∅ p) = (Ok tt, q) ->
               (_update_data fromisoformat p).1
               = Ok (<["access_level" := access_level]> (data q))).
Proof.
  intros q access_level t Henabled Hapi fetched.
  set (q2 := (store "access_level" access_level fetched).2).
  assert (fetch_access_level fromisoformat q =
            try_except (maybe_renew fromisoformat access_level)
              (except_api_error (store "access_level" default_access_level)) q2) as Hstep.
  { unfold fetch_access_level, try_except, bind. subst q2 fetched.
    unfold call. rewrite Hapi. reflexivity. }
  assert (calls q2 = (calls q ++ [GetAccessLevel])%list) as Hcalls.
  { subst q2 fetched. unfold call. by rewrite Hapi. }
  assert (forall ea, remaining ea q2 = remaining ea fetched) as Hrem by reflexivity.
  split.
  - rewrite Hstep, calls_try by (by apply except_api_error_calls).
    destruct (maybe_renew_calls access_level q2) as (l & H & [-> | [-> Hdue]]).
    + left. by rewrite H, app_nil_r.
    + right. split; [by rewrite H, Hcalls, <- app_assoc|].
      destruct Hdue as (ea & level & Hreads & H20 & Hwin).
      exists ea, level. by rewrite <- Hrem.
  - intros expires_at level (s & lv & Hexp & Hs & Hparse & Hlv & Hnum) Hgone.
    assert (maybe_renew fromisoformat access_level q2 = (Ok tt, q2)) as Hrenew.
    { unfold maybe_renew. unfold bind at 1, lift at 1. rewrite Hexp.
      unfold bind at 1, read at 1.
      assert (truthy (JStr s) = true) as Htruthy.
      { simpl. destruct s; [done | reflexivity]. }
      assert (auto_elevate_enabled q2 = true) as ->.
      { subst q2 fetched. unfold call. by rewrite Hapi. }
      rewrite Htruthy. cbn [andb].
      unfold renew_if_expiring, try_except.
      unfold bind at 1, lift at 1. rewrite (py_get_item _ _ _ Hexp Htruthy).
      unfold time_until_expiry. rewrite Hparse.
      unfold bind at 1 2, read at 1, ret at 1.
      unfold bind at 1, lift at 1. rewrite Hlv.
      unfold bind at 1, lift at 1, py_ge, res_bind. rewrite Hnum.
      fold (remaining expires_at q2). rewrite Hrem.
      assert (Z.ltb 0 (remaining expires_at fetched) = false) as ->
        by (apply Z.ltb_ge; lia).
      by rewrite andb_false_r. }
    assert (fetch_access_level fromisoformat q = (Ok tt, q2)) as Hdone.
    { rewrite Hstep. unfold try_except. by rewrite Hrenew. }
    assert (data q2 = <["access_level" := access_level]> (data q)) as Hdata.
    { subst q2 fetched. unfold call. by rewrite Hapi. }
    rewrite Hdone. cbn [fst snd]. repeat split; try done.
    intros p Hnormal Hbefore. rewrite (update_data_last_step p Hnormal).
    unfold bind at 1. rewrite Hbefore. unfold bind. rewrite Hdone.
    unfold read. cbn [fst]. by rewrite Hdata.
Qed.

End Renewal.

Lemma renewal_only_when_due_witness :
  calls (fetch_access_level two_timestamps about_to_expire).2
    = [GetAccessLevel; ElevateAccess]
  /\ exists snapshot,
       (_update_data two_timestamps expired_cycle).1 = Ok snapshot
       /\ snapshot !! "access_level" = Some (elevated_until "2024-01-01T11:00:00Z").
Proof.
  split.
  - destruct (renewal_only_when_due two_timestamps about_to_expire
                (elevated_until "2024-01-01T12:04:00Z") (seconds 1704110401))
      as [[Hnone | [Hcalls _]] _].
    + reflexivity.
    + vm_compute. reflexivity.
    + exfalso. vm_compute in Hnone. discriminate.
    + exact Hcalls.
  - set (al := elevated_until "2024-01-01T11:00:00Z").
    set (q := (before_access_level (set_data ∅ expired_cycle)).2).
    destruct (renewal_only_when_due two_timestamps q al (seconds 1704110409))
      as [_ Hgone].
    { vm_compute. reflexivity. }
    { vm_compute. reflexivity. }
    destruct (Hgone {| wall := seconds (1704110400 - 3600); tzinfo := Some 0 |} 20)
      as (_ & _ & _ & Hcycle).
    { exists "2024-01-01T11:00:00Z", (JNum 20).
      split; [vm_compute; reflexivity|]. split; [discriminate|].
      split; [vm_compute; reflexivity|]. split; vm_compute; reflexivity. }
    { vm_compute. discriminate. }
    exists (<["access_level" := al]> (data q)). split.
    + apply Hcycle; [reflexivity|].
      apply (run_result before_access_level (set_data ∅ expired_cycle) (Ok tt)).
      vm_compute. reflexivity.
    + apply lookup_insert_eq.
Defined.

(** ** An HTTP error status and the handlers

    [raise_for_status] puts the response into the exception, and a response
    with an error status is falsy: the tests
    [err.response and err.response.status_code == 401] and [... >= 500] of
    the handlers are then false, and the generic error is raised.  So a
    refresh answered by HTTP 401 is not followed by a sign-in. *)
Lemma http_error_is_generic (url : string) (r : response) (x : request_exception)
    (timeout_msg auth_msg other_msg : string) (server_msg : Z -> string -> string) :
  raise_for_status url r = Some x ->
  translate_exception timeout_msg auth_msg server_msg other_msg x
  = QvantumApiError (other_msg ++ exc_msg x).
Proof.
  unfold raise_for_status, response_ok.
  destruct (is_error_status (status_code r)) eqn:E; [|discriminate].
  intros [= <-]. unfold translate_exception, response_status_is. cbn.
  reflexivity.
Qed.

Lemma refresh_unauthorized_no_sign_in :
  (_ensure_tokens_valid (expired_client [unauthorized; sign_in_answer])).1
    = Raise (QvantumApiError
               "Token refresh error: 401 Client Error: Unauthorized for url: https://token.example.org/v1/token?key=KEY")
  /\ trace (_ensure_tokens_valid (expired_client [unauthorized; sign_in_answer])).2
     = [Refresh "https://token.example.org/v1/token?key=KEY" (JStr "RT")].
Proof. split; vm_compute; reflexivity. Qed.

(** ** Tokens: first use, and what a refresh changes *)




(** A body read as JSON came with a status that is no error. *)
Lemma read_json_inr url rp j :
  read_json url rp = inr j ->
  exists r : response,
    rp = Answered r /\ is_error_status (status_code r) = false /\ resp_body r = JsonBody j.
Proof.
  unfold read_json, raise_for_status, response_json.
  destruct rp as [m|m resp|r]; simpl; try discriminate.
  destruct (is_error_status (status_code r)) eqn:Hst; [discriminate|].
  destruct (resp_body r) as [|j'|] eqn:Hbody; try discriminate.
  intros [= <-]. by exists r.
Qed.

Lemma read_json_answered url r j :
  is_error_status (status_code r) = false ->
  resp_body r = JsonBody j ->
  read_json url (Answered r) = inr j.
Proof.
  intros Hst Hj. unfold read_json, raise_for_status, response_json. simpl.
  by rewrite Hst, Hj.
Qed.

(** X2.  A refresh that succeeds replaces three entries of the token set,
    [idToken], [refreshToken] and [expiresIn], by the fields [id_token],
    [refresh_token] and [expires_in] of the answer ([None] for a field the
    answer lacks).  Every other entry of the token set stays as it is, and
    so does the stored expiry: the refresh itself does not renew it. *)
Theorem refresh_keeps_other_keys :
  forall w w' : world,
    _refresh_access_token w = (Ok tt, w') ->
    exists (o o' refresh_data : gmap string json) (r : response) (t : Z),
      net w (length (trace w)) = (Answered r, t)
      /\ resp_body r = JsonBody (JObj refresh_data)
      /\ tokens w = JObj o
      /\ tokens w' = JObj o'
      /\ o' !! "idToken" = Some (default JNull (refresh_data !! "id_token"))
      /\ o' !! "refreshToken" = Some (default JNull (refresh_data !! "refresh_token"))
      /\ o' !! "expiresIn" = Some (default JNull (refresh_data !! "expires_in"))
      /\ (forall k : string,
            k <> "idToken" -> k <> "refreshToken" -> k <> "expiresIn" ->
            o' !! k = o !! k)
      /\ token_expiry w' = token_expiry w.
Proof.
  intros w w'. unfold _refresh_access_token. run.
  destruct (truthy (tokens w)); cbn [negb]; [|discriminate].
  destruct (tokens w) as [| | | | |o] eqn:Etk; try discriminate.
  destruct (py_item (JObj o) "refreshToken") as [rt|]; run; [|discriminate].
  unfold request, exchange.
  destruct (net w (length (trace w))) as [rp t] eqn:Hnet. run.
  destruct (read_json _ rp) as [x|j] eqn:Hj; [discriminate|].
  apply read_json_inr in Hj as (r & -> & _ & Hbody).
  destruct j as [| | | | |d]; try discriminate.
  simpl py_get. run. intros [= <-]. cbn [tokens set_tokens token_expiry].
  rewrite Etk. cbn [update_tokens].
  exists o, (<["expiresIn" := default JNull (d !! "expires_in")]>
               (<["refreshToken" := default JNull (d !! "refresh_token")]>
                  (<["idToken" := default JNull (d !! "id_token")]> o))), d, r, t.
  split; [done|]. split; [done|]. split; [done|]. split; [done|].
  split; [by rewrite 2!lookup_insert_ne, lookup_insert_eq by done|].
  split; [by rewrite lookup_insert_ne, lookup_insert_eq by done|].
  split; [by rewrite lookup_insert_eq|].
  split; [|done].
  intros k H1 H2 H3. by rewrite 3!lookup_insert_ne by done.
Qed.

Lemma refresh_keeps_other_keys_witness :
  exists o' : gmap string json,
    tokens (_refresh_access_token (stale_account [refresh_answer])).2 = JObj o'
    /\ o' !! "localId" = Some (JStr "user-1")
    /\ o' !! "idToken" = Some (JStr "ID2").
Proof.
  destruct (refresh_keeps_other_keys (stale_account [refresh_answer])
              (_refresh_access_token (stale_account [refresh_answer])).2)
    as (o & o' & d & r & t & Hnet & Hbody & Htk & Htk' & Hid & _ & _ & Hkeep & _).
  { apply run_result. vm_compute. reflexivity. }
  exists o'. split; [exact Htk'|].
  assert (o = fold_left (fun m kv => <[kv.1 := kv.2]> m)
                [("idToken", JStr "ID"); ("refreshToken", JStr "RT");
                 ("expiresIn", JStr "3600"); ("localId", JStr "user-1")] ∅) as ->.
  { symmetry. injection Htk as <-. reflexivity. }
  injection Hnet as <- _. simpl in Hbody. injection Hbody as <-.
  split.
  - rewrite Hkeep by discriminate. vm_compute. reflexivity.
  - rewrite Hid. vm_compute. reflexivity.
Defined.

(** X3.  When the answer to a refresh is a JSON object without
    [expires_in], the token set has been overwritten all the same (its
    [expiresIn] is now [None]), and [_ensure_tokens_valid] raises
    [TypeError] from [int(None)]: no sign-in is tried, and the stored expiry
    stays what it was. *)
Theorem refresh_without_lifetime_raises :
  forall (w : world) (rt : json) (r : response) (d : gmap string json) (t : Z),
    truthy (tokens w) = true ->
    tokens_stale w = true ->
    py_item (tokens w) "refreshToken" = Ok rt ->
    net w (length (trace w)) = (Answered r, t) ->
    is_error_status (status_code r) = false ->
    resp_body r = JsonBody (JObj d) ->
    d !! "expires_in" = None ->
    (_ensure_tokens_valid w).1 = Raise TypeError
    /\ trace (_ensure_tokens_valid w).2 = (trace w ++ [Refresh (refresh_url w) rt])%list
    /\ py_item (tokens (_ensure_tokens_valid w).2) "expiresIn" = Ok JNull
    /\ py_item (tokens (_ensure_tokens_valid w).2) "idToken"
       = Ok (default JNull (d !! "id_token"))
    /\ token_expiry (_ensure_tokens_valid w).2 = token_expiry w.
Proof.
  intros w rt r d t Htk Hstale Hrt Hnet Hst Hbody Hnone.
  destruct (tokens w) as [| | | | |o] eqn:Etk; try discriminate.
  set (w1 := set_tokens (update_tokens (default JNull (d !! "id_token"))
                           (default JNull (d !! "refresh_token")) JNull (JObj o))
               (exchange (Refresh (refresh_url w) rt) w).2).
  assert (_refresh_access_token w = (Ok tt, w1)) as Hrefresh.
  { unfold _refresh_access_token. run. rewrite Etk, Htk. cbn [negb]. rewrite Hrt. run.
    unfold request. subst w1. unfold exchange. rewrite Hnet. run.
    rewrite (read_json_answered _ r (JObj d) Hst Hbody). simpl py_get. run.
    cbn [tokens]. by rewrite Etk, Hnone. }
  assert (_ensure_tokens_valid w = (Raise TypeError, w1)) as Hrun.
  { rewrite (ensure_valid_stale w Hstale).
    unfold acquire_tokens, bind, read. rewrite Etk, Htk. unfold try_except.
    rewrite Hrefresh.
    unfold store_expiry, assert_tokens. run.
    subst w1. cbn [tokens set_tokens update_tokens]. run.
    simpl py_item. rewrite lookup_insert_eq. reflexivity. }
  rewrite Hrun. cbn [fst snd]. subst w1. unfold exchange. rewrite Hnet.
  cbn [snd trace tokens set_tokens token_expiry update_tokens py_item].
  split; [done|]. split; [done|]. split; [by rewrite lookup_insert_eq|].
  split; [|done].
  by rewrite 2!lookup_insert_ne, lookup_insert_eq by done.
Qed.

Lemma refresh_without_lifetime_raises_witness :
  (_ensure_tokens_valid (stale_account [refresh_answer_without_lifetime; sign_in_answer])).1
    = Raise TypeError
  /\ trace (_ensure_tokens_valid
              (stale_account [refresh_answer_without_lifetime; sign_in_answer])).2
     = [Refresh "https://token.example.org/v1/token?key=KEY" (JStr "RT")].
Proof.
  destruct (refresh_without_lifetime_raises
              (stale_account [refresh_answer_without_lifetime; sign_in_answer])
              (JStr "RT") (ok_response (JsonBody (dict_of [("id_token", JStr "ID2")])))
              (<["id_token" := JStr "ID2"]> ∅) (seconds 1001))
    as (Hraise & Htrace & _).
  - vm_compute. reflexivity.
  - vm_compute. reflexivity.
  - vm_compute. reflexivity.
  - reflexivity.
  - reflexivity.
  - reflexivity.
  - vm_compute. reflexivity.
  - split; [exact Hraise | exact Htrace].
Defined.

(** ** Failed requests *)

Lemma read_json_error url r :
  is_error_status (status_code r) = true ->
  exists x : request_exception,
    raise_for_status url r = Some x
    /\ exc_msg x = string_of_Z (status_code r)
                   ++ (if Z.ltb (status_code r) 500 then " Client Error: " else " Server Error: ")
                   ++ reason r ++ " for url: " ++ url
    /\ read_json url (Answered r) = inl x
    /\ read_json_or_empty url (Answered r) = inl x.
Proof.
  intros Hst. unfold read_json, read_json_or_empty, exception_of_reply, raise_for_status.
  rewrite Hst. eexists. repeat split.
Qed.

(** X4.  With valid tokens, a response with an error status (400 to 599)
    makes each of the four request methods raise the generic
    [QvantumApiError], its message being [API error: ] followed by the text
    of the HTTP library's error.  A 401 does not raise
    [AuthenticationError] and a 5xx does not raise [ApiConnectionError]:
    the response in the exception is falsy, so the handlers' tests on its
    status are not reached. *)
Theorem http_error_status_raises_generic_error :
  forall (w : world) (endpoint : string) (data tok : json) (r : response) (t : Z),
    tokens_stale w = false ->
    py_item (tokens w) "idToken" = Ok tok ->
    net w (length (trace w)) = (Answered r, t) ->
    400 <= status_code r < 600 ->
    let text (url : string) :=
      "API error: " ++ string_of_Z (status_code r)
      ++ (if Z.ltb (status_code r) 500 then " Client Error: " else " Server Error: ")
      ++ reason r ++ " for url: " ++ url in
    (_get_request endpoint w).1
      = Raise (QvantumApiError (text (api_endpoint w ++ "/" ++ endpoint)))
    /\ (_get_internal_request endpoint w).1
       = Raise (QvantumApiError (text (internal_api_endpoint w ++ "/" ++ endpoint)))
    /\ (_patch_request endpoint data w).1
       = Raise (QvantumApiError (text (api_endpoint w ++ "/" ++ endpoint)))
    /\ (_post_request endpoint data w).1
       = Raise (QvantumApiError (text (api_endpoint w ++ "/" ++ endpoint))).
Proof.
  intros w endpoint data tok r t Hfresh Htok Hnet Hst text.
  assert (is_error_status (status_code r) = true) as Herr.
  { unfold is_error_status. apply andb_true_iff. split; [apply Z.leb_le | apply Z.ltb_lt]; lia. }
  unfold _get_request, _get_internal_request, _patch_request, _post_request, bind.
  rewrite !(prepare_fresh _ _ _ _ Hfresh Htok).
  unfold request, exchange. rewrite Hnet. run.
  destruct (read_json_error (api_endpoint w ++ "/" ++ endpoint) r Herr)
    as (x & Hx & Hmsg & -> & ->).
  destruct (read_json_error (internal_api_endpoint w ++ "/" ++ endpoint) r Herr)
    as (y & Hy & Hmsgy & -> & _).
  unfold finish, raise. cbn [fst].
  rewrite !(http_error_is_generic _ r x _ _ _ _ Hx), (http_error_is_generic _ r y _ _ _ _ Hy).
  rewrite Hmsg, Hmsgy. done.
Qed.

Lemma http_error_status_raises_generic_error_witness :
  (_get_request "devices"
     (client_facing [Answered (error_response 401 "Unauthorized")])).1
    = Raise (QvantumApiError
               "API error: 401 Client Error: Unauthorized for url: https://api.example.org/devices")
  /\ (_post_request "devices" JNull
        (client_facing [Answered (error_response 503 "Service Unavailable")])).1
     = Raise (QvantumApiError
                "API error: 503 Server Error: Service Unavailable for url: https://api.example.org/devices").
Proof.
  split.
  - refine (proj1 (http_error_status_raises_generic_error
             (client_facing [Answered (error_response 401 "Unauthorized")])
             "devices" JNull (JStr "ID") (error_response 401 "Unauthorized")
             (seconds 1001) _ _ _ _)).
    + vm_compute. reflexivity.
    + vm_compute. reflexivity.
    + vm_compute. reflexivity.
    + simpl. lia.
  - refine (proj2 (proj2 (proj2 (http_error_status_raises_generic_error
             (client_facing [Answered (error_response 503 "Service Unavailable")])
             "devices" JNull (JStr "ID") (error_response 503 "Service Unavailable")
             (seconds 1001) _ _ _ _)))).
    + vm_compute. reflexivity.
    + vm_compute. reflexivity.
    + vm_compute. reflexivity.
    + simpl. lia.
Defined.

(** X5.  With valid tokens, a request that times out makes each of the
    four request methods raise [ApiConnectionError] with the message
    [Request timeout: ...], after that one request: nothing is retried.  A
    request that fails without any response (a refused connection, say)
    raises the generic [QvantumApiError], not [ApiConnectionError]. *)
Theorem request_failure_classes :
  forall (w : world) (endpoint : string) (data tok : json) (msg : string) (t : Z),
    tokens_stale w = false ->
    py_item (tokens w) "idToken" = Ok tok ->
    (net w (length (trace w)) = (TimedOut msg, t) ->
       let e := ApiConnectionError ("Request timeout: " ++ msg) in
       ((_get_request endpoint w).1 = Raise e
        /\ trace (_get_request endpoint w).2
           = (trace w ++ [ApiGet (api_endpoint w ++ "/" ++ endpoint)])%list)
       /\ ((_get_internal_request endpoint w).1 = Raise e
           /\ trace (_get_internal_request endpoint w).2
              = (trace w ++ [ApiGetInternal (internal_api_endpoint w ++ "/" ++ endpoint)])%list)
       /\ ((_patch_request endpoint data w).1 = Raise e
           /\ trace (_patch_request endpoint data w).2
              = (trace w ++ [ApiPatch (api_endpoint w ++ "/" ++ endpoint) data])%list)
       /\ ((_post_request endpoint data w).1 = Raise e
           /\ trace (_post_request endpoint data w).2
              = (trace w ++ [ApiPost (api_endpoint w ++ "/" ++ endpoint) data])%list))
    /\ (net w (length (trace w)) = (Failed msg None, t) ->
          let e := QvantumApiError ("API error: " ++ msg) in
          (_get_request endpoint w).1 = Raise e
          /\ (_get_internal_request endpoint w).1 = Raise e
          /\ (_patch_request endpoint data w).1 = Raise e
          /\ (_post_request endpoint data w).1 = Raise e).
Proof.
  intros w endpoint data tok msg t Hfresh Htok.
  split; intros Hnet e;
    unfold _get_request, _get_internal_request, _patch_request, _post_request, bind;
    rewrite !(prepare_fresh _ _ _ _ Hfresh Htok);
    unfold request, exchange; rewrite Hnet; run;
    unfold finish, read_json, read_json_or_empty, exception_of_reply, translate_exception,
      response_status_is; cbn; done.
Qed.

Lemma request_failure_classes_witness :
  (_post_request "devices" JNull (client_facing [])).1
    = Raise (ApiConnectionError "Request timeout: timed out")
  /\ (_get_request "devices" (client_facing [Failed "Connection refused" None])).1
     = Raise (QvantumApiError "API error: Connection refused").
Proof.
  split.
  - refine (proj1 (proj2 (proj2 (proj2 (proj1 (request_failure_classes
             (client_facing []) "devices" JNull (JStr "ID") "timed out" (seconds 1001) _ _)
             _))))).
    + vm_compute. reflexivity.
    + vm_compute. reflexivity.
    + vm_compute. reflexivity.
  - refine (proj1 (proj2 (request_failure_classes
             (client_facing [Failed "Connection refused" None]) "devices" JNull (JStr "ID")
             "Connection refused" (seconds 1001) _ _) _)).
    + vm_compute. reflexivity.
    + vm_compute. reflexivity.
    + vm_compute. reflexivity.
Defined.

(** ** Commands: what is posted *)




(** ** [set_setting] when the setting is not denied *)

(** X7.  When the answer to the command does not deny the setting --
    it is empty, or has no [response] member, or its entry for the setting
    is anything but [permission denied], whatever it says of other settings
    -- [set_setting] returns that answer.  The command, carrying the
    coerced value, has been posted once, and no request of the access
    handshake was sent. *)
Theorem set_setting_without_denial :
  forall (device_id setting : string) (value v response : json) (w w1 : world),
    coerce_value value = Ok v ->
    let path := command_path device_id in
    let payload := setting_payload setting v in
    _post_request path payload w = (Ok response, w1) ->
    (has_response_member response = Ok false
     \/ exists per_setting setting_response : json,
          py_item response "response" = Ok per_setting
          /\ py_get per_setting setting JNull = Ok setting_response
          /\ setting_response <> JStr "permission denied") ->
    set_setting device_id setting value w = (Ok response, w1)
    /\ api_requests (trace w1)
       = (api_requests (trace w) ++ [ApiPost (api_endpoint w ++ "/" ++ path) payload])%list.
Proof.
  intros device_id setting value v response w w1 Hv path payload Hpost Hcase.
  split; [|exact (proj2 (post_ok _ _ _ _ _ Hpost))].
  unfold set_setting. unfold bind at 1, lift at 1. rewrite Hv.
  unfold bind at 1. fold path payload. rewrite Hpost.
  unfold bind at 1, lift at 1.
  destruct Hcase as [-> | (per & s & Hitem & Hget & Hne)]; [reflexivity|].
  rewrite (has_response_member_item _ _ Hitem).
  unfold bind at 1, lift at 1. rewrite Hitem.
  unfold bind at 1, lift at 1. rewrite Hget.
  destruct (eq_str s "permission denied") eqn:E; [|reflexivity].
  destruct s as [| | |s'| |]; try discriminate. simpl in E.
  apply String.eqb_eq in E. by subst.
Qed.

Lemma set_setting_without_denial_witness :
  (set_setting "dev" "use_adaptive" (JStr "1") (client_facing [answer mixed_response])).1
    = Ok mixed_response
  /\ api_requests (trace (set_setting "dev" "use_adaptive" (JStr "1")
                            (client_facing [answer mixed_response])).2)
     = [ApiPost example_command_url (setting_payload "use_adaptive" (JNum 1))].
Proof.
  set (w := client_facing [answer mixed_response]).
  destruct (set_setting_without_denial "dev" "use_adaptive" (JStr "1") (JNum 1)
              mixed_response w
              (_post_request (command_path "dev") (setting_payload "use_adaptive" (JNum 1)) w).2)
    as [Hrun Hreq].
  - vm_compute. reflexivity.
  - apply (run_result (_post_request (command_path "dev")
                         (setting_payload "use_adaptive" (JNum 1))) w (Ok mixed_response)).
    vm_compute. reflexivity.
  - right. exists (dict_of [("use_adaptive", JStr "ok");
                            ("smart_dhw_mode", JStr "permission denied")]), (JStr "ok").
    split; [vm_compute; reflexivity|]. split; [vm_compute; reflexivity | discriminate].
  - rewrite Hrun. cbn [fst snd]. split; [reflexivity|]. exact Hreq.
Defined.

(** ** [set_smartcontrol] *)

Lemma eq_str_spec (j : json) (s : string) : eq_str j s = true <-> j = JStr s.
Proof.
  destruct j; simpl; try (split; discriminate).
  rewrite String.eqb_eq. split; [by intros -> | by intros [= ->]].
Qed.

Lemma has_permission_denied_from entries acc :
  fold_left (fun denied (entry : string * json) =>
               if eq_str entry.2 "permission denied" then true else denied)
            entries acc
  = acc || existsb (fun entry : string * json => eq_str entry.2 "permission denied") entries.
Proof.
  revert acc. induction entries as [|entry entries IH]; intros acc; simpl.
  - by rewrite orb_false_r.
  - rewrite IH. destruct (eq_str entry.2 _), acc; simpl; reflexivity.
Qed.

(** The loop finds a denial exactly when some entry is one. *)
Lemma has_permission_denied_spec (per_setting : gmap string json) :
  has_permission_denied (map_to_list per_setting) = true
  <-> exists name : string, per_setting !! name = Some (JStr "permission denied").
Proof.
  unfold has_permission_denied. rewrite has_permission_denied_from. simpl.
  rewrite existsb_exists. split.
  - intros ([name v] & Hin & Heq). simpl in Heq. apply eq_str_spec in Heq as ->.
    exists name. by apply elem_of_map_to_list, list_elem_of_In.
  - intros (name & Hname). exists (name, JStr "permission denied"). split.
    + by apply list_elem_of_In, elem_of_map_to_list.
    + reflexivity.
Qed.

(** X8.  When the answer to the SmartControl command denies any one of
    its settings, [set_smartcontrol] calls [elevate_access] once.  On a
    truthy result the same command is posted once more and the outcome of
    that post is the outcome of the method: two command posts at most, and
    exactly two when the second is answered.  On a falsy result the first
    answer is returned after exactly one command post.  An exception of the
    elevation is raised to the caller. *)
Theorem set_smartcontrol_permission_denied :
  forall (device_id : string) (sh dhw : Z) (response : json)
         (per_setting : gmap string json) (name : string) (w w1 : world),
    let path := command_path device_id in
    let payload := smartcontrol_payload sh dhw in
    let command_url := api_endpoint w ++ "/" ++ path in
    _post_request path payload w = (Ok response, w1) ->
    py_item response "response" = Ok (JObj per_setting) ->
    per_setting !! name = Some (JStr "permission denied") ->
    (forall (elevated : json) (w2 : world),
       elevate_access device_id w1 = (Ok elevated, w2) ->
       (truthy elevated = true ->
          set_smartcontrol device_id sh dhw w = _post_request path payload w2
          /\ (posts_to command_url (trace (set_smartcontrol device_id sh dhw w).2)
              <= posts_to command_url (trace w) + 2)%nat
          /\ (forall r, (set_smartcontrol device_id sh dhw w).1 = Ok r ->
                posts_to command_url (trace (set_smartcontrol device_id sh dhw w).2)
                = (posts_to command_url (trace w) + 2)%nat))
       /\ (truthy elevated = false ->
             set_smartcontrol device_id sh dhw w = (Ok response, w2)
             /\ posts_to command_url (trace w2)
                = (posts_to command_url (trace w) + 1)%nat))
    /\ (forall (e : exn) (w2 : world),
          elevate_access device_id w1 = (Raise e, w2) ->
          set_smartcontrol device_id sh dhw w = (Raise e, w2)).
Proof.
  intros device_id sh dhw response per_setting name w w1 path payload command_url
    Hpost Hitem Hdenied.
  assert (has_permission_denied (map_to_list per_setting) = true) as Hloop.
  { apply has_permission_denied_spec. by exists name. }
  assert (set_smartcontrol device_id sh dhw w =
            (let* elevated := elevate_access device_id in
             if truthy elevated then _post_request path payload else ret response) w1)
    as Hset.
  { unfold set_smartcontrol. unfold bind at 1. fold path payload. rewrite Hpost.
    unfold bind at 1, lift at 1. rewrite (has_response_member_item _ _ Hitem).
    unfold bind at 1, lift at 1. rewrite Hitem.
    unfold bind at 1, lift at 1. simpl py_items. cbv iota beta.
    rewrite Hloop. reflexivity. }
  destruct (post_counts command_url path payload w) as (Hc1 & _ & _ & Hone).
  rewrite Hpost in Hc1, Hone. cbn [fst snd] in Hc1, Hone.
  specialize (Hone response eq_refl eq_refl).
  destruct (endpoints_eq _ _ Hc1) as [Ha1 _].
  pose proof (elevate_access_quiet device_id device_id w1) as [Hc2 Hq2].
  rewrite Ha1 in Hq2. fold path command_url in Hq2.
  split.
  - intros elevated w2 Helev. rewrite Helev in Hc2, Hq2. cbn [fst snd] in Hc2, Hq2.
    split.
    + intros Htruthy.
      assert (set_smartcontrol device_id sh dhw w = _post_request path payload w2) as E.
      { rewrite Hset. unfold bind. by rewrite Helev, Htruthy. }
      split; [exact E|]. rewrite E.
      destruct (post_counts command_url path payload w2) as (_ & Hle & _ & Hok).
      destruct (endpoints_eq _ _ Hc2) as [Ha2 _].
      split; [lia|].
      intros r Hr. rewrite (Hok r Hr); [lia|].
      subst command_url. by rewrite Ha2, Ha1.
    + intros Hfalsy. split; [|lia].
      rewrite Hset. unfold bind. by rewrite Helev, Hfalsy.
  - intros e w2 Helev. rewrite Hset. unfold bind. by rewrite Helev.
Qed.

Lemma set_smartcontrol_permission_denied_witness :
  (set_smartcontrol "dev" 1 1
     (client_facing [answer mixed_response; answer (access_level 20);
                     answer (accepted_response "use_adaptive")])).1
    = Ok (accepted_response "use_adaptive")
  /\ posts_to example_command_url
       (trace (set_smartcontrol "dev" 1 1
                 (client_facing [answer mixed_response; answer (access_level 20);
                                 answer (accepted_response "use_adaptive")])).2) = 2%nat.
Proof.
  set (w := client_facing [answer mixed_response; answer (access_level 20);
                           answer (accepted_response "use_adaptive")]).
  set (w1 := (_post_request (command_path "dev") (smartcontrol_payload 1 1) w).2).
  set (w2 := (elevate_access "dev" w1).2).
  destruct (set_smartcontrol_permission_denied "dev" 1 1 mixed_response
              (<["smart_dhw_mode" := JStr "permission denied"]>
                 (<["use_adaptive" := JStr "ok"]> ∅))
              "smart_dhw_mode" w w1) as [Helev _].
  { apply (run_result (_post_request (command_path "dev") (smartcontrol_payload 1 1)) w
             (Ok mixed_response)).
    vm_compute. reflexivity. }
  { vm_compute. reflexivity. }
  { vm_compute. reflexivity. }
  destruct (Helev (access_level 20) w2) as [Hretry _].
  { apply (run_result (elevate_access "dev") w1 (Ok (access_level 20))).
    vm_compute. reflexivity. }
  destruct (Hretry eq_refl) as (E & _ & Htwo).
  assert ((_post_request (command_path "dev") (smartcontrol_payload 1 1) w2).1
          = Ok (accepted_response "use_adaptive")) as Hsecond
    by (vm_compute; reflexivity).
  rewrite E in Htwo |- *. split; [exact Hsecond|].
  change example_command_url with (api_endpoint w ++ "/" ++ command_path "dev").
  rewrite (Htwo _ Hsecond). reflexivity.
Defined.

(** X9.  When the answer to the SmartControl command denies nothing,
    [set_smartcontrol] returns it after the one command post, without any
    request of the access handshake.  The command carries
    [use_adaptive = False] alone as soon as one of the two modes is [-1]:
    the other mode is then not sent.  With both modes set it carries
    [use_adaptive = True] and the two modes. *)
Theorem set_smartcontrol_without_denial :
  forall (device_id : string) (sh dhw : Z) (response : json) (w w1 : world),
    let path := command_path device_id in
    _post_request path (smartcontrol_payload sh dhw) w = (Ok response, w1) ->
    (has_response_member response = Ok false
     \/ exists per_setting : gmap string json,
          py_item response "response" = Ok (JObj per_setting)
          /\ forall name : string, per_setting !! name <> Some (JStr "permission denied")) ->
    let command (settings : json) :=
      ApiPost (api_endpoint w ++ "/" ++ path)
        (dict_of [("command", dict_of [("update_settings", settings)])]) in
    set_smartcontrol device_id sh dhw w = (Ok response, w1)
    /\ (sh = -1 \/ dhw = -1 ->
        api_requests (trace w1)
        = (api_requests (trace w) ++ [command (dict_of [("use_adaptive", JBool false)])])%list)
    /\ (sh <> -1 -> dhw <> -1 ->
        api_requests (trace w1)
        = (api_requests (trace w)
             ++ [command (dict_of [("use_adaptive", JBool true);
                                   ("smart_sh_mode", JNum sh);
                                   ("smart_dhw_mode", JNum dhw)])])%list).
Proof.
  intros device_id sh dhw response w w1 path Hpost Hcase command.
  pose proof (proj2 (post_ok _ _ _ _ _ Hpost)) as Hreq.
  split; [|split].
  - unfold set_smartcontrol. unfold bind at 1. fold path. rewrite Hpost.
    unfold bind at 1, lift at 1.
    destruct Hcase as [-> | (per & Hitem & Hnone)]; [reflexivity|].
    rewrite (has_response_member_item _ _ Hitem).
    unfold bind at 1, lift at 1. rewrite Hitem.
    unfold bind at 1, lift at 1. simpl py_items. cbv iota beta.
    destruct (has_permission_denied (map_to_list per)) eqn:E; [|reflexivity].
    apply has_permission_denied_spec in E as (name & Hname). by destruct (Hnone name).
  - intros Hoff. rewrite Hreq. unfold command, smartcontrol_payload, smartcontrol_settings.
    assert (negb (Z.eqb sh (-1)) && negb (Z.eqb dhw (-1)) = false) as ->; [|reflexivity].
    destruct Hoff as [-> | ->]; [reflexivity | by rewrite andb_false_r].
  - intros Hsh Hdhw. rewrite Hreq.
    unfold command, smartcontrol_payload, smartcontrol_settings.
    apply Z.eqb_neq in Hsh, Hdhw. by rewrite Hsh, Hdhw.
Qed.

Lemma set_smartcontrol_without_denial_witness :
  (set_smartcontrol "dev" (-1) 2 (client_facing [empty_answer])).1 = Ok empty_dict
  /\ api_requests (trace (set_smartcontrol "dev" (-1) 2 (client_facing [empty_answer])).2)
     = [ApiPost example_command_url
          (dict_of [("command",
                     dict_of [("update_settings", dict_of [("use_adaptive", JBool false)])])])].
Proof.
  set (w := client_facing [empty_answer]).
  destruct (set_smartcontrol_without_denial "dev" (-1) 2 empty_dict w
              (_post_request (command_path "dev") (smartcontrol_payload (-1) 2) w).2)
    as (Hrun & Hoff & _).
  - apply (run_result (_post_request (command_path "dev") (smartcontrol_payload (-1) 2)) w
             (Ok empty_dict)).
    vm_compute. reflexivity.
  - left. vm_compute. reflexivity.
  - rewrite Hrun. cbn [fst snd]. split; [reflexivity|].
    rewrite Hoff by (left; reflexivity). reflexivity.
Defined.

(** ** The handshake steps and API errors *)

Lemma guarded_no_api_error {A} (m : M A) (fallback : A) w e :
  (try_except m (on_api_error fallback) w).1 = Raise e -> is_api_error e = false.
Proof.
  unfold try_except, on_api_error.
  destruct (m w) as [[a|e'] w1]; [discriminate|].
  destruct (is_api_error e') eqn:E; [discriminate|]. by intros [= <-].
Qed.

Lemma guarded_fallback {A} (m : M A) (fallback : A) w e :
  (m w).1 = Raise e -> is_api_error e = true ->
  try_except m (on_api_error fallback) w = (Ok fallback, (m w).2).
Proof.
  unfold try_except, on_api_error.
  destruct (m w) as [[a|e'] w1]; [discriminate|]. cbn [fst snd].
  by intros [= ->] ->.
Qed.

(** X10.  The three [POST] steps of the handshake never raise an API
    error: when the request fails with one, [_generate_access_code]
    returns [None] and [_claim_grant] and [_approve_access] return
    [False].  The access-level fetch at the start of [elevate_access] has
    no such guard: an exception it raises is raised by [elevate_access],
    which then returns nothing, not even [None]. *)
Theorem handshake_steps_swallow_api_errors :
  forall (device_id : string) (access_code : json) (w : world),
    (forall e : exn,
       ((_generate_access_code device_id w).1 = Raise e -> is_api_error e = false)
       /\ ((_claim_grant device_id access_code w).1 = Raise e -> is_api_error e = false)
       /\ ((_approve_access device_id access_code w).1 = Raise e -> is_api_error e = false))
    /\ (forall e : exn,
          is_api_error e = true ->
          ((_post_request (generate_code_path device_id) empty_dict w).1 = Raise e ->
             (_generate_access_code device_id w).1 = Ok JNull)
          /\ ((_post_request (claim_grant_path access_code) empty_dict w).1 = Raise e ->
                (_claim_grant device_id access_code w).1 = Ok false)
          /\ ((_post_request (approve_path device_id access_code) empty_dict w).1 = Raise e ->
                (_approve_access device_id access_code w).1 = Ok false))
    /\ (forall (e : exn) (w1 : world),
          get_access_level device_id w = (Raise e, w1) ->
          elevate_access device_id w = (Raise e, w1)).
Proof.
  intros device_id access_code w. split; [|split].
  - intros e. repeat split; apply guarded_no_api_error.
  - intros e He.
    assert (forall (A : Type) (m : M json) (k : M A) (fallback : A),
              (m w).1 = Raise e ->
              (try_except (m;; k) (on_api_error fallback) w).1 = Ok fallback) as Hseq.
    { intros A m k fallback Hm.
      rewrite (guarded_fallback _ fallback w e); [done| |done].
      unfold bind. destruct (m w) as [[a|e'] w1]; [discriminate|].
      cbn [fst] in *. by injection Hm as ->. }
    split; [|split].
    + intros Hpost. unfold _generate_access_code.
      by rewrite (guarded_fallback _ JNull w e Hpost He).
    + apply Hseq.
    + apply Hseq.
  - intros e w1 Hget. unfold elevate_access, bind. by rewrite Hget.
Qed.

Lemma handshake_steps_swallow_api_errors_witness :
  (_generate_access_code "dev" (client_facing [])).1 = Ok JNull
  /\ (_claim_grant "dev" (JStr "c0de") (client_facing [])).1 = Ok false
  /\ (elevate_access "dev" (client_facing [])).1
     = Raise (ApiConnectionError "Request timeout: timed out").
Proof.
  destruct (handshake_steps_swallow_api_errors "dev" (JStr "c0de") (client_facing []))
    as (_ & Hnone & Hraise).
  destruct (Hnone (ApiConnectionError "Request timeout: timed out") eq_refl)
    as (Hgen & Hclaim & _).
  split; [|split].
  - apply Hgen. vm_compute. reflexivity.
  - apply Hclaim. vm_compute. reflexivity.
  - rewrite (Hraise (ApiConnectionError "Request timeout: timed out")
               (get_access_level "dev" (client_facing [])).2); [reflexivity|].
    apply run_result. vm_compute. reflexivity.
Defined.

(** ** [get_devices] *)

(** X11.  [get_devices] returns the [devices] member of the answer, and
    the empty list when the answer is a dict without that member.  It
    raises [AttributeError] when the answer is no dict, and [TypeError]
    when [devices] is [null] or a number, whose length the log line asks
    for. *)
Theorem get_devices_result :
  forall (w w1 : world) (response : json),
    _get_request devices_path w = (Ok response, w1) ->
    (forall (o : gmap string json),
       response = JObj o ->
       (o !! "devices" = None -> get_devices w = (Ok (JArr []), w1))
       /\ (forall l, o !! "devices" = Some (JArr l) -> get_devices w = (Ok (JArr l), w1))
       /\ (o !! "devices" = Some JNull -> get_devices w = (Raise TypeError, w1))
       /\ (forall n, o !! "devices" = Some (JNum n) -> get_devices w = (Raise TypeError, w1)))
    /\ ((forall o, response <> JObj o) -> get_devices w = (Raise AttributeError, w1)).
Proof.
  intros w w1 response Hget. unfold get_devices, bind. rewrite Hget. split.
  - intros o ->. unfold lift. simpl py_get.
    split; [|split; [|split]].
    + by intros ->.
    + by intros l ->.
    + by intros ->.
    + by intros n ->.
  - intros Hno. destruct response; try reflexivity. by destruct (Hno o).
Qed.

Lemma get_devices_result_witness :
  (get_devices (fresh_client (JsonBody empty_dict))).1 = Ok (JArr [])
  /\ (get_devices (fresh_client (JsonBody (JArr [])))).1 = Raise AttributeError.
Proof.
  split.
  - destruct (get_devices_result (fresh_client (JsonBody empty_dict))
                (_get_request devices_path (fresh_client (JsonBody empty_dict))).2 empty_dict)
      as [Hdict _].
    { apply run_result. vm_compute. reflexivity. }
    destruct (Hdict ∅ eq_refl) as [Hnone _].
    rewrite Hnone; [reflexivity | apply lookup_empty].
  - destruct (get_devices_result (fresh_client (JsonBody (JArr [])))
                (_get_request devices_path (fresh_client (JsonBody (JArr [])))).2 (JArr []))
      as [_ Hother].
    { apply run_result. vm_compute. reflexivity. }
    rewrite Hother; [reflexivity | discriminate].
Defined.

(** ** Start-up *)

Lemma discover_sign_in_failed w e :
  (authenticate w).1 = Raise e ->
  discover_devices w
  = ((if is_authentication_error e then Ok NotReady else Raise e), (authenticate w).2).
Proof.
  unfold discover_devices. unfold bind at 1, try_except, bind.
  destruct (authenticate w) as [[[]|e'] w1]; [discriminate|]. cbn [fst snd].
  intros [= ->]. by destruct (is_authentication_error e).
Qed.

Lemma authenticate_raises w rp t x :
  net w (length (trace w)) = (rp, t) ->
  read_json (sign_in_url w) rp = inl x ->
  (authenticate w).1
  = Raise (translate_exception "Authentication timeout: " "Invalid credentials"
             (fun _ m => "Server error during authentication: " ++ m)
             "Authentication error: " x).
Proof.
  intros Hnet Hx. unfold authenticate. run. unfold request, exchange.
  rewrite Hnet. run. by rewrite Hx.
Qed.

(** X12.  How the start-up ends after the sign-in and the device
    discovery.  A sign-in that times out, or that is answered with an error
    status, does not end in
    [ConfigEntryNotReady]: the handler there catches [AuthenticationError]
    only, and the API error raised escapes the set-up.  Only an exception
    whose response is truthy with status 401 gives [ConfigEntryNotReady].
    After a sign-in that went through, an API error of [get_devices] gives
    [ConfigEntryNotReady], an empty result stops the set-up for want of
    devices, and any other result goes on. *)
Theorem discovery_outcomes :
  forall (w : world) (rp : reply) (t : Z),
    net w (length (trace w)) = (rp, t) ->
    (forall msg : string,
       rp = TimedOut msg ->
       (discover_devices w).1
       = Raise (ApiConnectionError ("Authentication timeout: " ++ msg)))
    /\ (forall r : response,
          rp = Answered r ->
          400 <= status_code r < 600 ->
          (discover_devices w).1
          = Raise (QvantumApiError
                     ("Authentication error: " ++ string_of_Z (status_code r)
                      ++ (if Z.ltb (status_code r) 500
                          then " Client Error: " else " Server Error: ")
                      ++ reason r ++ " for url: " ++ sign_in_url w)))
    /\ (forall msg : string,
          rp = Failed msg (Some (true, 401)) ->
          (discover_devices w).1 = Ok NotReady)
    /\ (forall w1 : world,
          authenticate w = (Ok tt, w1) ->
          (forall e : exn,
             (get_devices w1).1 = Raise e ->
             is_api_error e = true ->
             (discover_devices w).1 = Ok NotReady)
          /\ (forall devices : json,
                (get_devices w1).1 = Ok devices ->
                (discover_devices w).1
                = Ok (if truthy devices then Discovered devices else NoDevices))).
Proof.
  intros w rp t Hnet. split; [|split; [|split]].
  - intros msg ->.
    rewrite (discover_sign_in_failed w
               (ApiConnectionError ("Authentication timeout: " ++ msg))); [done|].
    by rewrite (authenticate_raises w _ t _ Hnet eq_refl).
  - intros r -> Hst.
    assert (is_error_status (status_code r) = true) as Herr.
    { unfold is_error_status. apply andb_true_iff.
      split; [apply Z.leb_le | apply Z.ltb_lt]; lia. }
    destruct (read_json_error (sign_in_url w) r Herr) as (x & Hx & Hmsg & Hread & _).
    pose proof (authenticate_raises w _ t x Hnet Hread) as Hraise.
    rewrite (http_error_is_generic _ r x _ _ _ _ Hx), Hmsg in Hraise.
    by rewrite (discover_sign_in_failed w _ Hraise).
  - intros msg ->.
    rewrite (discover_sign_in_failed w (AuthenticationError "Invalid credentials")); [done|].
    by rewrite (authenticate_raises w _ t _ Hnet eq_refl).
  - intros w1 Hauth.
    assert (discover_devices w =
              (let* found :=
                 try_except (let* devices := get_devices in ret (Some devices))
                   (fun err => if is_api_error err then Some (ret None) else None) in
               match found with
               | None => ret NotReady
               | Some devices =>
                   if truthy devices then ret (Discovered devices) else ret NoDevices
               end) w1) as E.
    { unfold discover_devices. unfold bind at 1, try_except, bind at 1.
      by rewrite Hauth. }
    rewrite E. unfold bind at 1 3, try_except, bind. split.
    + intros e He Hapi. destruct (get_devices w1) as [[d|e'] w2]; [discriminate|].
      injection He as ->. by rewrite Hapi.
    + intros devices Hd. destruct (get_devices w1) as [[d|e'] w2]; [|discriminate].
      injection Hd as ->. unfold ret. by destruct (truthy devices).
Qed.

Lemma discovery_outcomes_witness :
  (discover_devices (new_client [Answered (error_response 400 "Bad Request")])).1
    = Raise (QvantumApiError
               "Authentication error: 400 Client Error: Bad Request for url: https://auth.example.org/v1/accounts:signInWithPassword?key=KEY")
  /\ (discover_devices (new_client [])).1
     = Raise (ApiConnectionError "Authentication timeout: timed out").
Proof.
  split.
  - refine (proj1 (proj2 (discovery_outcomes
             (new_client [Answered (error_response 400 "Bad Request")])
             (Answered (error_response 400 "Bad Request")) (seconds 1001) _))
             (error_response 400 "Bad Request") _ _).
    + vm_compute. reflexivity.
    + reflexivity.
    + simpl. lia.
  - refine (proj1 (discovery_outcomes (new_client []) (TimedOut "timed out")
                     (seconds 1001) _) "timed out" _).
    + vm_compute. reflexivity.
    + reflexivity.
Defined.

(** ** The coordinator: which calls a cycle makes *)

Section Confined.

Variable Inv : coordinator -> Prop.
Variable Allowed : api_call -> Prop.

Hypothesis Inv_call : forall p c, Inv p -> Inv (call c p).2.
Hypothesis Inv_data : forall p d, Inv p -> Inv (set_data d p).

Lemma confined_still {A} (m : C A) :
  (forall p, (m p).2 = p) -> confined Inv Allowed m.
Proof.
  intros Hm p Hp. rewrite Hm. split; [done|]. exists []. by rewrite app_nil_r.
Qed.

Lemma confined_ret {A} (a : A) : confined Inv Allowed (ret a).
Proof. by apply confined_still. Qed.

Lemma confined_raise {A} (e : exn) : confined Inv Allowed (@raise coordinator A e).
Proof. by apply confined_still. Qed.

Lemma confined_lift {A} (r : res A) : confined Inv Allowed (lift r).
Proof. by apply confined_still. Qed.

Lemma confined_read {A} (f : coordinator -> A) : confined Inv Allowed (read f).
Proof. by apply confined_still. Qed.

Lemma confined_call (c : api_call) : Allowed c -> confined Inv Allowed (call c).
Proof.
  intros Hc p Hp. split; [by apply Inv_call|]. exists [c].
  unfold call. destruct (api p _). cbn [snd calls]. split; [done|]. by constructor.
Qed.

Lemma confined_modify (f : coordinator -> coordinator) :
  (forall p, Inv p -> Inv (f p)) -> (forall p, calls (f p) = calls p) ->
  confined Inv Allowed (modify f).
Proof.
  intros Hf Hc p Hp. unfold modify. cbn [snd]. split; [by apply Hf|].
  exists []. by rewrite Hc, app_nil_r.
Qed.

Lemma confined_store (key : string) (value : json) : confined Inv Allowed (store key value).
Proof. apply confined_modify; [intros; by apply Inv_data | done]. Qed.

Lemma confined_bind {A B} (m : C A) (k : A -> C B) :
  confined Inv Allowed m -> (forall a, confined Inv Allowed (k a)) ->
  confined Inv Allowed (bind m k).
Proof.
  intros Hm Hk p Hp. destruct (Hm p Hp) as [H1 (l1 & E1 & F1)]. unfold bind.
  destruct (m p) as [[a|e] p1]; cbn [snd] in *.
  - destruct (Hk a p1 H1) as [H2 (l2 & E2 & F2)]. split; [done|].
    exists (l1 ++ l2)%list. rewrite E2, E1, <- app_assoc. split; [done|].
    by apply Forall_app.
  - split; [done|]. by exists l1.
Qed.

Lemma confined_try {A} (m : C A) (handler : exn -> option (C A)) :
  confined Inv Allowed m ->
  (forall e h, handler e = Some h -> confined Inv Allowed h) ->
  confined Inv Allowed (try_except m handler).
Proof.
  intros Hm Hh p Hp. destruct (Hm p Hp) as [H1 (l1 & E1 & F1)]. unfold try_except.
  destruct (m p) as [[a|e] p1]; cbn [snd] in *.
  - split; [done|]. by exists l1.
  - destruct (handler e) as [h|] eqn:E; [|split; [done|]; by exists l1].
    destruct (Hh e h E p1 H1) as [H2 (l2 & E2 & F2)]. split; [done|].
    exists (l1 ++ l2)%list. rewrite E2, E1, <- app_assoc. split; [done|].
    by apply Forall_app.
Qed.

Lemma confined_except {A} (h : C A) e h' :
  confined Inv Allowed h -> except_api_error h e = Some h' -> confined Inv Allowed h'.
Proof. unfold except_api_error. destruct (is_api_error e); [|done]. by intros ? [= <-]. Qed.

Lemma confined_if {A} (b : bool) (m1 m2 : C A) :
  confined Inv Allowed m1 -> confined Inv Allowed m2 ->
  confined Inv Allowed (if b then m1 else m2).
Proof. by destruct b. Qed.

Ltac confined_auto :=
  repeat first
    [ apply confined_ret | apply confined_raise | apply confined_lift
    | apply confined_read | apply confined_store
    | apply confined_call; assumption
    | apply confined_if
    | apply confined_bind; [|intros]
    | apply confined_try; [|intros ? ? ?; eapply confined_except; [|eassumption]] ].

Lemma fetch_internal_metrics_confined names :
  Allowed (GetInternalMetrics names) -> confined Inv Allowed (fetch_internal_metrics names).
Proof.
  intros Hc. unfold fetch_internal_metrics. apply confined_try; [confined_auto|].
  intros e h. destruct (is_api_error e); [|done]. intros [= <-]. confined_auto.
Qed.

Lemma fetch_status_confined : Allowed GetStatus -> confined Inv Allowed fetch_status.
Proof. intros Hc. unfold fetch_status. confined_auto. Qed.

Lemma fetch_settings_confined : Allowed GetSettings -> confined Inv Allowed fetch_settings.
Proof. intros Hc. unfold fetch_settings. confined_auto. Qed.

Lemma fetch_alarms_confined : Allowed GetAlarms -> confined Inv Allowed fetch_alarms.
Proof. intros Hc. unfold fetch_alarms. confined_auto. Qed.

(** An inventory whose fetch is allowed, and whose cache the invariant does
    not speak of. *)
Lemma fetch_inventory_confined key c cache set_cache log :
  Allowed c ->
  (forall j p, Inv p -> Inv (set_cache j p)) ->
  (forall j p, calls (set_cache j p) = calls p) ->
  confined Inv Allowed (fetch_inventory key c cache set_cache log).
Proof.
  intros Hc Hset Hcalls. unfold fetch_inventory.
  apply confined_bind; [apply confined_read|]. intros cached.
  apply confined_bind; [|intros; confined_auto].
  destruct cached; try apply confined_ret.
  apply confined_try.
  - apply confined_bind; [by apply confined_call|]. intros inventory.
    apply confined_bind; [|intros; apply confined_lift].
    apply confined_modify; [intros; by apply Hset | intros; apply Hcalls].
  - intros e h. apply confined_except.
    apply confined_modify; [intros; by apply Hset | intros; apply Hcalls].
Qed.

(** An inventory that the invariant says is cached: its fetch is not
    made. *)
Lemma fetch_inventory_cached key c cache set_cache log :
  (forall p, Inv p -> is_none (cache p) = false) ->
  confined Inv Allowed (fetch_inventory key c cache set_cache log).
Proof.
  intros Hcached p Hp. pose proof (Hcached p Hp) as Hsome.
  unfold fetch_inventory, bind, read, store, modify.
  destruct (cache p) eqn:E; try discriminate; cbn [fst snd ret];
    (split; [by apply Inv_data|]); exists []; by rewrite app_nil_r.
Qed.

Lemma elevate_beforehand_confined :
  Allowed GetAccessLevel -> Allowed ElevateAccess ->
  confined Inv Allowed elevate_beforehand.
Proof. intros H1 H2. unfold elevate_beforehand. confined_auto. Qed.

(** With the flag off the elevation at the start is not attempted. *)
Lemma elevate_beforehand_off :
  (forall p, Inv p -> auto_elevate_enabled p = false) ->
  confined Inv Allowed elevate_beforehand.
Proof.
  intros Hoff p Hp. unfold elevate_beforehand, bind, read. rewrite (Hoff p Hp).
  cbn [snd ret]. split; [done|]. exists []. by rewrite app_nil_r.
Qed.

Section AccessLevel.

Variable fromisoformat : string -> option pydatetime.

Lemma time_until_expiry_confined expires :
  confined Inv Allowed (time_until_expiry fromisoformat expires).
Proof.
  unfold time_until_expiry. destruct expires; try apply confined_raise.
  destruct (fromisoformat _); [confined_auto | apply confined_raise].
Qed.

Lemma maybe_renew_confined access_level :
  Allowed ElevateAccess -> confined Inv Allowed (maybe_renew fromisoformat access_level).
Proof.
  intros Hc. unfold maybe_renew, renew_if_expiring, re_elevate.
  apply confined_bind; [apply confined_lift|]. intros expires.
  apply confined_bind; [apply confined_read|]. intros enabled.
  apply confined_if; [|apply confined_ret].
  apply confined_try.
  - apply confined_bind; [apply confined_lift|]. intros ex.
    apply confined_bind; [apply time_until_expiry_confined|]. intros remaining.
    confined_auto.
  - intros e h. destruct e; try discriminate; intros [= <-]; apply confined_ret.
Qed.

Lemma maybe_renew_off access_level :
  (forall p, Inv p -> auto_elevate_enabled p = false) ->
  confined Inv Allowed (maybe_renew fromisoformat access_level).
Proof.
  intros Hoff p Hp. unfold maybe_renew, bind, lift, read.
  destruct (py_get access_level "expiresAt" JNull) as [expires|]; cbn [snd].
  - rewrite (Hoff p Hp), andb_false_r. cbn [snd ret]. split; [done|].
    exists []. by rewrite app_nil_r.
  - split; [done|]. exists []. by rewrite app_nil_r.
Qed.

Lemma fetch_access_level_with renewal :
  Allowed GetAccessLevel ->
  (forall access_level, confined Inv Allowed (renewal access_level)) ->
  confined Inv Allowed
    (try_except
       (let* access_level := call GetAccessLevel in
        store "access_level" access_level;;
        renewal access_level)
       (except_api_error (store "access_level" default_access_level))).
Proof. intros Hc Hrenew. confined_auto. apply Hrenew. Qed.

Lemma fetch_access_level_confined :
  Allowed GetAccessLevel -> Allowed ElevateAccess ->
  confined Inv Allowed (fetch_access_level fromisoformat).
Proof.
  intros H1 H2. apply fetch_access_level_with; [done|].
  intros. by apply maybe_renew_confined.
Qed.

Lemma fetch_access_level_off :
  Allowed GetAccessLevel ->
  (forall p, Inv p -> auto_elevate_enabled p = false) ->
  confined Inv Allowed (fetch_access_level fromisoformat).
Proof.
  intros H1 Hoff. apply fetch_access_level_with; [done|].
  intros. by apply maybe_renew_off.
Qed.

(** A cycle is confined when its steps are. *)
Lemma update_data_confined :
  Allowed GetStatus -> Allowed GetSettings -> Allowed GetAlarms ->
  (forall names, Allowed (GetInternalMetrics names)) ->
  confined Inv Allowed elevate_beforehand ->
  confined Inv Allowed
    (fetch_inventory "settings_inventory" GetSettingsInventory
       _settings_inventory set_settings_inventory log_settings_inventory) ->
  confined Inv Allowed
    (fetch_inventory "metrics_inventory" GetMetricsInventory
       _metrics_inventory set_metrics_inventory log_metrics_inventory) ->
  confined Inv Allowed
    (fetch_inventory "alarms_inventory" GetAlarmsInventory
       _alarms_inventory set_alarms_inventory (fun _ => Ok tt)) ->
  confined Inv Allowed (fetch_access_level fromisoformat) ->
  confined Inv Allowed (_update_data fromisoformat).
Proof.
  intros Hstatus Hsettings Halarms Hmetrics Hbefore Hs Hm Ha Hlevel.
  unfold _update_data, before_metrics, after_metrics.
  apply confined_bind.
  { apply confined_modify; [intros; by apply Inv_data | done]. }
  intros _. apply confined_bind; [apply confined_read|]. intros fast.
  apply confined_if.
  - apply confined_bind; [by apply fetch_internal_metrics_confined|]. intros _.
    apply confined_read.
  - apply confined_bind.
    { apply confined_bind; [exact Hbefore|]. intros _.
      apply confined_bind; [by apply fetch_status_confined|]. intros _.
      by apply fetch_settings_confined. }
    intros _. apply confined_bind; [by apply fetch_internal_metrics_confined|].
    intros _. apply confined_bind; [exact Hs|]. intros _.
    apply confined_bind; [exact Hm|]. intros _.
    apply confined_bind; [by apply fetch_alarms_confined|]. intros _.
    apply confined_bind; [exact Ha|]. intros _.
    apply confined_bind; [exact Hlevel|]. intros _.
    apply confined_read.
Qed.

End AccessLevel.

End Confined.

(** An invariant is carried to the end of a run. *)
Lemma confined_run {A} Inv Allowed (m : C A) q r q' :
  confined Inv Allowed m -> Inv q -> m q = (r, q') -> Inv q'.
Proof. intros Hm Hq Hrun. destruct (Hm q Hq) as [H _]. by rewrite Hrun in H. Qed.

(** ** The coordinator: keys a step leaves alone *)

Lemma untouched_still {A} key (m : C A) :
  (forall p, data (m p).2 = data p) -> untouched key m.
Proof. intros Hm p. by rewrite Hm. Qed.

Lemma untouched_ret {A} key (a : A) : untouched key (ret a).
Proof. by apply untouched_still. Qed.

Lemma untouched_raise {A} key (e : exn) : untouched key (@raise coordinator A e).
Proof. by apply untouched_still. Qed.

Lemma untouched_lift {A} key (r : res A) : untouched key (lift r).
Proof. by apply untouched_still. Qed.

Lemma untouched_read {A} key (f : coordinator -> A) : untouched key (read f).
Proof. by apply untouched_still. Qed.

Lemma untouched_call key (c : api_call) : untouched key (call c).
Proof. apply untouched_still. intros p. unfold call. by destruct (api p _). Qed.

Lemma untouched_modify key (f : coordinator -> coordinator) :
  (forall p, data (f p) = data p) -> untouched key (modify f).
Proof. intros Hf. by apply untouched_still. Qed.

Lemma untouched_store key (k : string) (value : json) :
  k <> key -> untouched key (store k value).
Proof.
  intros Hne p. unfold store, modify. cbn [snd data set_data].
  by rewrite lookup_insert_ne.
Qed.

Lemma untouched_bind {A B} key (m : C A) (k : A -> C B) :
  untouched key m -> (forall a, untouched key (k a)) -> untouched key (bind m k).
Proof.
  intros Hm Hk p. pose proof (Hm p) as H1. unfold bind.
  destruct (m p) as [[a|e] p1]; [|done].
  pose proof (Hk a p1) as H2. cbn [snd] in *. congruence.
Qed.

Lemma untouched_try {A} key (m : C A) (handler : exn -> option (C A)) :
  untouched key m -> (forall e h, handler e = Some h -> untouched key h) ->
  untouched key (try_except m handler).
Proof.
  intros Hm Hh p. pose proof (Hm p) as H1. unfold try_except.
  destruct (m p) as [[a|e] p1]; [done|].
  destruct (handler e) as [h|] eqn:E; [|done].
  pose proof (Hh e h E p1) as H2. cbn [snd] in *. congruence.
Qed.

Lemma untouched_except {A} key (h : C A) e h' :
  untouched key h -> except_api_error h e = Some h' -> untouched key h'.
Proof. unfold except_api_error. destruct (is_api_error e); [|done]. by intros ? [= <-]. Qed.

Lemma untouched_if {A} key (b : bool) (m1 m2 : C A) :
  untouched key m1 -> untouched key m2 -> untouched key (if b then m1 else m2).
Proof. by destruct b. Qed.

Ltac untouched_auto :=
  repeat first
    [ apply untouched_ret | apply untouched_raise | apply untouched_lift
    | apply untouched_read | apply untouched_call
    | apply untouched_store; (assumption || discriminate)
    | apply untouched_modify; reflexivity
    | apply untouched_if
    | apply untouched_bind; [|intros]
    | apply untouched_try; [|intros ? ? ?; eapply untouched_except; [|eassumption]] ].

Lemma elevate_beforehand_untouched key : untouched key elevate_beforehand.
Proof. unfold elevate_beforehand. untouched_auto. Qed.

Lemma fetch_status_untouched key : "status" <> key -> untouched key fetch_status.
Proof. intros H. unfold fetch_status. untouched_auto. Qed.

Lemma fetch_settings_untouched key : "settings" <> key -> untouched key fetch_settings.
Proof. intros H. unfold fetch_settings. untouched_auto. Qed.

Lemma fetch_internal_metrics_untouched key names :
  "internal_metrics" <> key -> untouched key (fetch_internal_metrics names).
Proof.
  intros H. unfold fetch_internal_metrics. apply untouched_try; [untouched_auto|].
  intros e h. destruct (is_api_error e); [|done]. intros [= <-]. untouched_auto.
Qed.

Lemma fetch_alarms_untouched key : "alarms" <> key -> untouched key fetch_alarms.
Proof. intros H. unfold fetch_alarms. untouched_auto. Qed.

Lemma fetch_inventory_untouched key k c cache set_cache log :
  k <> key ->
  (forall j p, data (set_cache j p) = data p) ->
  untouched key (fetch_inventory k c cache set_cache log).
Proof.
  intros Hk Hset. unfold fetch_inventory.
  apply untouched_bind; [apply untouched_read|]. intros cached.
  apply untouched_bind; [|intros; untouched_auto].
  destruct cached; try apply untouched_ret.
  apply untouched_try.
  - apply untouched_bind; [apply untouched_call|]. intros.
    apply untouched_bind; [apply untouched_modify, Hset | intros; apply untouched_lift].
  - intros e h. apply untouched_except, untouched_modify, Hset.
Qed.

Section AccessLevelUntouched.

Variable fromisoformat : string -> option pydatetime.

Lemma fetch_access_level_untouched key :
  "access_level" <> key -> untouched key (fetch_access_level fromisoformat).
Proof.
  intros H. unfold fetch_access_level.
  apply untouched_try; [|intros ? ? ?; eapply untouched_except; [|eassumption];
                         by apply untouched_store].
  apply untouched_bind; [apply untouched_call|]. intros access_level.
  apply untouched_bind; [by apply untouched_store|]. intros _.
  unfold maybe_renew, renew_if_expiring, re_elevate, time_until_expiry.
  apply untouched_bind; [apply untouched_lift|]. intros expires.
  apply untouched_bind; [apply untouched_read|]. intros enabled.
  apply untouched_if; [|apply untouched_ret].
  apply untouched_try.
  - apply untouched_bind; [apply untouched_lift|]. intros ex.
    apply untouched_bind.
    { destruct ex; try apply untouched_raise.
      destruct (fromisoformat _); [|apply untouched_raise]. untouched_auto. }
    intros remaining. untouched_auto.
  - intros e h. destruct e; try discriminate; intros [= <-]; apply untouched_ret.
Qed.

(** The steps of a normal cycle that follow the metrics leave alone every
    key but the five they set. *)
Lemma after_metrics_untouched key :
  "settings_inventory" <> key -> "metrics_inventory" <> key -> "alarms" <> key ->
  "alarms_inventory" <> key -> "access_level" <> key ->
  untouched key (after_metrics fromisoformat).
Proof.
  intros H1 H2 H3 H4 H5. unfold after_metrics.
  apply untouched_bind; [by apply fetch_inventory_untouched|]. intros _.
  apply untouched_bind; [by apply fetch_inventory_untouched|]. intros _.
  apply untouched_bind; [by apply fetch_alarms_untouched|]. intros _.
  apply untouched_bind; [by apply fetch_inventory_untouched|]. intros _.
  apply untouched_bind; [by apply fetch_access_level_untouched|]. intros _.
  apply untouched_read.
Qed.

End AccessLevelUntouched.

(** What a run that ends well leaves under a key it does not touch. *)
Lemma untouched_run {A} key (m : C A) q r q' :
  untouched key m -> m q = (r, q') -> data q' !! key = data q !! key.
Proof. intros Hm Hrun. pose proof (Hm q) as H. by rewrite Hrun in H. Qed.

(** ** The fast coordinator *)

Lemma fetch_internal_metrics_calls names q :
  calls (fetch_internal_metrics names q).2 = (calls q ++ [GetInternalMetrics names])%list.
Proof.
  unfold fetch_internal_metrics. rewrite calls_try.
  - unfold bind, call. by destruct (api q _) as [[metrics|e] t].
  - intros e h p. destruct (is_api_error e); [|done]. intros [= <-].
    by destruct (is_transient _).
Qed.

Section FastCycle.

Variable fromisoformat : string -> option pydatetime.

(** A snapshot of the fast coordinator has no key but [internal_metrics]. *)
Lemma fast_snapshot_keys p snapshot p' key :
  is_fast_coordinator p = true ->
  _update_data fromisoformat p = (Ok snapshot, p') ->
  key <> "internal_metrics" ->
  snapshot !! key = None.
Proof.
  intros Hfast Hrun Hkey. rewrite (update_data_fast fromisoformat p Hfast) in Hrun.
  apply bind_ok_inv in Hrun as ([] & q & Hfetch & Hread).
  injection Hread as <- <-.
  rewrite (untouched_run key _ _ _ _
             (fetch_internal_metrics_untouched key FAST_POLLING_METRICS (not_eq_sym Hkey))
             Hfetch).
  apply lookup_empty.
Qed.

(** X13.  A cycle of the fast coordinator makes one call of the API, the
    fetch of the fast-polling metrics, however that call ends.  A snapshot
    it returns has no key other than [internal_metrics] -- neither status
    nor settings nor any inventory -- and when the call returns, the
    snapshot is exactly [internal_metrics], set to the [values] member of
    the answer or to the answer itself when it has none. *)
Theorem fast_cycle_one_call :
  forall p : coordinator,
    is_fast_coordinator p = true ->
    calls (_update_data fromisoformat p).2
      = (calls p ++ [GetInternalMetrics FAST_POLLING_METRICS])%list
    /\ (forall (snapshot : gmap string json) (p' : coordinator),
          _update_data fromisoformat p = (Ok snapshot, p') ->
          forall key : string, key <> "internal_metrics" -> snapshot !! key = None)
    /\ (forall (metrics : json) (t : Z),
          api p (length (calls p)) = (Ok metrics, t) ->
          (_update_data fromisoformat p).1
          = Ok {[ "internal_metrics" := metric_values metrics ]}).
Proof.
  intros p Hfast. split; [|split].
  - rewrite (update_data_fast fromisoformat p Hfast). unfold bind.
    pose proof (fetch_internal_metrics_calls FAST_POLLING_METRICS (set_data ∅ p)) as Hc.
    by destruct (fetch_internal_metrics _ _) as [[[]|e] q].
  - intros snapshot p' Hrun key Hkey. by apply (fast_snapshot_keys p snapshot p').
  - intros metrics t Hapi. rewrite (update_data_fast fromisoformat p Hfast).
    unfold bind, fetch_internal_metrics, try_except, bind, call.
    cbn [api calls set_data]. rewrite Hapi.
    unfold store, modify, read. cbn [fst snd data set_data].
    by rewrite insert_empty.
Qed.

(** X14.  After a cycle of the fast coordinator that returned a snapshot,
    an entity bound to that coordinator is available: the snapshot holds no
    status, so the connectivity of the device is not consulted. *)
Theorem fast_coordinator_entities_available :
  forall (p p' : coordinator) (snapshot : gmap string json),
    is_fast_coordinator p = true ->
    _update_data fromisoformat p = (Ok snapshot, p') ->
    available true (Some snapshot) = Ok (JBool true).
Proof.
  intros p p' snapshot Hfast Hrun. unfold available. cbn [negb].
  rewrite (fast_snapshot_keys p snapshot p' "status" Hfast Hrun) by discriminate.
  by destruct (truthy (JObj snapshot)).
Qed.

(** ** The status of a normal cycle *)

(** The snapshot of a normal cycle holds under [status] what the status
    fetch of this cycle returned, and nothing when it failed. *)
Lemma normal_snapshot_status p p0 r t snapshot p' :
  is_fast_coordinator p = false ->
  elevate_beforehand (set_data ∅ p) = (Ok tt, p0) ->
  api p0 (length (calls p0)) = (r, t) ->
  _update_data fromisoformat p = (Ok snapshot, p') ->
  match r with
  | Ok status => snapshot !! "status" = Some status
  | Raise e => snapshot !! "status" = None /\ is_api_error e = true
  end.
Proof.
  intros Hnormal Hbefore Hapi Hrun.
  rewrite (update_data_normal fromisoformat p Hnormal) in Hrun.
  apply bind_ok_inv in Hrun as ([] & q3 & Hfirst & Hrun).
  apply bind_ok_inv in Hrun as ([] & q4 & Hmetrics & Hrun).
  unfold before_metrics in Hfirst.
  apply bind_ok_inv in Hfirst as ([] & q1 & Helev & Hfirst).
  rewrite Hbefore in Helev. injection Helev as <-.
  apply bind_ok_inv in Hfirst as ([] & q2 & Hstatus & Hsettings).
  assert (snapshot = data p') as ->.
  { revert Hrun. unfold after_metrics. do 5 apply returns_data_bind.
    apply returns_data_read. }
  rewrite (untouched_run "status" _ _ _ _
             (after_metrics_untouched fromisoformat "status"
                ltac:(discriminate) ltac:(discriminate) ltac:(discriminate)
                ltac:(discriminate) ltac:(discriminate)) Hrun).
  rewrite (untouched_run "status" _ _ _ _
             (fetch_internal_metrics_untouched "status" METRIC_NAMES ltac:(discriminate))
             Hmetrics).
  rewrite (untouched_run "status" _ _ _ _
             (fetch_settings_untouched "status" ltac:(discriminate)) Hsettings).
  revert Hstatus. unfold fetch_status, try_except, bind, call. rewrite Hapi.
  destruct r as [status|e].
  - unfold store, modify. intros [= <-]. cbn [data set_data]. apply lookup_insert_eq.
  - unfold except_api_error. destruct (is_api_error e); [|discriminate].
    intros [= <-]. cbn [data]. split; [|done].
    rewrite (untouched_run "status" _ _ _ _ (elevate_beforehand_untouched "status") Hbefore).
    apply lookup_empty.
Qed.

(** X15.  The snapshot of a normal cycle holds under [status] what the
    status fetch of that very cycle returned.  When that fetch raised (an
    API error, or the cycle would not have returned), the snapshot has no
    [status] at all, whatever the snapshot before held: a status is never
    carried over from an earlier cycle. *)
Theorem status_key_reflects_fetch :
  forall (p p0 p' : coordinator) (r : res json) (t : Z) (snapshot : gmap string json),
    is_fast_coordinator p = false ->
    elevate_beforehand (set_data ∅ p) = (Ok tt, p0) ->
    api p0 (length (calls p0)) = (r, t) ->
    _update_data fromisoformat p = (Ok snapshot, p') ->
    (forall status : json, r = Ok status -> snapshot !! "status" = Some status)
    /\ (forall e : exn,
          r = Raise e -> snapshot !! "status" = None /\ is_api_error e = true).
Proof.
  intros p p0 p' r t snapshot Hnormal Hbefore Hapi Hrun.
  pose proof (normal_snapshot_status p p0 r t snapshot p' Hnormal Hbefore Hapi Hrun) as H.
  split; [intros status -> | intros e ->]; exact H.
Qed.


End FastCycle.

Lemma fast_cycle_one_call_witness :
  calls (_update_data two_timestamps (new_coordinator true true [not_found])).2
    = [GetInternalMetrics FAST_POLLING_METRICS]
  /\ (_update_data two_timestamps
        (new_coordinator true false [Ok (dict_of [("values", JNum 7)])])).1
     = Ok {[ "internal_metrics" := JNum 7 ]}.
Proof.
  split.
  - exact (proj1 (fast_cycle_one_call two_timestamps
                    (new_coordinator true true [not_found]) eq_refl)).
  - refine (proj2 (proj2 (fast_cycle_one_call two_timestamps
              (new_coordinator true false [Ok (dict_of [("values", JNum 7)])]) eq_refl))
              (dict_of [("values", JNum 7)]) (seconds 1704110401) _).
    reflexivity.
Defined.

Lemma fast_coordinator_entities_available_witness :
  available true
    (Some (data (_update_data two_timestamps
                   (new_coordinator true false [Ok (dict_of [("values", JNum 7)])])).2))
  = Ok (JBool true).
Proof.
  set (p := new_coordinator true false [Ok (dict_of [("values", JNum 7)])]).
  apply (fast_coordinator_entities_available two_timestamps p
           (_update_data two_timestamps p).2); [reflexivity|].
  apply (run_result (_update_data two_timestamps) p
           (Ok (data (_update_data two_timestamps p).2))).
  vm_compute. reflexivity.
Defined.

Lemma status_key_reflects_fetch_witness :
  exists snapshot : gmap string json,
    (_update_data two_timestamps (new_coordinator false false [Ok offline_status])).1
      = Ok snapshot
    /\ snapshot !! "status" = Some offline_status.
Proof.
  set (p := new_coordinator false false [Ok offline_status]).
  exists (data (_update_data two_timestamps p).2).
  assert (_update_data two_timestamps p
          = (Ok (data (_update_data two_timestamps p).2), (_update_data two_timestamps p).2))
    as Hrun.
  { apply (run_result (_update_data two_timestamps) p
             (Ok (data (_update_data two_timestamps p).2))).
    vm_compute. reflexivity. }
  split; [by rewrite Hrun at 1|].
  refine (proj1 (status_key_reflects_fetch two_timestamps p (set_data ∅ p) _
                   (Ok offline_status) (seconds 1704110401) _ eq_refl eq_refl eq_refl Hrun)
            offline_status eq_refl).
Defined.


(** ** Inventories: fetched once, then served from the cache *)

(** Side conditions of the form: a field of the coordinator is not changed
    by a call, by [set_data], or by caching another inventory. *)
Ltac kept :=
  intros; unfold call;
  repeat match goal with |- context [api ?p ?n] => destruct (api p n) end;
  cbn in *; intuition congruence.

Lemma not_in_of_forall (c : api_call) (l : list api_call) :
  Forall (fun c' => c' <> c) l -> ~ In c l.
Proof.
  intros Hall Hin. apply list_elem_of_In in Hin.
  rewrite Forall_forall in Hall. by apply (Hall c Hin).
Qed.

Lemma is_none_false (j : json) : j <> JNull -> is_none j = false.
Proof. by destruct j. Qed.

Lemma untouched_after {A} key (m : C A) q r q' :
  m q = (r, q') -> untouched key m -> data q' !! key = data q !! key.
Proof. intros Hrun Hm. by apply (untouched_run key m q r q'). Qed.

(** What an inventory step leaves in [data]: the cache as it is then. *)
Lemma fetch_inventory_stores key c cache set_cache log q r q' :
  fetch_inventory key c cache set_cache log q = (Ok r, q') ->
  (forall d p, cache (set_data d p) = cache p) ->
  data q' !! key = Some (cache q').
Proof.
  intros H Hd. unfold fetch_inventory in H.
  apply bind_ok_inv in H as (cached & q1 & _ & H).
  apply bind_ok_inv in H as (u & q2 & _ & H).
  unfold bind, read, store, modify in H. injection H as _ <-.
  cbn [data set_data]. by rewrite Hd, lookup_insert_eq.
Qed.

Section CachedInventories.

Variable fromisoformat : string -> option pydatetime.

(** The inventories in the snapshot of a normal cycle are the caches as
    they are at the end of the cycle. *)
Lemma after_metrics_snapshot q snapshot q' :
  after_metrics fromisoformat q = (Ok snapshot, q') ->
  snapshot !! "settings_inventory" = Some (_settings_inventory q')
  /\ snapshot !! "metrics_inventory" = Some (_metrics_inventory q')
  /\ snapshot !! "alarms_inventory" = Some (_alarms_inventory q').
Proof.
  intros H. unfold after_metrics in H.
  apply bind_ok_inv in H as ([] & q1 & H1 & H).
  apply bind_ok_inv in H as ([] & q2 & H2 & H).
  apply bind_ok_inv in H as ([] & q3 & H3 & H).
  apply bind_ok_inv in H as ([] & q4 & H4 & H).
  apply bind_ok_inv in H as ([] & q5 & H5 & H).
  injection H as <- <-.
  pose proof (fetch_inventory_stores _ _ _ _ _ _ _ _ H1 (fun _ _ => eq_refl)) as K1.
  pose proof (fetch_inventory_stores _ _ _ _ _ _ _ _ H2 (fun _ _ => eq_refl)) as K2.
  pose proof (fetch_inventory_stores _ _ _ _ _ _ _ _ H4 (fun _ _ => eq_refl)) as K4.
  assert (_settings_inventory q5 = _settings_inventory q1) as C1.
  { set (Inv := fun p : coordinator => _settings_inventory p = _settings_inventory q1).
    assert (Inv q2) as I2.
    { refine (confined_run Inv (fun _ => True) _ _ _ _ _ eq_refl H2).
      apply fetch_inventory_confined; kept. }
    assert (Inv q3) as I3.
    { refine (confined_run Inv (fun _ => True) _ _ _ _ _ I2 H3).
      apply fetch_alarms_confined; kept. }
    assert (Inv q4) as I4.
    { refine (confined_run Inv (fun _ => True) _ _ _ _ _ I3 H4).
      apply fetch_inventory_confined; kept. }
    refine (confined_run Inv (fun _ => True) _ _ _ _ _ I4 H5).
    apply fetch_access_level_confined; kept. }
  assert (_metrics_inventory q5 = _metrics_inventory q2) as C2.
  { set (Inv := fun p : coordinator => _metrics_inventory p = _metrics_inventory q2).
    assert (Inv q3) as I3.
    { refine (confined_run Inv (fun _ => True) _ _ _ _ _ eq_refl H3).
      apply fetch_alarms_confined; kept. }
    assert (Inv q4) as I4.
    { refine (confined_run Inv (fun _ => True) _ _ _ _ _ I3 H4).
      apply fetch_inventory_confined; kept. }
    refine (confined_run Inv (fun _ => True) _ _ _ _ _ I4 H5).
    apply fetch_access_level_confined; kept. }
  assert (_alarms_inventory q5 = _alarms_inventory q4) as C4.
  { set (Inv := fun p : coordinator => _alarms_inventory p = _alarms_inventory q4).
    refine (confined_run Inv (fun _ => True) _ _ _ _ _ eq_refl H5).
    apply fetch_access_level_confined; kept. }
  rewrite C1, C2, C4, <- K1, <- K2, <- K4.
  split; [|split].
  - rewrite (untouched_after "settings_inventory" _ _ _ _ H5)
      by (by apply fetch_access_level_untouched).
    rewrite (untouched_after "settings_inventory" _ _ _ _ H4)
      by (by apply fetch_inventory_untouched).
    rewrite (untouched_after "settings_inventory" _ _ _ _ H3)
      by (by apply fetch_alarms_untouched).
    by apply (untouched_after "settings_inventory" _ _ _ _ H2), fetch_inventory_untouched.
  - rewrite (untouched_after "metrics_inventory" _ _ _ _ H5)
      by (by apply fetch_access_level_untouched).
    rewrite (untouched_after "metrics_inventory" _ _ _ _ H4)
      by (by apply fetch_inventory_untouched).
    by apply (untouched_after "metrics_inventory" _ _ _ _ H3), fetch_alarms_untouched.
  - by apply (untouched_after "alarms_inventory" _ _ _ _ H5), fetch_access_level_untouched.
Qed.

Lemma normal_snapshot_inventories p snapshot p' :
  is_fast_coordinator p = false ->
  _update_data fromisoformat p = (Ok snapshot, p') ->
  snapshot !! "settings_inventory" = Some (_settings_inventory p')
  /\ snapshot !! "metrics_inventory" = Some (_metrics_inventory p')
  /\ snapshot !! "alarms_inventory" = Some (_alarms_inventory p').
Proof.
  intros Hnormal Hrun. rewrite (update_data_normal fromisoformat p Hnormal) in Hrun.
  apply bind_ok_inv in Hrun as (u0 & q0 & _ & Hrun).
  apply bind_ok_inv in Hrun as (u1 & q1 & _ & Hrun).
  by apply (after_metrics_snapshot q1).
Qed.

(** X17.  An inventory that is cached (its cache is not [None]) is not
    fetched again: in a cycle, however it ends, no call of the method that
    fetches it is made, and the cache is left as it is.  A normal cycle
    that returns a snapshot returns the cached inventory in it. *)
Theorem cached_inventory_not_fetched :
  forall (p : coordinator) (inventory : json),
    inventory <> JNull ->
    let cycle := _update_data fromisoformat in
    let served (cache : coordinator -> json) (c : api_call) (key : string) :=
      cache p = inventory ->
      (exists l : list api_call,
         calls (cycle p).2 = (calls p ++ l)%list /\ ~ In c l)
      /\ cache (cycle p).2 = inventory
      /\ (forall (snapshot : gmap string json) (p' : coordinator),
            is_fast_coordinator p = false ->
            cycle p = (Ok snapshot, p') ->
            snapshot !! key = Some inventory) in
    served _settings_inventory GetSettingsInventory "settings_inventory"
    /\ served _metrics_inventory GetMetricsInventory "metrics_inventory"
    /\ served _alarms_inventory GetAlarmsInventory "alarms_inventory".
Proof.
  intros p inventory Hsome cycle served.
  assert (forall (cache : coordinator -> json) (c : api_call),
            confined (fun p => cache p = inventory) (fun c' => c' <> c) cycle ->
            cache p = inventory ->
            (exists l : list api_call,
               calls (cycle p).2 = (calls p ++ l)%list /\ ~ In c l)
            /\ cache (cycle p).2 = inventory) as Hserved.
  { intros cache c Hconf Hp. destruct (Hconf p Hp) as [Hend (l & Hl & Hall)].
    split; [|exact Hend]. exists l. split; [exact Hl | by apply not_in_of_forall]. }
  split; [|split]; intros Hp.
  - destruct (Hserved _settings_inventory GetSettingsInventory) as [Hcalls Hend];
      [|exact Hp|].
    { apply update_data_confined; try kept.
      - apply elevate_beforehand_confined; kept.
      - apply fetch_inventory_cached; [kept|]. intros q ->. by apply is_none_false.
      - apply fetch_inventory_confined; kept.
      - apply fetch_inventory_confined; kept.
      - apply fetch_access_level_confined; kept. }
    split; [exact Hcalls|]. split; [exact Hend|].
    intros snapshot p' Hnormal Hrun.
    destruct (normal_snapshot_inventories p snapshot p' Hnormal Hrun) as (-> & _ & _).
    subst cycle. rewrite Hrun in Hend. by rewrite <- Hend.
  - destruct (Hserved _metrics_inventory GetMetricsInventory) as [Hcalls Hend];
      [|exact Hp|].
    { apply update_data_confined; try kept.
      - apply elevate_beforehand_confined; kept.
      - apply fetch_inventory_confined; kept.
      - apply fetch_inventory_cached; [kept|]. intros q ->. by apply is_none_false.
      - apply fetch_inventory_confined; kept.
      - apply fetch_access_level_confined; kept. }
    split; [exact Hcalls|]. split; [exact Hend|].
    intros snapshot p' Hnormal Hrun.
    destruct (normal_snapshot_inventories p snapshot p' Hnormal Hrun) as (_ & -> & _).
    subst cycle. rewrite Hrun in Hend. by rewrite <- Hend.
  - destruct (Hserved _alarms_inventory GetAlarmsInventory) as [Hcalls Hend];
      [|exact Hp|].
    { apply update_data_confined; try kept.
      - apply elevate_beforehand_confined; kept.
      - apply fetch_inventory_confined; kept.
      - apply fetch_inventory_confined; kept.
      - apply fetch_inventory_cached; [kept|]. intros q ->. by apply is_none_false.
      - apply fetch_access_level_confined; kept. }
    split; [exact Hcalls|]. split; [exact Hend|].
    intros snapshot p' Hnormal Hrun.
    destruct (normal_snapshot_inventories p snapshot p' Hnormal Hrun) as (_ & _ & ->).
    subst cycle. rewrite Hrun in Hend. by rewrite <- Hend.
Qed.

(** X18.  With auto-elevate off, a cycle never calls [elevate_access]:
    neither before the fetches nor for a renewal at the end, however the
    calls it does make end; and it leaves the flag off. *)
Theorem no_elevation_when_disabled :
  forall p : coordinator,
    auto_elevate_enabled p = false ->
    (exists l : list api_call,
       calls (_update_data fromisoformat p).2 = (calls p ++ l)%list
       /\ ~ In ElevateAccess l)
    /\ auto_elevate_enabled (_update_data fromisoformat p).2 = false.
Proof.
  intros p Hoff.
  assert (confined (fun q => auto_elevate_enabled q = false) (fun c => c <> ElevateAccess)
            (_update_data fromisoformat)) as Hconf.
  { apply update_data_confined; try kept.
    - apply elevate_beforehand_off; kept.
    - apply fetch_inventory_confined; kept.
    - apply fetch_inventory_confined; kept.
    - apply fetch_inventory_confined; kept.
    - apply fetch_access_level_off; kept. }
  destruct (Hconf p Hoff) as [Hend (l & Hl & Hall)].
  split; [|exact Hend]. exists l. split; [exact Hl | by apply not_in_of_forall].
Qed.

End CachedInventories.

Lemma cached_inventory_not_fetched_witness :
  calls (_update_data two_timestamps (cached_coordinator false [])).2
    = [GetStatus; GetSettings; GetInternalMetrics METRIC_NAMES; GetAlarms; GetAccessLevel]
  /\ exists l : list api_call,
       calls (_update_data two_timestamps (cached_coordinator false [])).2 = l
       /\ ~ In GetSettingsInventory l.
Proof.
  split; [vm_compute; reflexivity|].
  destruct (cached_inventory_not_fetched two_timestamps (cached_coordinator false [])
              (some_inventory "settings")) as [Hsettings _]; [discriminate|].
  destruct Hsettings as [(l & Hl & Hnot) _]; [reflexivity|].
  exists l. split; [exact Hl | exact Hnot].
Defined.

Lemma no_elevation_when_disabled_witness :
  exists l : list api_call,
    calls (_update_data two_timestamps
             (new_coordinator false false [Ok (access_level 10)])).2 = l
    /\ ~ In ElevateAccess l.
Proof.
  destruct (no_elevation_when_disabled two_timestamps
              (new_coordinator false false [Ok (access_level 10)]) eq_refl)
    as [(l & Hl & Hnot) _].
  exists l. split; [exact Hl | exact Hnot].
Defined.

(** ** The calls of a normal cycle, in order *)

Lemma fetch_status_calls q : calls (fetch_status q).2 = (calls q ++ [GetStatus])%list.
Proof.
  unfold fetch_status. rewrite calls_try by (by apply except_api_error_calls).
  unfold bind, call. by destruct (api q _) as [[status|e] t].
Qed.

Lemma fetch_settings_calls q : calls (fetch_settings q).2 = (calls q ++ [GetSettings])%list.
Proof.
  unfold fetch_settings. rewrite calls_try by (by apply except_api_error_calls).
  unfold bind, call. destruct (api q _) as [[settings|e] t]; [|done].
  unfold store, modify, lift. cbn [fst snd]. by destruct (log_settings settings).
Qed.

Lemma fetch_alarms_calls q : calls (fetch_alarms q).2 = (calls q ++ [GetAlarms])%list.
Proof.
  unfold fetch_alarms. rewrite calls_try by (by apply except_api_error_calls).
  unfold bind, call. by destruct (api q _) as [[alarms|e] t].
Qed.

(** An inventory step makes its call when the cache is [None], and no call
    otherwise. *)
Lemma fetch_inventory_calls key c cache set_cache log q :
  (forall j p, calls (set_cache j p) = calls p) ->
  calls (fetch_inventory key c cache set_cache log q).2
  = (calls q ++ if is_none (cache q) then [c] else [])%list.
Proof.
  intros Hcalls. unfold fetch_inventory. unfold bind at 1, read at 1.
  assert (forall m : C unit,
            calls ((m;; let* inventory := read cache in store key inventory) q).2
            = calls (m q).2) as Hlast.
  { intros m. unfold bind, read, store, modify. by destruct (m q) as [[[]|e] q1]. }
  rewrite Hlast.
  destruct (cache q); cbn [is_none]; try (unfold ret; cbn [snd]; by rewrite app_nil_r).
  rewrite calls_try.
  - unfold bind, call. destruct (api q _) as [[inventory|e] t]; [|done].
    unfold modify, lift. cbn [fst snd]. by rewrite Hcalls.
  - apply except_api_error_calls. intros p. unfold modify. apply Hcalls.
Qed.

Lemma elevate_beforehand_off_run q :
  auto_elevate_enabled q = false -> elevate_beforehand q = (Ok tt, q).
Proof. intros Hoff. unfold elevate_beforehand, bind, read. by rewrite Hoff. Qed.

Section CallOrder.

Variable fromisoformat : string -> option pydatetime.

Lemma fetch_access_level_off_calls q :
  auto_elevate_enabled q = false ->
  calls (fetch_access_level fromisoformat q).2 = (calls q ++ [GetAccessLevel])%list.
Proof.
  intros Hoff. unfold fetch_access_level.
  rewrite calls_try by (by apply except_api_error_calls).
  unfold bind at 1, call. destruct (api q _) as [[access_level|e] t]; [|done].
  unfold bind at 1, store at 1, modify at 1. cbn [fst snd].
  unfold maybe_renew, bind, lift, read.
  destruct (py_get access_level "expiresAt" JNull) as [expires|]; [|done].
  cbn [auto_elevate_enabled set_data]. by rewrite Hoff, andb_false_r.
Qed.

(** X19.  A normal cycle with auto-elevate off that returns a snapshot has
    made its calls in one fixed order, whichever of them failed with an API
    error: status, settings, metrics, settings inventory, metrics
    inventory, alarms, alarms inventory, access level -- eight calls when
    no inventory is cached, and one call less for every inventory that is
    (five when all three are). *)
Theorem normal_cycle_call_order :
  forall (p p' : coordinator) (snapshot : gmap string json),
    is_fast_coordinator p = false ->
    auto_elevate_enabled p = false ->
    _update_data fromisoformat p = (Ok snapshot, p') ->
    calls p' = (calls p ++ normal_cycle_calls p)%list.
Proof.
  intros p p' snapshot Hnormal Hoff Hrun.
  rewrite (update_data_normal fromisoformat p Hnormal) in Hrun.
  apply bind_ok_inv in Hrun as ([] & q3 & Hb & Hrun).
  apply bind_ok_inv in Hrun as ([] & q4 & Hm & Hrun).
  unfold before_metrics in Hb.
  apply bind_ok_inv in Hb as ([] & q1 & He & Hb).
  apply bind_ok_inv in Hb as ([] & q2 & Hst & Hse).
  unfold after_metrics in Hrun.
  apply bind_ok_inv in Hrun as ([] & q5 & Hsi & Hrun).
  apply bind_ok_inv in Hrun as ([] & q6 & Hmi & Hrun).
  apply bind_ok_inv in Hrun as ([] & q7 & Hal & Hrun).
  apply bind_ok_inv in Hrun as ([] & q8 & Hai & Hrun).
  apply bind_ok_inv in Hrun as ([] & q9 & Hac & Hrun).
  injection Hrun as _ <-.
  rewrite (elevate_beforehand_off_run (set_data ∅ p) Hoff) in He. injection He as <-.
  (* what the steps leave alone before they use it *)
  set (J1 := fun q : coordinator =>
               _settings_inventory q = _settings_inventory p
               /\ _metrics_inventory q = _metrics_inventory p
               /\ _alarms_inventory q = _alarms_inventory p
               /\ auto_elevate_enabled q = false).
  set (J2 := fun q : coordinator =>
               _metrics_inventory q = _metrics_inventory p
               /\ _alarms_inventory q = _alarms_inventory p
               /\ auto_elevate_enabled q = false).
  set (J3 := fun q : coordinator =>
               _alarms_inventory q = _alarms_inventory p
               /\ auto_elevate_enabled q = false).
  set (J4 := fun q : coordinator => auto_elevate_enabled q = false).
  assert (J1 q2) as I2.
  { refine (confined_run J1 (fun _ => True) _ _ _ _ _ _ Hst);
      [apply fetch_status_confined; kept | by repeat split]. }
  assert (J1 q3) as I3.
  { refine (confined_run J1 (fun _ => True) _ _ _ _ _ I2 Hse).
    apply fetch_settings_confined; kept. }
  assert (J1 q4) as I4.
  { refine (confined_run J1 (fun _ => True) _ _ _ _ _ I3 Hm).
    apply fetch_internal_metrics_confined; kept. }
  assert (J2 q5) as I5.
  { refine (confined_run J2 (fun _ => True) _ _ _ _ _ (proj2 I4) Hsi).
    apply fetch_inventory_confined; kept. }
  assert (J3 q6) as I6.
  { refine (confined_run J3 (fun _ => True) _ _ _ _ _ (proj2 I5) Hmi).
    apply fetch_inventory_confined; kept. }
  assert (J3 q7) as I7.
  { refine (confined_run J3 (fun _ => True) _ _ _ _ _ I6 Hal).
    apply fetch_alarms_confined; kept. }
  assert (J4 q8) as I8.
  { refine (confined_run J4 (fun _ => True) _ _ _ _ _ (proj2 I7) Hai).
    apply fetch_inventory_confined; kept. }
  (* the calls, step by step *)
  pose proof (fetch_status_calls (set_data ∅ p)) as C2. rewrite Hst in C2.
  pose proof (fetch_settings_calls q2) as C3. rewrite Hse in C3.
  pose proof (fetch_internal_metrics_calls METRIC_NAMES q3) as C4. rewrite Hm in C4.
  pose proof (fetch_inventory_calls "settings_inventory" GetSettingsInventory
                _settings_inventory set_settings_inventory log_settings_inventory q4
                (fun _ _ => eq_refl)) as C5.
  rewrite Hsi in C5.
  pose proof (fetch_inventory_calls "metrics_inventory" GetMetricsInventory
                _metrics_inventory set_metrics_inventory log_metrics_inventory q5
                (fun _ _ => eq_refl)) as C6.
  rewrite Hmi in C6.
  pose proof (fetch_alarms_calls q6) as C7. rewrite Hal in C7.
  pose proof (fetch_inventory_calls "alarms_inventory" GetAlarmsInventory
                _alarms_inventory set_alarms_inventory (fun _ => Ok tt) q7
                (fun _ _ => eq_refl)) as C8.
  rewrite Hai in C8.
  pose proof (fetch_access_level_off_calls q8 I8) as C9. rewrite Hac in C9.
  cbn [snd] in *.
  destruct I4 as (S4 & _). destruct I5 as (M5 & _). destruct I7 as (A7 & _).
  rewrite C9, C8, C7, C6, C5, C4, C3, C2, S4, M5, A7.
  unfold normal_cycle_calls. cbn [calls set_data]. rewrite <- !app_assoc. reflexivity.
Qed.

End CallOrder.

Lemma normal_cycle_call_order_witness :
  calls (_update_data two_timestamps (new_coordinator false false [])).2
    = [GetStatus; GetSettings; GetInternalMetrics METRIC_NAMES; GetSettingsInventory;
       GetMetricsInventory; GetAlarms; GetAlarmsInventory; GetAccessLevel]
  /\ calls (_update_data two_timestamps (cached_coordinator false [])).2
     = [GetStatus; GetSettings; GetInternalMetrics METRIC_NAMES; GetAlarms; GetAccessLevel].
Proof.
  assert (forall p : coordinator,
            is_ok (_update_data two_timestamps p).1 = true ->
            _update_data two_timestamps p
            = (Ok (data (_update_data two_timestamps p).2), (_update_data two_timestamps p).2))
    as Hrun.
  { intros p Hok. destruct (_update_data two_timestamps p) as [[snapshot|e] p'] eqn:E;
      [|discriminate].
    cbn [fst snd]. f_equal. f_equal.
    destruct (is_fast_coordinator p) eqn:Hf.
    - rewrite (update_data_fast two_timestamps p Hf) in E.
      revert E. apply returns_data_bind, returns_data_read.
    - rewrite (update_data_normal two_timestamps p Hf) in E.
      revert E. unfold after_metrics. do 7 apply returns_data_bind.
      apply returns_data_read. }
  split.
  - rewrite (normal_cycle_call_order two_timestamps (new_coordinator false false [])
               (_update_data two_timestamps (new_coordinator false false [])).2
               (data (_update_data two_timestamps (new_coordinator false false [])).2)
               eq_refl eq_refl).
    + reflexivity.
    + apply Hrun. vm_compute. reflexivity.
  - rewrite (normal_cycle_call_order two_timestamps (cached_coordinator false [])
               (_update_data two_timestamps (cached_coordinator false [])).2
               (data (_update_data two_timestamps (cached_coordinator false [])).2)
               eq_refl eq_refl).
    + reflexivity.
    + apply Hrun. vm_compute. reflexivity.
Defined.

(** ** An inventory is cached before it is logged *)

Lemma for_each_no_api_error {A} (f : A -> res unit) l e :
  (forall x e', f x = Raise e' -> is_api_error e' = false) ->
  for_each f l = Raise e -> is_api_error e = false.
Proof.
  intros Hf. induction l as [|x l IH]; simpl; [discriminate|].
  destruct (f x) as [[]|e'] eqn:E; simpl; [exact IH|].
  intros [= <-]. by apply (Hf x).
Qed.

(** The logging of the settings inventory raises built-in exceptions
    only. *)
Lemma log_settings_inventory_no_api_error inventory e :
  log_settings_inventory inventory = Raise e -> is_api_error e = false.
Proof.
  unfold log_settings_inventory, has_member.
  destruct (truthy inventory); simpl; [|discriminate].
  destruct (py_in "settings" inventory) as [listed|e0] eqn:Ein; simpl.
  2:{ intros [= <-]. destruct inventory; try discriminate; by injection Ein as <-. }
  destruct listed; [|discriminate].
  destruct (py_item inventory "settings") as [items|e1] eqn:Eitem; simpl.
  2:{ intros [= <-]. destruct inventory; try discriminate; simpl in Eitem;
        try (by injection Eitem as <-).
      destruct (_ !! "settings"); [discriminate | by injection Eitem as <-]. }
  destruct (py_elements items) as [l|e2] eqn:Eel; simpl.
  2:{ intros [= <-]. destruct items; try discriminate; by injection Eel as <-. }
  apply for_each_no_api_error. intros item e'.
  unfold log_inventory_setting.
  destruct (py_get item "description" (JStr "")) as [d|e3] eqn:Eget; simpl.
  - destruct d; simpl; try discriminate; by intros [= <-].
  - intros [= <-]. destruct item; try discriminate; by injection Eget as <-.
Qed.

(** X20.  The settings inventory is put into the cache as soon as it is
    fetched, before it is logged.  When the logging goes through, the step
    ends with the inventory in [data]; when the logging raises (the
    inventory has an unexpected shape), the exception leaves the step and
    the cycle with [data] as it was, but the inventory stays cached: a
    later cycle will not fetch it again. *)
Theorem inventory_cached_before_logging :
  forall (q : coordinator) (inventory : json) (t : Z),
    _settings_inventory q = JNull ->
    api q (length (calls q)) = (Ok inventory, t) ->
    let step := fetch_inventory "settings_inventory" GetSettingsInventory
                  _settings_inventory set_settings_inventory log_settings_inventory in
    _settings_inventory (step q).2 = inventory
    /\ (log_settings_inventory inventory = Ok tt ->
        (step q).1 = Ok tt
        /\ data (step q).2 = <["settings_inventory" := inventory]> (data q))
    /\ (forall e : exn,
          log_settings_inventory inventory = Raise e ->
          (step q).1 = Raise e /\ data (step q).2 = data q).
Proof.
  intros q inventory t Hnull Hapi step. subst step.
  unfold fetch_inventory, bind, read, try_except, call. rewrite Hnull, Hapi.
  unfold modify, lift. cbn [fst snd].
  destruct (log_settings_inventory inventory) as [[]|e] eqn:Elog.
  - unfold store, modify. cbn [fst snd _settings_inventory set_data set_settings_inventory data].
    split; [done|]. split; [done | discriminate].
  - unfold except_api_error.
    rewrite (log_settings_inventory_no_api_error inventory e Elog).
    cbn [fst snd _settings_inventory set_settings_inventory data].
    split; [done|]. split; [discriminate|]. by intros e' [= <-].
Qed.

Lemma inventory_cached_before_logging_witness :
  (fetch_inventory "settings_inventory" GetSettingsInventory
     _settings_inventory set_settings_inventory log_settings_inventory
     (new_coordinator false false [Ok odd_inventory])).1 = Raise TypeError
  /\ _settings_inventory
       (fetch_inventory "settings_inventory" GetSettingsInventory
          _settings_inventory set_settings_inventory log_settings_inventory
          (new_coordinator false false [Ok odd_inventory])).2 = odd_inventory.
Proof.
  destruct (inventory_cached_before_logging (new_coordinator false false [Ok odd_inventory])
              odd_inventory (seconds 1704110401) eq_refl eq_refl)
    as (Hcache & _ & Hraise).
  split; [|exact Hcache].
  apply (Hraise TypeError). vm_compute. reflexivity.
Defined.

(** ** The elevation before the fetches *)

(** X21.  The elevation at the start of a normal cycle.  With auto-elevate
    off nothing happens.  With it on, the access level is fetched; an API
    error of that fetch is swallowed; a level of 20 or more ends the step;
    a level below 20 is followed by one call of [elevate_access], whose
    result is dropped and whose API error, if any, is swallowed too.  In no
    case does the step put anything into [data]. *)
Theorem elevate_beforehand_steps :
  forall (q : coordinator) (r : res json) (t : Z),
    api q (length (calls q)) = (r, t) ->
    let fetched := (call GetAccessLevel q).2 in
    (auto_elevate_enabled q = false -> elevate_beforehand q = (Ok tt, q))
    /\ (auto_elevate_enabled q = true ->
        data (elevate_beforehand q).2 = data q
        /\ (forall e : exn,
              r = Raise e -> is_api_error e = true ->
              elevate_beforehand q = (Ok tt, fetched))
        /\ (forall (current level : json) (n : Z),
              r = Ok current ->
              py_get current "writeAccessLevel" (JNum 0) = Ok level ->
              py_num level = Ok n ->
              (20 <= n -> elevate_beforehand q = (Ok tt, fetched))
              /\ (n < 20 ->
                  calls (elevate_beforehand q).2
                  = (calls q ++ [GetAccessLevel; ElevateAccess])%list
                  /\ (forall (r2 : res json) (t2 : Z),
                        api fetched (length (calls fetched)) = (r2, t2) ->
                        (forall e : exn, r2 = Raise e -> is_api_error e = true) ->
                        (elevate_beforehand q).1 = Ok tt)))).
Proof.
  intros q r t Hapi fetched. split; [apply elevate_beforehand_off_run|].
  intros Hon.
  assert (call GetAccessLevel q = (r, fetched)) as Hfetch.
  { apply run_result. unfold call. by rewrite Hapi. }
  assert (forall body : json -> C unit,
            elevate_beforehand q
            = try_except (let* current_access := call GetAccessLevel in body current_access)
                (except_api_error (ret tt)) q ->
            forall current, r = Ok current ->
            elevate_beforehand q
            = try_except (body current) (except_api_error (ret tt)) fetched) as Hgo.
  { intros body E current ->. rewrite E. unfold try_except, bind. by rewrite Hfetch. }
  assert (elevate_beforehand q
          = try_except
              (let* current_access := call GetAccessLevel in
               let* level := lift (py_get current_access "writeAccessLevel" (JNum 0)) in
               let* low := lift (py_lt level 20) in
               if low then call ElevateAccess;; ret tt else ret tt)
              (except_api_error (ret tt)) q) as Hon_run.
  { unfold elevate_beforehand. unfold bind at 1, read at 1. by rewrite Hon. }
  split; [|split].
  - apply map_eq. intros key. apply elevate_beforehand_untouched.
  - intros e -> He. rewrite Hon_run. unfold try_except, bind. rewrite Hfetch.
    unfold except_api_error. by rewrite He.
  - intros current level n Hr Hlevel Hn.
    assert (elevate_beforehand q =
              try_except
                (if Z.ltb n 20 then call ElevateAccess;; ret tt else ret tt)
                (except_api_error (ret tt)) fetched) as Hstep.
    { rewrite (Hgo _ Hon_run current Hr). unfold try_except.
      unfold bind at 1, lift at 1. rewrite Hlevel.
      unfold bind at 1, lift at 1, py_lt, res_bind. rewrite Hn. reflexivity. }
    split.
    + intros Hge. rewrite Hstep. apply Z.ltb_ge in Hge. by rewrite Hge.
    + intros Hlt. rewrite Hstep. apply Z.ltb_lt in Hlt. rewrite Hlt. split.
      * rewrite calls_try by (by apply except_api_error_calls).
        assert (calls fetched = (calls q ++ [GetAccessLevel])%list) as Hc.
        { subst fetched. unfold call. by destruct (api q _). }
        unfold bind, call. destruct (api fetched _) as [[elevated|e] t2];
          cbn [snd calls]; by rewrite Hc, <- app_assoc.
      * intros r2 t2 Hapi2 Hr2. unfold try_except, bind, call. rewrite Hapi2.
        destruct r2 as [elevated|e]; [reflexivity|].
        unfold except_api_error. by rewrite (Hr2 e eq_refl).
Qed.

Lemma elevate_beforehand_steps_witness :
  calls (elevate_beforehand
           (new_coordinator false true [Ok (access_level 10); not_found])).2
    = [GetAccessLevel; ElevateAccess]
  /\ (elevate_beforehand (new_coordinator false true [Ok (access_level 10); not_found])).1
     = Ok tt.
Proof.
  set (q := new_coordinator false true [Ok (access_level 10); not_found]).
  destruct (elevate_beforehand_steps q (Ok (access_level 10)) (seconds 1704110401) eq_refl)
    as [_ Hon].
  destruct (Hon eq_refl) as (_ & _ & Hlevel).
  destruct (Hlevel (access_level 10) (JNum 10) 10 eq_refl) as [_ Hlow].
  { vm_compute. reflexivity. }
  { reflexivity. }
  destruct Hlow as [Hcalls Hok]; [lia|].
  split; [exact Hcalls|].
  apply (Hok not_found (seconds 1704110402)); [reflexivity|].
  intros e [= <-]. reflexivity.
Defined.

(** ** From an HTTP status to a failed update *)

Lemma mentions_app_l (needle a s : string) :
  mentions needle s -> mentions needle (a ++ s).
Proof.
  intros (before & after & ->). exists (a ++ before), after.
  by rewrite string_app_assoc.
Qed.

Lemma mentions_app_r (needle s b : string) :
  mentions needle s -> mentions needle (s ++ b).
Proof.
  intros (before & after & ->). exists before, (after ++ b).
  by rewrite !string_app_assoc.
Qed.

Lemma mentions_here (needle after : string) : mentions needle (needle ++ after).
Proof. exists "", after. by rewrite string_app_nil. Qed.

(** The error [get_internal_metrics] raises for an answer with an error
    status. *)
Lemma metrics_http_error w device_id metric_names tok r t :
  tokens_stale w = false ->
  py_item (tokens w) "idToken" = Ok tok ->
  net w (length (trace w)) = (Answered r, t) ->
  400 <= status_code r < 600 ->
  (get_internal_metrics device_id metric_names w).1
  = Raise (QvantumApiError
             ("API error: " ++ string_of_Z (status_code r)
              ++ (if Z.ltb (status_code r) 500 then " Client Error: " else " Server Error: ")
              ++ reason r ++ " for url: " ++ internal_api_endpoint w ++ "/"
              ++ internal_metrics_path device_id metric_names)).
Proof.
  intros Hfresh Htok Hnet Hst.
  assert (is_error_status (status_code r) = true) as Herr.
  { unfold is_error_status. apply andb_true_iff.
    split; [apply Z.leb_le | apply Z.ltb_lt]; lia. }
  unfold get_internal_metrics, _get_internal_request, bind.
  rewrite (prepare_fresh _ _ _ _ Hfresh Htok).
  unfold request, exchange. rewrite Hnet. run.
  destruct (read_json_error
              (internal_api_endpoint w ++ "/" ++ internal_metrics_path device_id metric_names)
              r Herr) as (x & Hx & Hmsg & -> & _).
  unfold finish, raise. cbn [fst].
  by rewrite (http_error_is_generic _ r x _ _ _ _ Hx), Hmsg.
Qed.

Lemma fetch_internal_metrics_transient names p e t :
  api p (length (calls p)) = (Raise e, t) ->
  is_api_error e = true ->
  transient_message (exn_message e) ->
  (fetch_internal_metrics names p).1
  = Raise (UpdateFailed ("Transient server error: " ++ exn_message e)).
Proof.
  intros Hapi Herr Ht. rewrite (fetch_internal_metrics_failed names p e t Hapi Herr).
  apply is_transient_spec in Ht. by rewrite Ht.
Qed.

Section TransientStatus.

Variable fromisoformat : string -> option pydatetime.

Lemma fast_cycle_transient p e t :
  is_fast_coordinator p = true ->
  api p (length (calls p)) = (Raise e, t) ->
  is_api_error e = true ->
  transient_message (exn_message e) ->
  (_update_data fromisoformat p).1
  = Raise (UpdateFailed ("Transient server error: " ++ exn_message e)).
Proof.
  intros Hfast Hapi Herr Ht. rewrite (update_data_fast fromisoformat p Hfast).
  pose proof (fetch_internal_metrics_transient FAST_POLLING_METRICS (set_data ∅ p) e t
                Hapi Herr Ht) as Hfetch.
  unfold bind. by destruct (fetch_internal_metrics _ _) as [[[]|e'] q]; simplify_eq/=.
Qed.

(** X22.  From the client to the coordinator.  When the metrics request is
    answered with HTTP 500, 502 or 503, [get_internal_metrics] raises the
    generic API error whose message starts with [API error: ] and the
    status number, and the coordinator that gets this error from its
    metrics fetch reads the number in the message as a transient server
    condition: the step raises [UpdateFailed], and so does the cycle of the
    fast coordinator. *)
Theorem server_error_status_fails_update :
  forall (p : coordinator) (w : world) (device_id : string) (metric_names : list string)
         (names : metric_list) (tok : json) (r : response) (t t' : Z),
    tokens_stale w = false ->
    py_item (tokens w) "idToken" = Ok tok ->
    net w (length (trace w)) = (Answered r, t') ->
    status_code r = 500 \/ status_code r = 502 \/ status_code r = 503 ->
    api p (length (calls p)) = ((get_internal_metrics device_id metric_names w).1, t) ->
    let message :=
      "API error: " ++ string_of_Z (status_code r) ++ " Server Error: " ++ reason r
      ++ " for url: " ++ internal_api_endpoint w ++ "/"
      ++ internal_metrics_path device_id metric_names in
    (get_internal_metrics device_id metric_names w).1 = Raise (QvantumApiError message)
    /\ (fetch_internal_metrics names p).1
       = Raise (UpdateFailed ("Transient server error: " ++ message))
    /\ (is_fast_coordinator p = true ->
        (_update_data fromisoformat p).1
        = Raise (UpdateFailed ("Transient server error: " ++ message))).
Proof.
  intros p w device_id metric_names names tok r t t' Hfresh Htok Hnet Hst Hapi message.
  assert ((get_internal_metrics device_id metric_names w).1
          = Raise (QvantumApiError message)) as Hraise.
  { rewrite (metrics_http_error w device_id metric_names tok r t' Hfresh Htok Hnet)
      by (destruct Hst as [-> | [-> | ->]]; lia).
    subst message. by destruct Hst as [-> | [-> | ->]]. }
  rewrite Hraise in Hapi.
  assert (transient_message message) as Ht.
  { subst message. unfold transient_message.
    destruct Hst as [-> | [-> | ->]]; [right; left | right; right; left | right; right; right];
      apply mentions_app_l, mentions_here. }
  split; [exact Hraise|]. split.
  - exact (fetch_internal_metrics_transient names p _ t Hapi eq_refl Ht).
  - intros Hfast. exact (fast_cycle_transient p _ t Hfast Hapi eq_refl Ht).
Qed.

(** X23.  The coordinator's test for a transient condition looks for
    [500], [502] and [503] anywhere in the message, and the message of an
    HTTP error ends with the URL of the request, which holds the device
    id.  So for a device whose id mentions one of the three numbers, every
    answer with an error status to the metrics request -- a 404 as well --
    makes the metrics step raise [UpdateFailed], and with it the cycle of
    the fast coordinator. *)
Theorem device_id_read_as_transient :
  forall (p : coordinator) (w : world) (device_id : string) (metric_names : list string)
         (names : metric_list) (tok : json) (r : response) (t t' : Z),
    tokens_stale w = false ->
    py_item (tokens w) "idToken" = Ok tok ->
    net w (length (trace w)) = (Answered r, t') ->
    400 <= status_code r < 600 ->
    mentions "500" device_id \/ mentions "502" device_id \/ mentions "503" device_id ->
    api p (length (calls p)) = ((get_internal_metrics device_id metric_names w).1, t) ->
    exists message : string,
      (get_internal_metrics device_id metric_names w).1 = Raise (QvantumApiError message)
      /\ (fetch_internal_metrics names p).1
         = Raise (UpdateFailed ("Transient server error: " ++ message))
      /\ (is_fast_coordinator p = true ->
          (_update_data fromisoformat p).1
          = Raise (UpdateFailed ("Transient server error: " ++ message))).
Proof.
  intros p w device_id metric_names names tok r t t' Hfresh Htok Hnet Hst Hid Hapi.
  pose proof (metrics_http_error w device_id metric_names tok r t' Hfresh Htok Hnet Hst)
    as Hraise.
  rewrite Hraise in Hapi. eexists. split; [exact Hraise|].
  assert (forall needle : string,
            mentions needle device_id ->
            mentions needle
              ("API error: " ++ string_of_Z (status_code r)
               ++ (if Z.ltb (status_code r) 500 then " Client Error: " else " Server Error: ")
               ++ reason r ++ " for url: " ++ internal_api_endpoint w ++ "/"
               ++ internal_metrics_path device_id metric_names)) as Hin.
  { intros needle Hneedle. unfold internal_metrics_path.
    do 8 apply mentions_app_l. by apply mentions_app_r. }
  assert (transient_message
            ("API error: " ++ string_of_Z (status_code r)
             ++ (if Z.ltb (status_code r) 500 then " Client Error: " else " Server Error: ")
             ++ reason r ++ " for url: " ++ internal_api_endpoint w ++ "/"
             ++ internal_metrics_path device_id metric_names)) as Ht.
  { unfold transient_message.
    destruct Hid as [H | [H | H]]; [right; left | right; right; left | right; right; right];
      by apply Hin. }
  split.
  - exact (fetch_internal_metrics_transient names p _ t Hapi eq_refl Ht).
  - intros Hfast. exact (fast_cycle_transient p _ t Hfast Hapi eq_refl Ht).
Qed.

End TransientStatus.

Lemma server_error_status_fails_update_witness :
  (_update_data two_timestamps
     (new_coordinator true false
        [(get_internal_metrics "dev" ["powertotal"]
            (client_facing [Answered (error_response 503 "Service Unavailable")])).1])).1
  = Raise (UpdateFailed
             "Transient server error: API error: 503 Server Error: Service Unavailable for url: https://internal.example.org/api/internal/v1/devices/dev/values?use_internal_names=true&timeout=12&names=powertotal").
Proof.
  set (w := client_facing [Answered (error_response 503 "Service Unavailable")]).
  refine (proj2 (proj2 (server_error_status_fails_update two_timestamps
            (new_coordinator true false [(get_internal_metrics "dev" ["powertotal"] w).1])
            w "dev" ["powertotal"] FAST_POLLING_METRICS (JStr "ID")
            (error_response 503 "Service Unavailable") (seconds 1704110401) (seconds 1001)
            _ _ _ _ _)) _).
  - vm_compute. reflexivity.
  - vm_compute. reflexivity.
  - vm_compute. reflexivity.
  - right. right. reflexivity.
  - reflexivity.
  - reflexivity.
Defined.

Lemma device_id_read_as_transient_witness :
  exists message : string,
    (_update_data two_timestamps
       (new_coordinator true false
          [(get_internal_metrics "pump-5000" ["powertotal"]
              (client_facing [Answered (error_response 404 "Not Found")])).1])).1
    = Raise (UpdateFailed ("Transient server error: " ++ message)).
Proof.
  set (w := client_facing [Answered (error_response 404 "Not Found")]).
  destruct (device_id_read_as_transient two_timestamps
              (new_coordinator true false
                 [(get_internal_metrics "pump-5000" ["powertotal"] w).1])
              w "pump-5000" ["powertotal"] FAST_POLLING_METRICS (JStr "ID")
              (error_response 404 "Not Found") (seconds 1704110401) (seconds 1001))
    as (message & _ & _ & Hcycle).
  - vm_compute. reflexivity.
  - vm_compute. reflexivity.
  - vm_compute. reflexivity.
  - simpl. lia.
  - left. exists "pump-", "0". reflexivity.
  - reflexivity.
  - exists message. by apply Hcycle.
Defined.

(** ** The stored auto-elevate flag *)

(** X24.  [async_set_auto_elevate] on a store that holds nothing or a
    dict sets the flag of the coordinator and saves it under the device
    id.  A later [async_load_auto_elevate_state] for that device, on any
    coordinator that reads what was saved, sets the flag to the value
    saved; for another device it loads what it would have loaded before
    the change.  From a store that holds nothing, or an empty dict, the flag
    is loaded as [False]. *)
Theorem auto_elevate_round_trip :
  forall (device_id : string) (enabled : bool) (s : flag_store),
    (saved s = JNull \/ exists o : gmap string json, saved s = JObj o) ->
    let s1 := (async_set_auto_elevate device_id enabled s).2 in
    (async_set_auto_elevate device_id enabled s).1 = Ok tt
    /\ flag s1 = JBool enabled
    /\ (forall s2 : flag_store,
          saved s2 = saved s1 ->
          async_load_auto_elevate_state device_id s2
          = (Ok tt, {| flag := JBool enabled; saved := saved s2 |}))
    /\ (forall (other : string) (s2 s0 : flag_store),
          other <> device_id ->
          saved s2 = saved s1 ->
          saved s0 = saved s ->
          (async_load_auto_elevate_state other s2).1
          = (async_load_auto_elevate_state other s0).1
          /\ flag (async_load_auto_elevate_state other s2).2
             = flag (async_load_auto_elevate_state other s0).2)
    /\ (forall s0 : flag_store,
          truthy (saved s0) = false ->
          async_load_auto_elevate_state device_id s0
          = (Ok tt, {| flag := JBool false; saved := saved s0 |})).
Proof.
  intros device_id enabled s Hsaved s1.
  assert (exists o : gmap string json,
            async_set_auto_elevate device_id enabled s
            = (Ok tt, {| flag := JBool enabled;
                         saved := JObj (<[device_id := JBool enabled]> o) |})
            /\ (saved s = JNull /\ o = ∅ \/ saved s = JObj o)) as (o & Hset & Ho).
  { unfold async_set_auto_elevate, bind, modify, read, lift. cbn [fst snd saved flag].
    destruct Hsaved as [-> | [o ->]].
    - exists ∅. split; [reflexivity | by left].
    - exists o. split; [|by right]. cbn [truthy].
      destruct (bool_decide (o = ∅)) eqn:E; cbn [negb]; [|reflexivity].
      apply bool_decide_eq_true in E. by subst. }
  subst s1. rewrite Hset. cbn [fst snd flag saved].
  split; [done|]. split; [done|].
  assert (truthy (JObj (<[device_id := JBool enabled]> o)) = true) as Htruthy.
  { apply (nonempty_dict_truthy _ device_id (JBool enabled)), lookup_insert_eq. }
  split; [|split].
  - intros [f2 sv2] Hs2. cbn [saved] in Hs2. subst sv2.
    unfold async_load_auto_elevate_state, bind, read, lift, modify. cbn [saved].
    rewrite Htruthy. cbn [py_in py_item fst snd].
    rewrite lookup_insert_eq. rewrite bool_decide_eq_true_2 by (by eexists).
    reflexivity.
  - intros other [f2 sv2] [f0 sv0] Hother Hs2 Hs0. cbn [saved] in Hs2, Hs0. subst sv2 sv0.
    unfold async_load_auto_elevate_state, bind, read, lift, modify. cbn [saved].
    rewrite Htruthy. cbn [py_in py_item fst snd].
    rewrite lookup_insert_ne by done.
    destruct Ho as [[-> ->] | ->].
    + rewrite lookup_empty. cbn [truthy].
      rewrite bool_decide_eq_false_2 by (by intros [? ?]). done.
    + destruct (o !! other) as [v|] eqn:Ev.
      * rewrite (nonempty_dict_truthy o other v Ev). cbn [py_in py_item]. rewrite Ev.
        by rewrite bool_decide_eq_true_2 by (by eexists).
      * rewrite bool_decide_eq_false_2 by (by intros [? ?]).
        destruct (truthy (JObj o)); [|done]. cbn [py_in py_item]. rewrite Ev.
        by rewrite bool_decide_eq_false_2 by (by intros [? ?]).
  - intros [f0 sv0] Hfalsy. cbn [saved] in *.
    unfold async_load_auto_elevate_state, bind, read, lift, modify. cbn [saved].
    by rewrite Hfalsy.
Qed.

Lemma auto_elevate_round_trip_witness :
  flag (async_load_auto_elevate_state "dev"
          (async_set_auto_elevate "dev" true {| flag := JBool false; saved := JNull |}).2).2
  = JBool true.
Proof.
  destruct (auto_elevate_round_trip "dev" true {| flag := JBool false; saved := JNull |})
    as (_ & _ & Hload & _); [by left|].
  by rewrite (Hload _ eq_refl).
Defined.

(** ** The margin of sixty seconds *)

(** What [_ensure_tokens_valid] leaves when it has acquired tokens. *)
Lemma ensure_valid_expiry w w' :
  tokens_stale w = true ->
  _ensure_tokens_valid w = (Ok tt, w') ->
  exists (o : gmap string json) (expires_in : json) (L : Z),
    tokens w' = JObj o
    /\ o !! "expiresIn" = Some expires_in
    /\ py_int expires_in = Ok L
    /\ token_expiry w' = Some (now_naive w' + seconds (L - 60)).
Proof.
  intros Hstale. rewrite (ensure_valid_stale w Hstale). unfold bind.
  destruct (acquire_tokens w) as [[[]|e] w1]; [|discriminate].
  unfold store_expiry, assert_tokens. run.
  destruct (tokens w1) as [| | | | |o] eqn:Etk; run; try discriminate.
  all: try (simpl; discriminate).
  unfold py_item at 1.
  destruct (o !! "expiresIn") as [ei|] eqn:Eei; run; [|discriminate].
  destruct (py_int ei) as [L|] eqn:EL; run; [|discriminate].
  destruct (timedelta _) as [delta|] eqn:Ed; run; [|discriminate].
  apply timedelta_ok in Ed as ->.
  destruct (datetime_add _ _) as [expiry|] eqn:Ea; run; [|discriminate].
  apply datetime_add_ok in Ea as ->.
  intros [= <-]. exists o, ei, L. cbn [tokens token_expiry set_token_expiry].
  by rewrite Etk.
Qed.

(** X25.  The stored expiry is the lifetime less sixty seconds, so a token
    set whose lifetime is sixty seconds or less is stale as soon as it is
    stored: the next [_ensure_tokens_valid], at the same clock reading or
    later, acquires tokens again and sends a refresh request.  With a
    longer lifetime the token set is not stale at that moment. *)
Theorem short_lifetime_is_stale_at_once :
  forall (w w' : world) (expires_in : json) (L : Z),
    tokens_stale w = true ->
    _ensure_tokens_valid w = (Ok tt, w') ->
    py_item (tokens w') "expiresIn" = Ok expires_in ->
    py_int expires_in = Ok L ->
    (L <= 60 ->
       tokens_stale w' = true
       /\ forall (w'' : world) (rt : json),
            tokens w'' = tokens w' ->
            token_expiry w'' = token_expiry w' ->
            now_naive w' <= now_naive w'' ->
            py_item (tokens w') "refreshToken" = Ok rt ->
            exists rest : list event,
              trace (_ensure_tokens_valid w'').2
              = (trace w'' ++ Refresh (refresh_url w'') rt :: rest)%list)
    /\ (60 < L -> tokens_stale w' = false).
Proof.
  intros w w' expires_in L Hstale Hrun Hitem HL.
  destruct (ensure_valid_expiry w w' Hstale Hrun) as (o & ei & L' & Htk & Hei & HL' & Hexp).
  rewrite Htk in Hitem. simpl in Hitem. rewrite Hei in Hitem. injection Hitem as ->.
  rewrite HL in HL'. injection HL' as <-.
  assert (truthy (tokens w') = true) as Htruthy.
  { rewrite Htk. exact (nonempty_dict_truthy o _ _ Hei). }
  split.
  - intros Hshort.
    assert (forall w'' : world,
              tokens w'' = tokens w' -> token_expiry w'' = token_expiry w' ->
              now_naive w' <= now_naive w'' -> tokens_stale w'' = true) as Hagain.
    { intros w'' Ht He Hnow. unfold tokens_stale. rewrite Ht, He, Htruthy, Hexp.
      cbn [negb orb]. apply Z.leb_le. unfold seconds. lia. }
    split; [apply Hagain; [done | done | lia]|].
    intros w'' rt Ht He Hnow Hrt.
    pose proof (Hagain w'' Ht He Hnow) as Hstale''.
    rewrite (ensure_valid_stale w'' Hstale'').
    assert (truthy (tokens w'') = true) as Htruthy'' by (by rewrite Ht).
    rewrite <- Ht in Hrt.
    destruct (refresh_trace w'' rt Htruthy'' Hrt) as [Htr _].
    unfold acquire_tokens, bind, read. rewrite Htruthy''. unfold try_except.
    destruct (_refresh_access_token w'') as [[[]|e] w1]; cbn [fst snd] in *.
    + exists []. by rewrite store_expiry_trace, Htr.
    + destruct (is_authentication_error e); [|exists []; cbn [snd]; by rewrite Htr].
      pose proof (authenticate_trace w1) as Ha.
      destruct (authenticate w1) as [[[]|e2] w2]; cbn [fst snd] in *.
      * exists [SignIn (sign_in_url w1)].
        by rewrite store_expiry_trace, Ha, Htr, <- app_assoc.
      * exists [SignIn (sign_in_url w1)]. by rewrite Ha, Htr, <- app_assoc.
  - intros Hlong. unfold tokens_stale. rewrite Htruthy, Hexp. cbn [negb orb].
    apply Z.leb_gt. unfold seconds. lia.
Qed.

Lemma short_lifetime_is_stale_at_once_witness :
  tokens_stale
    (_ensure_tokens_valid
       (new_client [Answered (ok_response (JsonBody (token_set "ID2" "RT2" "60")))])).2
  = true.
Proof.
  set (w := new_client [Answered (ok_response (JsonBody (token_set "ID2" "RT2" "60")))]).
  destruct (short_lifetime_is_stale_at_once w (_ensure_tokens_valid w).2 (JStr "60") 60)
    as [Hshort _].
  - reflexivity.
  - apply run_result. vm_compute. reflexivity.
  - vm_compute. reflexivity.
  - vm_compute. reflexivity.
  - apply Hshort. lia.
Defined.
